(** * videos-con-IA: the upload / edit / video front end of [src/index.tsx]

    The page script is a handful of DOM event listeners around five
    module-level variables and two [async] functions that talk to the
    remote generative service.  The embedding below follows the script
    top to bottom:

    - JavaScript strings are sequences of UTF-16 code units;
    - the module-level variables, the DOM elements the script touches and
      the browser's timer table form the state [App];
    - listener bodies are written in a small state-and-exception monad
      [JS], so that [throw], [try]/[catch]/[finally] read as in the source;
    - an [async] function is cut at each [await]: the code between two
      [await]s is one synchronous segment, the suspended function is a
      [Task] waiting in the event loop, and the event loop ([step]) resumes
      it with whatever the awaited promise settled to. *)

From Stdlib Require Import String Ascii.
From stdpp Require Import base option list gmap.

Local Open Scope N_scope.

(** ** Strings *)

(** A JavaScript string: a sequence of 16-bit code units. *)
Abbreviation jschar := N (only parsing).
Abbreviation jsstring := (list N) (only parsing).

(** Source literals are written as UTF-8 text; [utf8_decode] turns the bytes
    of a literal into its code units (the literals of the script only use
    characters of the Basic Multilingual Plane). *)
Fixpoint utf8_decode (bs : list N) : jsstring :=
  match bs with
  | [] => []
  | b :: r =>
      if b <? 128 then b :: utf8_decode r
      else if b <? 224 then
        match r with
        | c :: r' => ((b mod 32) * 64 + c mod 64) :: utf8_decode r'
        | [] => [b]
        end
      else
        match r with
        | c :: d :: r' =>
            ((b mod 16) * 4096 + (c mod 64) * 64 + d mod 64) :: utf8_decode r'
        | _ => [b]
        end
  end.

Fixpoint bytes_of_string (s : string) : list N :=
  match s with
  | EmptyString => []
  | String a r => N_of_ascii a :: bytes_of_string r
  end.

Definition lit (s : string) : jsstring := utf8_decode (bytes_of_string s).
Arguments lit s%_string : simpl never.

Definition COMMA : jschar := 44.
Definition COLON : jschar := 58.
Definition SEMICOLON : jschar := 59.

(** [String.prototype.split] with a one-character separator: the pieces
    between the occurrences of [sep]; never empty ([''.split(',')] is
    [['']]). *)
Fixpoint split (sep : jschar) (s : jsstring) : list jsstring :=
  match s with
  | [] => [[]]
  | c :: r =>
      if c =? sep then [] :: split sep r
      else match split sep r with
           | piece :: pieces => (c :: piece) :: pieces
           | [] => [[c]]
           end
  end.

(** The characters [String.prototype.trim] strips: ECMAScript WhiteSpace and
    LineTerminator. *)
Definition is_white_space (c : jschar) : bool :=
  (c =? 9) || (c =? 10) || (c =? 11) || (c =? 12) || (c =? 13) || (c =? 32)
  || (c =? 160) || (c =? 5760) || ((8192 <=? c) && (c <=? 8202))
  || (c =? 8232) || (c =? 8233) || (c =? 8239) || (c =? 8287)
  || (c =? 12288) || (c =? 65279).

Fixpoint trimStart (s : jsstring) : jsstring :=
  match s with
  | c :: r => if is_white_space c then trimStart r else s
  | [] => []
  end.

Definition trimEnd (s : jsstring) : jsstring := rev (trimStart (rev s)).

Definition trim (s : jsstring) : jsstring := trimEnd (trimStart s).
Arguments trim : simpl never.

(** Truthiness of a [string | null | undefined] value: only a non-empty
    string is truthy. *)
Definition truthy (v : option jsstring) : bool :=
  match v with
  | Some (_ :: _) => true
  | _ => false
  end.

Local Close Scope N_scope.

(** ** Values exchanged with the remote service

    The type declarations of the SDK are not part of the sources; the
    records below have exactly the fields the script reads, in the shape the
    specification gives the replies (ordered parts, each inline data with
    its MIME type or text; a job handle with a completion flag and, when
    done, generated videos each with a link).  A field whose absence
    changes what the script does is optional: one it reads through [?.] or
    tests for truthiness, and one it dereferences directly (l.151:
    [content] and [parts]), where the absence throws a TypeError.  The
    inline data and its MIME type, which are only interpolated into the
    data URL, are taken as present. *)

(** [part.inlineData]: embedded media bytes with their MIME type. *)
Record InlineData := { data : jsstring; mimeType : jsstring }.

(** One part of a candidate's content (l.151-168). *)
Record Part := { inlineData : option InlineData; text : option jsstring }.

(** [candidate.content] and [content.parts] (l.151); a candidate whose
    generation was blocked comes without content. *)
Record Content := { parts : option (list Part) }.
Record Candidate := { content : option Content }.

(** The reply of [ai.models.generateContent] (l.134). *)
Record GenerateContentResponse := { candidates : option (list Candidate) }.

(** [operation.response?.generatedVideos?.[0]?.video?.uri] (l.218). *)
Record VideoRef := { uri : option jsstring }.
Record GeneratedVideo := { video : option VideoRef }.
Record GenerateVideosResponse := { generatedVideos : option (list GeneratedVideo) }.

(** The job handle of a video generation (l.206, l.215). *)
Record Operation := {
  name : jsstring;
  done : bool;
  response : option GenerateVideosResponse
}.

(** The file picked in the file input; its content is only seen through the
    data URL the [FileReader] produces. *)
Record File := { file_name : jsstring }.

(** The body of the fetched video; [blob_url] is the object URL that
    [URL.createObjectURL] mints for it. *)
Record Blob := { blob_url : jsstring }.

(** What can be thrown or be the reason of a rejected promise. *)
Inductive JsError :=
| ErrorObj (message : jsstring)   (* [new Error(message)] *)
| TypeErrorObj                    (* raised by the engine, e.g. [undefined.split] *)
| Reason (detail : jsstring).     (* failure reported by the SDK or the network *)

(** ** The page *)

Inductive Mode := ModeEdit | ModeVideo.   (* ['edit' | 'video'] *)

(** The nodes the script puts into [#result-container]. *)
Inductive Element :=
| ImgEl (src alt : jsstring)
| PEl (id className textContent : jsstring)
| VideoEl (src : jsstring) (controls autoplay loop muted : bool)
| LoaderEl.                       (* the [#loader] element itself *)

(** Everything the script does that is visible outside the page state: the
    calls it issues and the messages it shows, in the order they happen. *)
Inductive Effect :=
| Alert (message : jsstring)
| ConsoleError (label : jsstring) (error : JsError)
| Uncaught (error : JsError)
| ReadAsDataURL (file : File)
| GenerateContent (model data mimeType prompt : jsstring)
| GenerateVideos (model prompt imageBytes mimeType : jsstring) (numberOfVideos : N)
| SetTimeout (ms : N)
| GetVideosOperation (operation : Operation)
| Fetch (url : jsstring)
| ResponseBlob
| CreateObjectURL (blob : Blob)
| AnchorClick (href download : jsstring).

(** A suspended computation waiting in the event loop: the pending
    [reader.onload] callback, or an [async] function stopped at one of its
    [await]s together with the locals it still needs. *)
Inductive Task :=
| ReaderOnload                                   (* l.67-83 *)
| EditAwaitGenerateContent (prompt : jsstring)   (* l.134 *)
| VideoAwaitGenerateVideos                       (* l.206 *)
| VideoAwaitTimeout (operation : Operation)      (* l.214 *)
| VideoAwaitGetVideosOperation                   (* l.215 *)
| VideoAwaitFetch                                (* l.221 *)
| VideoAwaitBlob.                                (* l.222 *)

(** The module-level variables (l.10-14).  [window.setInterval] returns a
    positive integer, so a stored handle is always truthy. *)
Record Vars := mkVars {
  imageBase64 : option jsstring;
  imageMimeType : option jsstring;
  resultUrl : option jsstring;
  currentMode : Mode;
  loadingInterval : option positive
}.

(** The properties of the DOM elements of l.17-28 that the script writes. *)
Record Page := mkPage {
  originalImage_src : jsstring;
  originalImage_display : jsstring;
  uploadPlaceholder_hidden : bool;
  promptInput_value : jsstring;
  actionButton_textContent : jsstring;
  actionButton_disabled : bool;
  downloadButton_textContent : jsstring;
  downloadButton_hidden : bool;
  resultContainer : list Element;
  resultPlaceholder_hidden : bool;
  loader_hidden : bool
}.

(** The browser around the script: the interval timers that are running
    (each with the [messageIndex] its callback has captured, l.195-202), the
    next timer handle, the suspended tasks, [process.env.API_KEY], and the
    log of effects. *)
Record Host := mkHost {
  timers : gmap positive nat;
  next_timer : positive;
  pending : list Task;
  API_KEY : jsstring;
  trace : list Effect
}.

Record App := mkApp { vars : Vars; page : Page; host : Host }.

Definition with_vars (f : Vars → Vars) (s : App) : App :=
  mkApp (f (vars s)) (page s) (host s).
Definition with_page (f : Page → Page) (s : App) : App :=
  mkApp (vars s) (f (page s)) (host s).
Definition with_host (f : Host → Host) (s : App) : App :=
  mkApp (vars s) (page s) (f (host s)).

Definition set_imageBase64 v (x : Vars) : Vars :=
  mkVars v (imageMimeType x) (resultUrl x) (currentMode x) (loadingInterval x).
Definition set_imageMimeType v (x : Vars) : Vars :=
  mkVars (imageBase64 x) v (resultUrl x) (currentMode x) (loadingInterval x).
Definition set_resultUrl v (x : Vars) : Vars :=
  mkVars (imageBase64 x) (imageMimeType x) v (currentMode x) (loadingInterval x).
Definition set_currentMode v (x : Vars) : Vars :=
  mkVars (imageBase64 x) (imageMimeType x) (resultUrl x) v (loadingInterval x).
Definition set_loadingInterval v (x : Vars) : Vars :=
  mkVars (imageBase64 x) (imageMimeType x) (resultUrl x) (currentMode x) v.

Definition set_originalImage v d (p : Page) : Page :=
  mkPage v d (uploadPlaceholder_hidden p) (promptInput_value p)
    (actionButton_textContent p) (actionButton_disabled p)
    (downloadButton_textContent p) (downloadButton_hidden p)
    (resultContainer p) (resultPlaceholder_hidden p) (loader_hidden p).
Definition set_uploadPlaceholder_hidden v (p : Page) : Page :=
  mkPage (originalImage_src p) (originalImage_display p) v (promptInput_value p)
    (actionButton_textContent p) (actionButton_disabled p)
    (downloadButton_textContent p) (downloadButton_hidden p)
    (resultContainer p) (resultPlaceholder_hidden p) (loader_hidden p).
Definition set_promptInput_value v (p : Page) : Page :=
  mkPage (originalImage_src p) (originalImage_display p)
    (uploadPlaceholder_hidden p) v
    (actionButton_textContent p) (actionButton_disabled p)
    (downloadButton_textContent p) (downloadButton_hidden p)
    (resultContainer p) (resultPlaceholder_hidden p) (loader_hidden p).
Definition set_labels a d (p : Page) : Page :=
  mkPage (originalImage_src p) (originalImage_display p)
    (uploadPlaceholder_hidden p) (promptInput_value p)
    a (actionButton_disabled p) d (downloadButton_hidden p)
    (resultContainer p) (resultPlaceholder_hidden p) (loader_hidden p).
Definition set_actionButton_disabled v (p : Page) : Page :=
  mkPage (originalImage_src p) (originalImage_display p)
    (uploadPlaceholder_hidden p) (promptInput_value p)
    (actionButton_textContent p) v
    (downloadButton_textContent p) (downloadButton_hidden p)
    (resultContainer p) (resultPlaceholder_hidden p) (loader_hidden p).
Definition set_downloadButton_hidden v (p : Page) : Page :=
  mkPage (originalImage_src p) (originalImage_display p)
    (uploadPlaceholder_hidden p) (promptInput_value p)
    (actionButton_textContent p) (actionButton_disabled p)
    (downloadButton_textContent p) v
    (resultContainer p) (resultPlaceholder_hidden p) (loader_hidden p).
Definition set_resultContainer v (p : Page) : Page :=
  mkPage (originalImage_src p) (originalImage_display p)
    (uploadPlaceholder_hidden p) (promptInput_value p)
    (actionButton_textContent p) (actionButton_disabled p)
    (downloadButton_textContent p) (downloadButton_hidden p)
    v (resultPlaceholder_hidden p) (loader_hidden p).
Definition set_resultPlaceholder_hidden v (p : Page) : Page :=
  mkPage (originalImage_src p) (originalImage_display p)
    (uploadPlaceholder_hidden p) (promptInput_value p)
    (actionButton_textContent p) (actionButton_disabled p)
    (downloadButton_textContent p) (downloadButton_hidden p)
    (resultContainer p) v (loader_hidden p).
Definition set_loader_hidden v (p : Page) : Page :=
  mkPage (originalImage_src p) (originalImage_display p)
    (uploadPlaceholder_hidden p) (promptInput_value p)
    (actionButton_textContent p) (actionButton_disabled p)
    (downloadButton_textContent p) (downloadButton_hidden p)
    (resultContainer p) (resultPlaceholder_hidden p) v.

Definition set_timers v (h : Host) : Host :=
  mkHost v (next_timer h) (pending h) (API_KEY h) (trace h).
Definition set_next_timer v (h : Host) : Host :=
  mkHost (timers h) v (pending h) (API_KEY h) (trace h).
Definition set_pending v (h : Host) : Host :=
  mkHost (timers h) (next_timer h) v (API_KEY h) (trace h).
Definition set_trace v (h : Host) : Host :=
  mkHost (timers h) (next_timer h) (pending h) (API_KEY h) v.

(** ** The monad of listener bodies *)

Inductive Completion (A : Type) :=
| Normal (a : A)
| Throw (e : JsError).
Arguments Normal {A} a.
Arguments Throw {A} e.

Definition JS (A : Type) : Type := App → Completion A * App.

#[global] Instance JS_ret : MRet JS := λ A (a : A) s, (Normal a, s).
#[global] Instance JS_bind : MBind JS := λ A B (k : A → JS B) (m : JS A) s,
  match m s with
  | (Normal a, s') => k a s'
  | (Throw e, s') => (Throw e, s')
  end.

Definition throw {A} (e : JsError) : JS A := λ s, (Throw e, s).

Definition get {A} (f : App → A) : JS A := λ s, (Normal (f s), s).
Definition update (f : App → App) : JS unit := λ s, (Normal tt, f s).

(** [try { body } catch (error) { handler error }] *)
Definition try_catch {A} (body : JS A) (handler : JsError → JS A) : JS A :=
  λ s, match body s with
       | (Throw e, s') => handler e s'
       | r => r
       end.

(** [await]ing a settled promise: its value, or its reason thrown. *)
Definition settled {A} (r : JsError + A) : JS A :=
  match r with
  | inr a => mret a
  | inl e => throw e
  end.

Definition emit (e : Effect) : JS unit :=
  update (with_host (λ h, set_trace (trace h ++ [e]) h)).

(** [try { body } catch (error) { handler error } finally { finalizer }]
    around a block that contains [await]s: a segment that ends suspended at
    the next [await] has not left the [try] block, so neither the handler
    nor the finalizer runs yet. *)
Definition try_catch_finally (body : JS (option Task))
    (handler : JsError → JS unit) (finalizer : JS unit) : JS (option Task) :=
  λ s, match try_catch body (λ error, handler error;; mret None) s with
       | (Normal (Some t), s') => (Normal (Some t), s')
       | (r, s') =>
           match finalizer s' with
           | (Normal _, s'') => (r, s'')
           | (Throw e, s'') => (Throw e, s'')
           end
       end.

Definition alert (message : jsstring) : JS unit := emit (Alert message).
Definition console_error (label : jsstring) (error : JsError) : JS unit :=
  emit (ConsoleError label error).

Definition appendChild (e : Element) : JS unit :=
  update (with_page (λ p, set_resultContainer (resultContainer p ++ [e]) p)).

(** [window.setInterval(callback, 5000)] for the rotation callback of
    l.196-202, whose captured [messageIndex] starts at [messageIndex]. *)
Definition setInterval (messageIndex : nat) : JS positive :=
  id ← get (next_timer ∘ host);
  update (with_host (λ h,
    set_next_timer (Pos.succ id) (set_timers (<[id := messageIndex]> (timers h)) h)));;
  mret id.

Definition clearInterval (id : positive) : JS unit :=
  update (with_host (λ h, set_timers (delete id (timers h)) h)).

(** ** The script *)

(** l.34-40 *)
Definition modeEditRadio_change (checked : bool) : JS unit :=
  if checked then
    update (with_vars (set_currentMode ModeEdit));;
    update (with_page (set_labels (lit "Editar Imagen") (lit "Descargar Imagen")))
  else mret tt.

(** l.42-48 *)
Definition modeVideoRadio_change (checked : bool) : JS unit :=
  if checked then
    update (with_vars (set_currentMode ModeVideo));;
    update (with_page (set_labels (lit "Crear Video") (lit "Descargar Video")))
  else mret tt.

(** l.51-56 *)
Definition promptExamples_change (selectedValue : jsstring) : JS unit :=
  if truthy (Some selectedValue) then
    update (with_page (set_promptInput_value selectedValue))
  else mret tt.

(** l.67-82: the [onload] callback of the reader, called with the data URL
    the read produced. *)
Definition reader_onload (result : jsstring) : JS unit :=
  let dataUrlParts := split COMMA result in
  if decide (length dataUrlParts ≠ 2) then
    throw (ErrorObj (lit "Invalid data URL format"))
  else
    match dataUrlParts !! 0 ≫= λ header, split COLON header !! 1 with
    | None => throw TypeErrorObj
    | Some segment =>
        let mimeTypePart := split SEMICOLON segment !! 0 in
        update (with_vars (set_imageBase64 (dataUrlParts !! 1)));;
        update (with_vars (set_imageMimeType mimeTypePart));;
        update (with_page (set_originalImage result (lit "block")));;
        update (with_page (set_uploadPlaceholder_hidden true));;
        update (with_page (set_actionButton_disabled false))
    end.

(** l.59-88: the listener installs [reader_onload] and starts the read; the
    callback runs later, from the event loop, outside this [try]. *)
Definition imageUpload_change (file : option File) : JS (option Task) :=
  match file with
  | None => mret None
  | Some file =>
      try_catch
        (emit (ReadAsDataURL file);;
         mret (Some ReaderOnload))
        (λ error,
           console_error (lit "Error reading file:") error;;
           alert (lit "No se pudo leer el archivo seleccionado. Por favor, intenta con otra imagen.");;
           mret None)
  end.

(** l.249-273 *)
Definition setLoading (isLoading : bool) (message : option jsstring) : JS unit :=
  interval ← get (loadingInterval ∘ vars);
  match interval with
  | Some id =>
      clearInterval id;;
      update (with_vars (set_loadingInterval None))
  | None => mret tt
  end;;
  if isLoading then
    update (with_page (set_resultContainer []));;
    update (with_page (set_downloadButton_hidden true));;
    update (with_vars (set_resultUrl None));;
    update (with_page (set_loader_hidden false));;
    appendChild LoaderEl;;
    (if truthy message
     then appendChild (PEl (lit "loader-text") [] (default [] message))
     else mret tt);;
    update (with_page (set_actionButton_disabled true))
  else
    update (with_page (set_loader_hidden true));;
    update (with_page (set_actionButton_disabled false)).

(** l.275-282 *)
Definition displayError (message : jsstring) : JS unit :=
  update (with_page (set_resultContainer []));;
  appendChild (PEl [] (lit "error") message);;
  update (with_page (set_downloadButton_hidden true)).

(** l.152-168: the body of the loop over the parts; the result is the new
    value of [foundContent]. *)
Definition render_part (prompt : jsstring) (part : Part) (foundContent : bool)
    : JS bool :=
  match inlineData part with
  | Some inline =>
      let imageUrl :=
        lit "data:" ++ mimeType inline ++ lit ";base64," ++ data inline in
      appendChild (ImgEl imageUrl prompt);;
      update (with_vars (set_resultUrl (Some imageUrl)));;
      update (with_page (set_downloadButton_hidden false));;
      mret true
  | None =>
      if truthy (text part) then
        appendChild (PEl [] (lit "model-text") (default [] (text part)));;
        mret true
      else mret foundContent
  end.

(** l.151-169: [for (const part of ...parts)]. *)
Fixpoint render_parts (prompt : jsstring) (ps : list Part) (foundContent : bool)
    : JS bool :=
  match ps with
  | [] => mret foundContent
  | part :: rest =>
      foundContent ← render_part prompt part foundContent;
      render_parts prompt rest foundContent
  end.

(** l.128-145: [editImageWithGemini] up to its [await]: the busy indicator
    is started and the content-generation call is issued. *)
Definition editImageWithGemini (prompt base64Data mimeType : jsstring)
    : JS (option Task) :=
  setLoading true None;;
  emit (GenerateContent (lit "gemini-2.5-flash-image") base64Data mimeType prompt);;
  mret (Some (EditAwaitGenerateContent prompt)).

(** l.151: [candidate.content.parts], reached without a guard: [None]
    when the candidate has no content ([undefined.parts]) or the content no
    parts ([undefined] is not iterable), where the loop header throws a
    TypeError. *)
Definition content_parts (candidate : Candidate) : option (list Part) :=
  content candidate ≫= parts.

(** l.147-175: what the [try] block does with the reply. *)
Definition render_response (prompt : jsstring) (response : GenerateContentResponse)
    : JS unit :=
  update (with_page (set_resultContainer []));;
  match candidates response with
  | Some (candidate :: _) =>
      match content_parts candidate with
      | None => throw TypeErrorObj
      | Some ps =>
          render_parts prompt ps false
            ≫= λ foundContent : bool,
          if foundContent then mret tt
          else displayError (lit "El modelo no devolvió ningún contenido.")
      end
  | _ =>
      displayError (lit "No hubo respuesta del modelo. Por favor, inténtalo de nuevo.")
  end.

(** l.134-182: [editImageWithGemini] from the settlement of the
    [generateContent] promise to its end. *)
Definition editImageWithGemini_resume (prompt : jsstring)
    (r : JsError + GenerateContentResponse) : JS (option Task) :=
  try_catch_finally
    (response ← settled r;
     render_response prompt response;;
     mret None)
    (λ error,
       console_error (lit "Error calling Gemini API for image editing:") error;;
       displayError (lit "Ocurrió un error en la edición. Por favor, revisa la consola."))
    (setLoading false None).

(** l.187-193 *)
Definition loadingMessages : list jsstring :=
  [ lit "Iniciando la generación de video...";
    lit "El modelo está imaginando tu escena...";
    lit "Renderizando los fotogramas (esto puede tardar unos minutos)...";
    lit "Aplicando los toques finales...";
    lit "Casi listo, ¡la espera valdrá la pena!" ].

(** [loaderText.textContent = t] on the element [document.getElementById(id)]
    finds, if it finds one. *)
Fixpoint set_textContent_by_id (id t : jsstring) (els : list Element)
    : list Element :=
  match els with
  | [] => []
  | PEl id' className old :: rest =>
      if decide (id' = id) then PEl id' className t :: rest
      else PEl id' className old :: set_textContent_by_id id t rest
  | e :: rest => e :: set_textContent_by_id id t rest
  end.

(** l.196-202: one firing of the rotation callback of timer [id]. *)
Definition interval_callback (id : positive) (messageIndex : nat) : JS unit :=
  let messageIndex := (messageIndex + 1) `mod` length loadingMessages in
  update (with_host (λ h, set_timers (<[id := messageIndex]> (timers h)) h));;
  update (with_page (λ p,
    set_resultContainer
      (set_textContent_by_id (lit "loader-text")
         (default [] (loadingMessages !! messageIndex)) (resultContainer p)) p)).

(** l.186-211: [generateVideoWithGemini] up to its first [await]: the busy
    indicator is started with the first message, the rotation timer is
    started and its handle stored, and the job-creation call is issued. *)
Definition generateVideoWithGemini (prompt base64Data mimeType : jsstring)
    : JS (option Task) :=
  setLoading true (loadingMessages !! 0);;
  id ← setInterval 0;
  update (with_vars (set_loadingInterval (Some id)));;
  emit (GenerateVideos (lit "veo-2.0-generate-001") prompt base64Data mimeType 1);;
  mret (Some VideoAwaitGenerateVideos).

(** The [catch] and [finally] blocks of [generateVideoWithGemini]
    (l.241-246) around a segment of its [try] block. *)
Definition video_try (body : JS (option Task)) : JS (option Task) :=
  try_catch_finally body
    (λ error,
       console_error (lit "Error calling Gemini API for video generation:") error;;
       displayError (lit "Ocurrió un error en la generación del video. Por favor, revisa la consola."))
    (setLoading false None).

(** l.218: [operation.response?.generatedVideos?.[0]?.video?.uri] *)
Definition downloadLink (operation : Operation) : option jsstring :=
  r ← response operation; vs ← generatedVideos r;
  v ← vs !! 0; f ← video v; uri f.

(** l.213-239 entered with the current job handle: the test of the [while]
    loop, and what follows the loop up to the [await fetch]. *)
Definition video_poll (operation : Operation) : JS (option Task) :=
  if negb (done operation) then
    emit (SetTimeout 10000);;
    mret (Some (VideoAwaitTimeout operation))
  else
    if truthy (downloadLink operation) then
      key ← get (API_KEY ∘ host);
      emit (Fetch (default [] (downloadLink operation) ++ lit "&key=" ++ key));;
      mret (Some VideoAwaitFetch)
    else
      displayError (lit "No se pudo generar el video. Inténtalo de nuevo.");;
      mret None.

(** l.223-235 *)
Definition video_show (videoBlob : Blob) : JS (option Task) :=
  emit (CreateObjectURL videoBlob);;
  let videoBlobUrl := blob_url videoBlob in
  update (with_page (set_resultContainer []));;
  appendChild (VideoEl videoBlobUrl true true true true);;
  update (with_vars (set_resultUrl (Some videoBlobUrl)));;
  update (with_page (set_downloadButton_hidden false));;
  mret None.

(** l.91-110 *)
Definition actionButton_click : JS (option Task) :=
  base64 ← get (imageBase64 ∘ vars);
  mime ← get (imageMimeType ∘ vars);
  if negb (truthy base64) || negb (truthy mime) then
    alert (lit "Por favor, sube una imagen primero.");;
    mret None
  else
    prompt ← get (promptInput_value ∘ page);
    if negb (truthy (Some (trim prompt))) then
      alert (lit "Por favor, ingresa una instrucción.");;
      mret None
    else
      update (with_page (set_resultPlaceholder_hidden true));;
      mode ← get (currentMode ∘ vars);
      match mode with
      | ModeEdit => editImageWithGemini prompt (default [] base64) (default [] mime)
      | ModeVideo => generateVideoWithGemini prompt (default [] base64) (default [] mime)
      end.

(** l.113-125 *)
Definition downloadButton_click : JS unit :=
  url ← get (resultUrl ∘ vars);
  if negb (truthy url) then
    alert (lit "No hay resultado para descargar.")
  else
    mode ← get (currentMode ∘ vars);
    emit (AnchorClick (default [] url)
            match mode with
            | ModeEdit => lit "imagen-editada.png"
            | ModeVideo => lit "video-generado.mp4"
            end).

(** ** The event loop *)

(** What an awaited promise (or the pending file read) settles to. *)
Inductive Settled :=
| Loaded (result : jsstring)                      (* the reader's [load] event *)
| ContentResolved (response : GenerateContentResponse)
| OperationResolved (operation : Operation)
| TimerFired
| FetchResolved
| BlobResolved (videoBlob : Blob)
| Rejected (error : JsError).

(** The segment that runs when task [t] is resumed with [r]; [None] when
    [r] is not something the promise [t] waits for can settle to.  A failed
    read raises the reader's [error] event, for which the script installs no
    listener. *)
Definition resume (t : Task) (r : Settled) : option (JS (option Task)) :=
  match t, r with
  | ReaderOnload, Loaded result => Some (reader_onload result;; mret None)
  | ReaderOnload, Rejected _ => Some (mret None)
  | EditAwaitGenerateContent prompt, ContentResolved response =>
      Some (editImageWithGemini_resume prompt (inr response))
  | EditAwaitGenerateContent prompt, Rejected error =>
      Some (editImageWithGemini_resume prompt (inl error))
  | VideoAwaitGenerateVideos, OperationResolved operation
  | VideoAwaitGetVideosOperation, OperationResolved operation =>
      Some (video_try (video_poll operation))
  | VideoAwaitTimeout operation, TimerFired =>
      Some (video_try (emit (GetVideosOperation operation);;
                       mret (Some VideoAwaitGetVideosOperation)))
  | VideoAwaitFetch, FetchResolved =>
      Some (video_try (emit ResponseBlob;; mret (Some VideoAwaitBlob)))
  | VideoAwaitBlob, BlobResolved videoBlob =>
      Some (video_try (video_show videoBlob))
  | (VideoAwaitGenerateVideos | VideoAwaitGetVideosOperation
     | VideoAwaitFetch | VideoAwaitBlob), Rejected error =>
      Some (video_try (throw error))
  | _, _ => None
  end.

(** What can happen next: the user acts on a control, a running interval
    timer fires, or a pending task is resumed. *)
Inductive Event :=
| ModeEditChange (checked : bool)
| ModeVideoChange (checked : bool)
| PromptExamplesChange (selectedValue : jsstring)
| PromptInput (value : jsstring)                 (* typing into the text area *)
| ImageUploadChange (file : option File)
| ActionClick
| DownloadClick
| IntervalTick (id : positive)
| Settle (i : nat) (r : Settled).

(** Run one job of the event loop to completion: a task it leaves suspended
    joins the pending ones, an exception nobody caught is reported by the
    browser. *)
Definition run_job (job : JS (option Task)) (s : App) : App :=
  match job s with
  | (Normal (Some t), s') => with_host (λ h, set_pending (pending h ++ [t]) h) s'
  | (Normal None, s') => s'
  | (Throw e, s') => with_host (λ h, set_trace (trace h ++ [Uncaught e]) h) s'
  end.

(** Task [i] leaves the pending ones (to be resumed). *)
Definition dequeue (i : nat) : App → App :=
  with_host (λ h, set_pending (delete i (pending h)) h).

(** One turn of the event loop; [None] when the event cannot happen in [s]
    (a disabled button does not click, a cleared timer does not fire, only a
    pending task is resumed). *)
Definition step (ev : Event) (s : App) : option App :=
  match ev with
  | ModeEditChange checked =>
      Some (run_job (modeEditRadio_change checked;; mret None) s)
  | ModeVideoChange checked =>
      Some (run_job (modeVideoRadio_change checked;; mret None) s)
  | PromptExamplesChange selectedValue =>
      Some (run_job (promptExamples_change selectedValue;; mret None) s)
  | PromptInput value => Some (with_page (set_promptInput_value value) s)
  | ImageUploadChange file => Some (run_job (imageUpload_change file) s)
  | ActionClick =>
      if actionButton_disabled (page s) then None
      else Some (run_job actionButton_click s)
  | DownloadClick => Some (run_job (downloadButton_click;; mret None) s)
  | IntervalTick id =>
      messageIndex ← timers (host s) !! id;
      Some (run_job (interval_callback id messageIndex;; mret None) s)
  | Settle i r =>
      t ← pending (host s) !! i;
      job ← resume t r;
      Some (run_job job (dequeue i s))
  end.

Fixpoint run (evs : list Event) (s : App) : option App :=
  match evs with
  | [] => Some s
  | ev :: evs' => step ev s ≫= run evs'
  end.

(** l.31 *)
Definition initial_prompt : jsstring :=
  lit "modifica la imagen y dale un aspecto profesional, donde los colores destaquen y resalten lo mejor de la fotografia".

(** Modelled from the spec: the page markup (index.html) is not part of the
    sources.  The page as the script finds it when it starts: nothing
    uploaded, nothing rendered, the busy indicator and the download
    affordance hidden, the action trigger disabled until an image is
    uploaded, the edit mode selected; the variables are initialised as in
    l.10-14 and the prompt as in l.31.  [key] is [process.env.API_KEY]. *)
Definition page_loaded (key : jsstring) : App :=
  mkApp
    (mkVars None None None ModeEdit None)
    (mkPage [] [] false initial_prompt
       (lit "Editar Imagen") true (lit "Descargar Imagen") true [] false true)
    (mkHost ∅ 1 [] key []).

(** * Vocabulary of the statements *)

(** ** Strings *)

(** A text that is empty or made of white space only. *)
Definition blank_text (s : jsstring) : Prop := Forall (λ c, is_white_space c = true) s.

(** ** Media Encoder and presenters *)

(** How often the code unit [c] occurs in [s]. *)
Definition occurrences (c : jschar) (s : jsstring) : nat :=
  length (filter (λ x, x = c) s).

(** What [reader_onload] leaves behind when it accepts [result]. *)
Definition uploaded (result : jsstring) (mime payload : option jsstring) (s : App) : App :=
  with_page (set_actionButton_disabled false)
    (with_page (set_uploadPlaceholder_hidden true)
       (with_page (set_originalImage result (lit "block"))
          (with_vars (set_imageMimeType mime)
             (with_vars (set_imageBase64 payload) s)))).

(** The state a computation leaves behind. *)
Definition exec {A} (m : JS A) (s : App) : App := (m s).2.
Arguments exec {A} m s : simpl never.

(** [clearInterval(loadingInterval)] when a handle is stored. *)
Definition cleared (s : App) : gmap positive nat :=
  match loadingInterval (vars s) with
  | Some id => delete id (timers (host s))
  | None => timers (host s)
  end.

(** ** Result Renderer *)

(** A part the loop of l.151-169 renders: it carries inline data, or a
    non-empty text. *)
Definition renderable (p : Part) : bool :=
  match inlineData p with
  | Some _ => true
  | None => truthy (text p)
  end.

(** [`data:${mimeType};base64,${data}`] *)
Definition data_url (inline : InlineData) : jsstring :=
  lit "data:" ++ mimeType inline ++ lit ";base64," ++ data inline.

(** The element a part is rendered as, if any. *)
Definition part_element (prompt : jsstring) (p : Part) : list Element :=
  match inlineData p with
  | Some inline => [ImgEl (data_url inline) prompt]
  | None =>
      if truthy (text p) then [PEl [] (lit "model-text") (default [] (text p))]
      else []
  end.

(** What rendering the parts [ps] does to the state: the frame, the
    elements, the download target and the download affordance. *)
Definition renders (prompt : jsstring) (ps : list Part) (s s' : App) : Prop :=
  host s' = host s
  ∧ loadingInterval (vars s') = loadingInterval (vars s)
  ∧ resultContainer (page s')
    = resultContainer (page s) ++ ps ≫= part_element prompt
  ∧ resultUrl (vars s')
    = from_option (Some ∘ data_url) (resultUrl (vars s)) (last (omap inlineData ps))
  ∧ downloadButton_hidden (page s')
    = if omap inlineData ps is [] then downloadButton_hidden (page s) else false.

(** The message shown for a reply without usable content. *)
Definition empty_message (response : GenerateContentResponse) : jsstring :=
  match candidates response with
  | Some (_ :: _) => lit "El modelo no devolvió ningún contenido."
  | _ => lit "No hubo respuesta del modelo. Por favor, inténtalo de nuevo."
  end.

(** The parts the script looks at: those of the first candidate. *)
Definition first_parts (response : GenerateContentResponse) : list Part :=
  match candidates response with
  | Some (candidate :: _) => default [] (content_parts candidate)
  | _ => []
  end.

(** The reply has a first candidate whose parts are missing: the loop
    header of l.151 throws. *)
Definition parts_missing (response : GenerateContentResponse) : bool :=
  match candidates response with
  | Some (candidate :: _) => if content_parts candidate is None then true else false
  | _ => false
  end.

(** ** Frames and invariants *)

(** [keeps R m]: whatever [m] does, the state it leaves is [R]-related to
    the one it started from. For a preorder [R] this is closed under the
    constructs of the monad. *)
Definition keeps (R : relation App) {A} (m : JS A) : Prop :=
  ∀ s, R s (exec m s).

(** The pending tasks are left alone: so it is for every listener and every
    segment, only the event loop queues and dequeues tasks. *)
Definition same_pending : relation App :=
  λ s s', pending (host s') = pending (host s).

(** The running timers and the stored handle are left alone. *)
Definition same_timers : relation App :=
  λ s s', timers (host s') = timers (host s)
          ∧ loadingInterval (vars s') = loadingInterval (vars s).

(** The cycle started from [s0] is suspended at [task] in [s], having
    produced [effects] so far; its rotation timer is running. *)
Definition in_flight (s0 : App) (task : Task) (effects : list Effect) (s : App)
    : Prop :=
  pending (host s) = pending (host s0) ++ [task]
  ∧ trace (host s) = trace (host s0) ++ effects
  ∧ API_KEY (host s) = API_KEY (host s0)
  ∧ is_Some (timers (host s) !! next_timer (host s0)).

(** [n] firings of the rotation timer of the cycle started from [s0]. *)
Definition ticks (s0 : App) (n : nat) : list Event :=
  replicate n (IntervalTick (next_timer (host s0))).

(** Every interval timer that is running is the one whose handle the
    script has stored in [loadingInterval]. *)
Definition one_timer (s : App) : Prop :=
  ∀ id k, timers (host s) !! id = Some k → loadingInterval (vars s) = Some id.

(** The download affordance and the download target are left alone. *)
Definition same_result : relation App :=
  λ s s', downloadButton_hidden (page s') = downloadButton_hidden (page s)
          ∧ resultUrl (vars s') = resultUrl (vars s).

(** A visible download affordance has something to download. *)
Definition target_when_visible (s : App) : Prop :=
  downloadButton_hidden (page s) = false → is_Some (resultUrl (vars s)).

(** [target_when_visible] is not lost from [s] to [s']. *)
Definition still_target_when_visible : relation App :=
  λ s s', target_when_visible s → target_when_visible s'.

(** The suspended orchestration cycles (as opposed to pending file reads). *)
Definition is_cycle (t : Task) : bool :=
  match t with
  | ReaderOnload => false
  | _ => true
  end.

(** The cycles in flight in [s]. *)
Definition cycles (s : App) : list Task := filter is_cycle (pending (host s)).

(** The discipline the disabled action trigger is meant to enforce: no
    click while a cycle is in flight. *)
Definition permitted (ev : Event) (s : App) : bool :=
  match ev with
  | ActionClick => if cycles s is [] then true else false
  | _ => true
  end.

(** A run in which every event is permitted when it happens. *)
Fixpoint run_serialized (evs : list Event) (s : App) : option App :=
  match evs with
  | [] => Some s
  | ev :: evs' =>
      if permitted ev s then step ev s ≫= run_serialized evs' else None
  end.

(** The download affordance is visible exactly when a target is set. *)
Definition consistent (s : App) : Prop :=
  downloadButton_hidden (page s) = false ↔ is_Some (resultUrl (vars s)).

(** Nothing to download: affordance hidden, no target. *)
Definition blank (s : App) : Prop :=
  downloadButton_hidden (page s) = true ∧ resultUrl (vars s) = None.

(** The invariant of serialized runs: at most one cycle is in flight, and
    while it is, there is nothing to download. *)
Definition serialized (s : App) : Prop :=
  consistent s
  ∧ match cycles s with
    | [] => True
    | [_] => blank s
    | _ => False
    end.

(** What a segment of a cycle may do when it starts with nothing to
    download: suspend again with still nothing to download, finish with the
    affordance and the target in agreement, or throw without having
    touched either. *)
Definition segment_ok (body : JS (option Task)) : Prop :=
  ∀ s, blank s →
       match body s with
       | (Normal (Some t), s') => is_cycle t = true ∧ blank s'
       | (Normal None, s') => consistent s'
       | (Throw _, s') => blank s'
       end.

(** ** Requests *)

(** A generation request that carries media bytes, a MIME type and an
    instruction with something other than white space in it; every other
    effect counts as well formed. *)
Definition well_formed_request (e : Effect) : bool :=
  match e with
  | GenerateContent _ data mimeType prompt
  | GenerateVideos _ prompt data mimeType _ =>
      truthy (Some data) && truthy (Some mimeType) && truthy (Some (trim prompt))
  | _ => true
  end.

(** Every request issued so far is well formed. *)
Definition requests_well_formed (s : App) : Prop :=
  forallb well_formed_request (trace (host s)) = true.

(** [requests_well_formed] is not lost from [s] to [s']. *)
Definition still_well_formed : relation App :=
  λ s s', requests_well_formed s → requests_well_formed s'.

(** The log of effects is left alone. *)
Definition same_trace : relation App :=
  λ s s', trace (host s') = trace (host s).

(** The events by which the user edits the form without starting anything:
    switching mode, picking an example, typing into the prompt. *)
Definition edits_form (ev : Event) : bool :=
  match ev with
  | ModeEditChange _ | ModeVideoChange _ | PromptExamplesChange _ | PromptInput _ => true
  | _ => false
  end.

(** A video job polled once per handle of [ops]: each handle arrives, the
    10-second wait elapses. *)
Definition poll_events (i : nat) (ops : list Operation) : list Event :=
  ops ≫= λ operation, [Settle i (OperationResolved operation); Settle i TimerFired].

(** The waits and re-queries this produces. *)
Definition poll_effects (ops : list Operation) : list Effect :=
  ops ≫= λ operation, [SetTimeout 10000; GetVideosOperation operation].

(** ** The rotating message and the busy indicator *)

(** The busy indicator with the rotating message at index [k]. *)
Definition loader_with_message (k : nat) : list Element :=
  [LoaderEl; PEl (lit "loader-text") [] (default [] (loadingMessages !! k))].

(** The running timers, the stored handle, the result area and the busy
    indicator are left alone. *)
Definition same_rotation : relation App :=
  λ s s', timers (host s') = timers (host s)
          ∧ loadingInterval (vars s') = loadingInterval (vars s)
          ∧ resultContainer (page s') = resultContainer (page s)
          ∧ loader_hidden (page s') = loader_hidden (page s).

(** A running rotation timer is the stored one, and the result area shows
    the busy indicator with the message the timer's callback has reached. *)
Definition rotation_shown (s : App) : Prop :=
  ∀ id k, timers (host s) !! id = Some k →
          loadingInterval (vars s) = Some id
          ∧ k < length loadingMessages
          ∧ resultContainer (page s) = loader_with_message k
          ∧ loader_hidden (page s) = false.

(** The busy indicator and the action trigger are left alone. *)
Definition same_busy : relation App :=
  λ s s', loader_hidden (page s') = loader_hidden (page s)
          ∧ actionButton_disabled (page s') = actionButton_disabled (page s).

(** A segment that, when it suspends again, suspends as a cycle and has
    touched neither the timers nor the stored handle nor the page. *)
Definition suspends_quietly (body : JS (option Task)) : Prop :=
  ∀ s, match body s with
       | (Normal (Some t), s1) =>
           is_cycle t = true ∧ same_rotation s s1 ∧ page s1 = page s
       | _ => True
       end.

(** The busy indicator shows only while a cycle is in flight ... *)
Definition busy_only_in_flight (s : App) : Prop :=
  loader_hidden (page s) = false → cycles s ≠ [].

(** ... and, in serialized runs, for as long as one is. *)
Definition busy_while_in_flight (s : App) : Prop :=
  cycles s ≠ [] → loader_hidden (page s) = false.

(** An event that leaves the disabled action trigger alone: no file read
    completes while a cycle is in flight (l.81 would enable the trigger). *)
Definition calm (ev : Event) (s : App) : bool :=
  match ev with
  | Settle _ (Loaded _) => if cycles s is [] then true else false
  | _ => true
  end.

(** A run in which every event is calm when it happens. *)
Fixpoint run_calm (evs : list Event) (s : App) : option App :=
  match evs with
  | [] => Some s
  | ev :: evs' =>
      if calm ev s then step ev s ≫= run_calm evs' else None
  end.

(** At most one cycle is in flight, and while it is, the action trigger
    is disabled. *)
Definition guarded_by_trigger (s : App) : Prop :=
  match cycles s with
  | [] => True
  | [_] => actionButton_disabled (page s) = true
  | _ => False
  end.

(** ** Labels *)

(** The labels of the action trigger and of the download affordance in
    each mode (l.37-38, l.45-46), and the file name a download gets
    (l.121). *)
Definition action_label (m : Mode) : jsstring :=
  match m with
  | ModeEdit => lit "Editar Imagen"
  | ModeVideo => lit "Crear Video"
  end.

Definition download_label (m : Mode) : jsstring :=
  match m with
  | ModeEdit => lit "Descargar Imagen"
  | ModeVideo => lit "Descargar Video"
  end.

Definition download_name (m : Mode) : jsstring :=
  match m with
  | ModeEdit => lit "imagen-editada.png"
  | ModeVideo => lit "video-generado.mp4"
  end.

(** The two labels are those of the current mode. *)
Definition labels_agree (s : App) : Prop :=
  actionButton_textContent (page s) = action_label (currentMode (vars s))
  ∧ downloadButton_textContent (page s) = download_label (currentMode (vars s)).

(** The mode and the two labels are left alone. *)
Definition same_labels : relation App :=
  λ s s', currentMode (vars s') = currentMode (vars s)
          ∧ actionButton_textContent (page s') = actionButton_textContent (page s)
          ∧ downloadButton_textContent (page s') = downloadButton_textContent (page s).

(** ** Sample runs *)

(** Concrete states and replies on which the statements below are
    exercised: the page has just loaded ([fresh]), a file is picked
    ([reading]), its data URL arrives ([ready]), and the action trigger is
    clicked in edit mode ([editing]) or in video mode ([filming]). *)
Definition sample_file : File := {| file_name := lit "foto.png" |}.

(** The state after the events [evs] ([s] itself if they cannot happen). *)
Definition after (evs : list Event) (s : App) : App := default s (run evs s).

Definition fresh : App := page_loaded (lit "KEY").
Definition reading : App := after [ImageUploadChange (Some sample_file)] fresh.
Definition ready : App :=
  after [Settle 0 (Loaded (lit "data:image/png;base64,AAAA"))] reading.
Definition editing : App := after [ActionClick] ready.
Definition filming : App := after [ModeVideoChange true; ActionClick] ready.

(** An image is uploaded, and the prompt is replaced by blanks. *)
Definition wordless : App := after [PromptInput (lit "   ")] ready.

(** A reply without candidates. *)
Definition no_candidates : GenerateContentResponse := {| candidates := None |}.

(** A reply whose only candidate has one part, an empty text. *)
Definition hollow_part : Part := {| inlineData := None; text := Some [] |}.
Definition hollow : GenerateContentResponse :=
  {| candidates := Some [ {| content := Some {| parts := Some [hollow_part] |} |} ] |}.

(** A reply whose only candidate was blocked: it comes without content. *)
Definition blocked : GenerateContentResponse :=
  {| candidates := Some [ {| content := None |} ] |}.

(** A reply with a caption followed by two images. *)
Definition caption : Part :=
  {| inlineData := None; text := Some (lit "Listo") |}.
Definition first_image : InlineData :=
  {| data := lit "AAAA"; mimeType := lit "image/png" |}.
Definition second_image : InlineData :=
  {| data := lit "BBBB"; mimeType := lit "image/jpeg" |}.
Definition image_part (inline : InlineData) : Part :=
  {| inlineData := Some inline; text := None |}.
Definition three_parts : Candidate :=
  {| content :=
       Some {| parts := Some [caption; image_part first_image; image_part second_image] |} |}.
Definition illustrated : GenerateContentResponse :=
  {| candidates := Some [three_parts] |}.

(** A failed call. *)
Definition unavailable : Settled := Rejected (Reason (lit "503 Service Unavailable")).

(** A sample video job: two handles that are not done, then one that is
    done and carries a link. *)
Definition video_ready : App := after [ModeVideoChange true] ready.
Definition job_running : Operation :=
  {| name := lit "operations/1"; done := false; response := None |}.
Definition sample_link : jsstring := lit "https://example.com/v?alt=media".
Definition job_done : Operation :=
  {| name := lit "operations/1"; done := true;
     response :=
       Some {| generatedVideos :=
                 Some [ {| video := Some {| uri := Some sample_link |} |} ] |} |}.
Definition fetched : Blob := {| blob_url := lit "blob:1234" |}.

(** A reply with a single image. *)
Definition one_image : GenerateContentResponse :=
  {| candidates :=
       Some [ {| content := Some {| parts := Some [image_part first_image] |} |} ] |}.

(** A reply with a caption only. *)
Definition caption_only : GenerateContentResponse :=
  {| candidates := Some [ {| content := Some {| parts := Some [caption] |} |} ] |}.

(** A second upload while an edit is in flight re-enables the action
    trigger (l.81), so a second cycle can be started before the first has
    ended. *)
Definition second_cycle : list Event :=
  [ ImageUploadChange (Some sample_file);
    Settle 1 (Loaded (lit "data:image/png;base64,AAAA"));
    ActionClick ].

(** A video job that is done but carries no video. *)
Definition job_without_video : Operation :=
  {| name := lit "operations/1"; done := true;
     response := Some {| generatedVideos := Some [] |} |}.

(** The upload, the switch to video mode and the click that lead from the
    freshly loaded page to [filming]. *)
Definition to_filming : list Event :=
  [ ImageUploadChange (Some sample_file);
    Settle 0 (Loaded (lit "data:image/png;base64,AAAA"));
    ModeVideoChange true; ActionClick ].

(** An edit that is answered with one image. *)
Definition to_edited : list Event :=
  [ ImageUploadChange (Some sample_file);
    Settle 0 (Loaded (lit "data:image/png;base64,AAAA"));
    ActionClick;
    Settle 0 (ContentResolved one_image) ].

Definition edited : App := after to_edited fresh.

(** While the edit is in flight the user retypes the prompt and switches
    mode. *)
Definition second_thoughts : list Event :=
  [ PromptInput (lit "hazla en blanco y negro"); ModeVideoChange true ].

(** * Properties *)

Opaque lit.

(** ** Running the monad *)

Lemma bind_run {A B} (m : JS A) (k : A → JS B) s :
  (m ≫= k) s = match m s with
               | (Normal a, s') => k a s'
               | (Throw e, s') => (Throw e, s')
               end.
Proof. reflexivity. Qed.

(** A listener that returns normally leaves its final state ... *)
Lemma run_job_returns (m : JS unit) s s' :
  m s = (Normal tt, s') → run_job (m;; mret None) s = s'.
Proof. intros H. unfold run_job. by rewrite bind_run, H. Qed.

(** ... and one that throws has its exception reported by the browser. *)
Lemma run_job_throws (m : JS unit) s s' e :
  m s = (Throw e, s') →
  run_job (m;; mret None) s
  = with_host (λ h, set_trace (trace h ++ [Uncaught e]) h) s'.
Proof. intros H. unfold run_job. by rewrite bind_run, H. Qed.

(** ** Trimming *)

Example trim_prompt : trim (lit "  hazla más nítida ") = lit "hazla más nítida".
Proof. by vm_compute. Qed.

Example trim_unicode_space : trim [160; 9; 8232; 12288]%N = [].
Proof. by vm_compute. Qed.

Lemma trimStart_blank s : blank_text s → trimStart s = [].
Proof. induction 1 as [|c s Hc _ IH]; [done|]. cbn. by rewrite Hc. Qed.

Lemma trimStart_nil_blank s : trimStart s = [] → blank_text s.
Proof.
  induction s as [|c s IH]; [constructor|]. cbn [trimStart].
  destruct (is_white_space c) eqn:Hc; [|done]. intros H. constructor; [done|by apply IH].
Qed.

(** What [trimStart] leaves does not start with white space. *)
Lemma trimStart_blank_nil s : blank_text (trimStart s) → trimStart s = [].
Proof.
  induction s as [|c s IH]; [done|]. cbn [trimStart].
  destruct (is_white_space c) eqn:Hc; [done|].
  intros H. apply Forall_cons_1 in H as [H _]. congruence.
Qed.

Lemma blank_text_rev s : blank_text (rev s) ↔ blank_text s.
Proof.
  unfold blank_text. split; intros H; apply Forall_rev in H; [|done].
  by rewrite rev_involutive in H.
Qed.

(** [prompt.trim()] is empty exactly for a prompt that is empty or made of
    white space only. *)
Lemma trim_nil_iff s : trim s = [] ↔ blank_text s.
Proof.
  unfold trim, trimEnd. split.
  - intros H. apply (f_equal (@rev N)) in H. rewrite rev_involutive in H. cbn in H.
    apply trimStart_nil_blank in H. apply (proj1 (blank_text_rev _)) in H.
    apply trimStart_nil_blank, trimStart_blank_nil, H.
  - intros H. by rewrite (trimStart_blank s H).
Qed.

(** ** Splitting *)

Example split_data_url :
  split COMMA (lit "data:image/png;base64,AAAA")
  = [lit "data:image/png;base64"; lit "AAAA"].
Proof. by vm_compute. Qed.

Example split_empty : split COMMA [] = [[]].
Proof. reflexivity. Qed.

Example split_trailing : split COMMA (lit "a,") = [lit "a"; []].
Proof. by vm_compute. Qed.

Lemma split_nonempty sep s : split sep s ≠ [].
Proof.
  destruct s as [|c r]; simpl; [done|].
  destruct (c =? sep)%N; [done|]. by destruct (split sep r).
Qed.

Lemma length_split sep s : length (split sep s) = S (occurrences sep s).
Proof.
  unfold occurrences. induction s as [|c r IH]; [done|]. simpl.
  destruct (N.eqb_spec c sep) as [->|Hne].
  - rewrite filter_cons_True by done. simpl. by rewrite IH.
  - rewrite filter_cons_False by done.
    destruct (split sep r) eqn:E; [by destruct (split_nonempty sep r)|done].
Qed.

Lemma split_absent sep s : sep ∉ s → split sep s = [s].
Proof.
  induction s as [|c r IH]; [done|]. intros [Hc Hr]%not_elem_of_cons. simpl.
  destruct (N.eqb_spec c sep); [congruence|]. by rewrite IH.
Qed.

(** The first piece ends at the first separator. *)
Lemma split_app sep a b : sep ∉ a → split sep (a ++ sep :: b) = a :: split sep b.
Proof.
  induction a as [|c r IH]; simpl.
  - intros _. by rewrite N.eqb_refl.
  - intros [Hc Hr]%not_elem_of_cons.
    destruct (N.eqb_spec c sep); [congruence|]. by rewrite IH.
Qed.

(** A prefix without separator only lengthens the first piece. *)
Lemma split_prefix sep a b :
  sep ∉ a →
  ∃ piece pieces, split sep b = piece :: pieces
                  ∧ split sep (a ++ b) = (a ++ piece) :: pieces.
Proof.
  intros Ha. destruct (split sep b) as [|piece pieces] eqn:Eb.
  { by destruct (split_nonempty sep b). }
  exists piece, pieces. split; [done|].
  induction a as [|c r IH]; simpl; [done|].
  apply not_elem_of_cons in Ha as [Hc Hr].
  destruct (N.eqb_spec c sep); [congruence|]. by rewrite IH.
Qed.

Lemma occurrences_app c a b : occurrences c (a ++ b) = occurrences c a + occurrences c b.
Proof. unfold occurrences. by rewrite filter_app, length_app. Qed.

Lemma occurrences_absent c s : c ∉ s → occurrences c s = 0.
Proof.
  unfold occurrences. induction s as [|x r IH]; [done|].
  intros [Hx Hr]%not_elem_of_cons. rewrite filter_cons_False by done. auto.
Qed.

(** ** Media Encoder *)

(** A data URL whose comma count is not one is refused before anything is
    stored. *)
Lemma reader_onload_refuses result s :
  occurrences COMMA result ≠ 1 →
  reader_onload result s = (Throw (ErrorObj (lit "Invalid data URL format")), s).
Proof.
  intros H. unfold reader_onload. rewrite length_split.
  destruct (decide (S (occurrences COMMA result) ≠ 2)); [done|lia].
Qed.

Lemma reader_onload_accepts pre mime rest payload s :
  COLON ∉ pre → COMMA ∉ pre →
  COLON ∉ mime → SEMICOLON ∉ mime → COMMA ∉ mime →
  COMMA ∉ rest → COMMA ∉ payload →
  let result := pre ++ COLON :: mime ++ SEMICOLON :: rest ++ COMMA :: payload in
  reader_onload result s = (Normal tt, uploaded result (Some mime) (Some payload) s).
Proof.
  intros Hp1 Hp2 Hm1 Hm2 Hm3 Hr Hd result.
  set (header := pre ++ COLON :: mime ++ SEMICOLON :: rest).
  assert (Hheader : COMMA ∉ header).
  { subst header. rewrite not_elem_of_app, not_elem_of_cons, not_elem_of_app,
      not_elem_of_cons. by repeat split. }
  assert (Hsplit : split COMMA result = [header; payload]).
  { replace result with (header ++ COMMA :: payload).
    - by rewrite split_app, split_absent.
    - subst result header. rewrite <- !app_assoc. simpl. by rewrite <- !app_assoc. }
  unfold reader_onload. rewrite Hsplit. simpl.
  subst header. rewrite split_app by done.
  destruct (split_prefix COLON mime (SEMICOLON :: rest) Hm1)
    as (piece & pieces & Hrest & ->).
  simpl in Hrest. destruct (split COLON rest) as [|p ps]; simplify_eq.
  - simpl. rewrite split_app by done. done.
  - simpl. rewrite split_app by done. done.
Qed.

Lemma step_settle s i t r job :
  pending (host s) !! i = Some t → resume t r = Some job →
  step (Settle i r) s = Some (run_job job (dequeue i s)).
Proof. intros Ht Hr. unfold step. rewrite Ht. simpl. by rewrite Hr. Qed.

(** C2: for every well-formed data URL [pre:mime;rest,payload] delivered by
    a pending read, the stored MIME type is the text between the colon and
    the semicolon of the header and the stored data is the text after the
    comma. *)
Theorem upload_stores_mime_and_data (s : App) (i : nat)
    (pre mime rest payload : jsstring) :
  pending (host s) !! i = Some ReaderOnload →
  COLON ∉ pre → COMMA ∉ pre →
  COLON ∉ mime → SEMICOLON ∉ mime → COMMA ∉ mime →
  COMMA ∉ rest → COMMA ∉ payload →
  ∃ s', step (Settle i (Loaded
               (pre ++ COLON :: mime ++ SEMICOLON :: rest ++ COMMA :: payload))) s
        = Some s'
        ∧ imageMimeType (vars s') = Some mime
        ∧ imageBase64 (vars s') = Some payload.
Proof.
  intros Hi Hp1 Hp2 Hm1 Hm2 Hm3 Hr Hd. eexists. split.
  - eapply step_settle; [exact Hi|reflexivity].
  - by rewrite (run_job_returns _ _ _
                  (reader_onload_accepts pre mime rest payload (dequeue i s)
                     Hp1 Hp2 Hm1 Hm2 Hm3 Hr Hd)).
Qed.

Lemma upload_stores_mime_and_data_witness :
  pending (host reading) !! 0 = Some ReaderOnload
  ∧ ∃ s', step (Settle 0 (Loaded (lit "data:image/png;base64,AAAA")))
            reading = Some s'
          ∧ imageMimeType (vars s') = Some (lit "image/png")
          ∧ imageBase64 (vars s') = Some (lit "AAAA").
Proof.
  split; [reflexivity|].
  apply (upload_stores_mime_and_data reading 0
           (lit "data") (lit "image/png") (lit "base64") (lit "AAAA"));
    [reflexivity|compute_done..].
Defined.

(** C10: a data URL whose number of commas is not exactly one (in
    particular one with two or more commas) is refused when its read
    completes: the callback throws, and neither the stored media nor the
    page changes; only data URLs with exactly one comma are accepted. *)
Theorem only_one_comma_accepted (s : App) (i : nat) (result : jsstring) :
  pending (host s) !! i = Some ReaderOnload →
  occurrences COMMA result ≠ 1 →
  ∃ s', step (Settle i (Loaded result)) s = Some s'
        ∧ vars s' = vars s ∧ page s' = page s
        ∧ trace (host s')
          = trace (host s) ++ [Uncaught (ErrorObj (lit "Invalid data URL format"))].
Proof.
  intros Hi Hn. eexists. split.
  - eapply step_settle; [exact Hi|reflexivity].
  - by rewrite (run_job_throws _ _ _ _
                  (reader_onload_refuses result (dequeue i s) Hn)).
Qed.

Lemma only_one_comma_accepted_witness :
  pending (host reading) !! 0 = Some ReaderOnload
  ∧ occurrences COMMA (lit "data:image/png;base64,AAAA,BBBB") ≠ 1
  ∧ ∃ s', step (Settle 0 (Loaded (lit "data:image/png;base64,AAAA,BBBB")))
            reading = Some s'
          ∧ vars s' = vars reading
          ∧ page s' = page reading
          ∧ trace (host s')
            = trace (host reading)
              ++ [Uncaught (ErrorObj (lit "Invalid data URL format"))].
Proof.
  split; [reflexivity|]. split; [compute_done|].
  apply (only_one_comma_accepted reading 0
           (lit "data:image/png;base64,AAAA,BBBB")); [reflexivity|compute_done].
Defined.

(** Conversely, whatever [reader_onload] accepts has exactly one comma. *)
Lemma accepted_has_one_comma result s s' :
  reader_onload result s = (Normal tt, s') → occurrences COMMA result = 1.
Proof.
  intros H. destruct (decide (occurrences COMMA result = 1)) as [|Hn]; [done|].
  by rewrite reader_onload_refuses in H.
Qed.

(** The only alert of the upload path sits in the [catch] of l.84-87, and
    nothing inside that [try] throws: all the listener emits is the read
    request, and the [onload] callback emits nothing. *)
Lemma imageUpload_change_trace file s :
  trace (host (run_job (imageUpload_change file) s))
  = trace (host s) ++ match file with
                      | Some f => [ReadAsDataURL f]
                      | None => []
                      end.
Proof. destruct file; unfold run_job; cbn; [done|by rewrite app_nil_r]. Qed.

Lemma reader_onload_trace result s :
  trace (host (reader_onload result s).2) = trace (host s).
Proof.
  unfold reader_onload. destruct (decide _); [done|].
  by destruct (_ ≫= _).
Qed.

(** C1 (at the failing input): a read that delivers a data URL without
    comma (["data:"], as some browsers produce for an empty file) makes
    [reader_onload] throw outside the listener's [try]; the stored media is
    untouched, but the error surfaces as an uncaught exception and no
    alert is shown. *)
Theorem malformed_upload_not_alerted :
  ∃ s', run [ImageUploadChange (Some sample_file);
             Settle 0 (Loaded (lit "data:"))]
          fresh = Some s'
        ∧ vars s' = vars fresh
        ∧ trace (host s')
          = [ReadAsDataURL sample_file;
             Uncaught (ErrorObj (lit "Invalid data URL format"))].
Proof. eexists. split; [reflexivity|]. by split. Qed.

(** A header without MIME type is not refused at all: the empty MIME type
    is stored. *)
Example upload_without_mime_is_stored :
  ∃ s', run [ImageUploadChange (Some sample_file);
             Settle 0 (Loaded (lit "data:;base64,AAAA"))]
          fresh = Some s'
        ∧ imageMimeType (vars s') = Some []
        ∧ imageBase64 (vars s') = Some (lit "AAAA")
        ∧ trace (host s') = [ReadAsDataURL sample_file].
Proof. eexists. split; [reflexivity|]. by repeat split. Qed.

(** ** Presenters *)

Ltac js_run :=
  repeat (progress (unfold mbind, JS_bind, mret, JS_ret, get, update, throw, emit,
                      alert, console_error, appendChild; cbn)).

Lemma setLoading_returns b m s :
  setLoading b m s = (Normal tt, exec (setLoading b m) s).
Proof.
  unfold exec, setLoading. rewrite bind_run. cbn.
  destruct (loadingInterval (vars s)), b; try destruct (truthy m); reflexivity.
Qed.

Lemma stop_loading_page m s :
  page (exec (setLoading false m) s)
  = set_actionButton_disabled false (set_loader_hidden true (page s)).
Proof. unfold exec, setLoading. rewrite bind_run. cbn. by destruct (loadingInterval (vars s)). Qed.

Lemma stop_loading_vars m s :
  vars (exec (setLoading false m) s) = set_loadingInterval None (vars s).
Proof.
  unfold exec, setLoading. rewrite bind_run. cbn.
  destruct s as [[? ? ? ? [id|]] ? ?]; reflexivity.
Qed.

Lemma stop_loading_host m s :
  host (exec (setLoading false m) s) = set_timers (cleared s) (host s).
Proof.
  unfold exec, setLoading, cleared. rewrite bind_run. cbn.
  destruct s as [[? ? ? ? [id|]] ? []]; reflexivity.
Qed.

Lemma start_loading_page m s :
  page (exec (setLoading true m) s)
  = set_actionButton_disabled true
      (set_resultContainer
         (LoaderEl :: if truthy m then [PEl (lit "loader-text") [] (default [] m)] else [])
         (set_loader_hidden false (set_downloadButton_hidden true (page s)))).
Proof.
  unfold exec, setLoading. rewrite bind_run. cbn.
  destruct (loadingInterval (vars s)), (truthy m); reflexivity.
Qed.

Lemma start_loading_vars m s :
  vars (exec (setLoading true m) s)
  = set_resultUrl None (set_loadingInterval None (vars s)).
Proof.
  unfold exec, setLoading. rewrite bind_run. cbn.
  destruct s as [[? ? ? ? [id|]] ? ?]; destruct (truthy m); reflexivity.
Qed.

Lemma start_loading_host m s :
  host (exec (setLoading true m) s) = set_timers (cleared s) (host s).
Proof.
  unfold exec, setLoading, cleared. rewrite bind_run. cbn.
  destruct s as [[? ? ? ? [id|]] ? []]; destruct (truthy m); reflexivity.
Qed.

Lemma displayError_returns message s :
  displayError message s = (Normal tt, exec (displayError message) s).
Proof. reflexivity. Qed.

Lemma displayError_page message s :
  page (exec (displayError message) s)
  = set_downloadButton_hidden true
      (set_resultContainer [PEl [] (lit "error") message] (page s)).
Proof. reflexivity. Qed.

Lemma displayError_vars message s : vars (exec (displayError message) s) = vars s.
Proof. reflexivity. Qed.

Lemma displayError_host message s : host (exec (displayError message) s) = host s.
Proof. reflexivity. Qed.

Lemma finally_runs body handler s :
  match try_catch_finally body handler (setLoading false None) s with
  | (Normal (Some _), _) => True
  | (_, s') => loader_hidden (page s') = true
               ∧ actionButton_disabled (page s') = false
               ∧ loadingInterval (vars s') = None
  end.
Proof.
  unfold try_catch_finally, try_catch.
  destruct (body s) as [[[t|]|e] s1]; [done|..].
  - rewrite setLoading_returns. by rewrite stop_loading_page, stop_loading_vars.
  - rewrite bind_run. destruct (handler e s1) as [[[]|e'] s2]; simpl;
    rewrite setLoading_returns; by rewrite stop_loading_page, stop_loading_vars.
Qed.

(** ** Result Renderer *)

Lemma render_part_spec prompt p found s :
  (render_part prompt p found s).1 = Normal (found || renderable p)
  ∧ renders prompt [p] s (exec (render_part prompt p found) s).
Proof.
  unfold renders, exec, render_part, renderable, part_element, data_url.
  destruct p as [[inline|] txt]; cbn.
  - rewrite orb_true_r. by repeat split.
  - destruct (truthy txt); cbn.
    + rewrite orb_true_r. by repeat split.
    + rewrite orb_false_r, app_nil_r. by repeat split.
Qed.

Lemma render_parts_spec prompt ps found s :
  (render_parts prompt ps found s).1 = Normal (found || existsb renderable ps)
  ∧ renders prompt ps s (exec (render_parts prompt ps found) s).
Proof.
  revert found s. induction ps as [|p ps IH]; intros found s.
  - unfold renders, exec. cbn. rewrite orb_false_r, app_nil_r. by repeat split.
  - destruct (render_part_spec prompt p found s) as (Hv & Hh & Hl & Hc & Hu & Hd).
    unfold exec in *. cbn [render_parts]. rewrite bind_run.
    destruct (render_part prompt p found s) as [[found'|e] s1]; [|done].
    cbn in Hv, Hh, Hl, Hc, Hu, Hd. injection Hv as ->.
    destruct (IH (found || renderable p) s1) as (Hv' & Hh' & Hl' & Hc' & Hu' & Hd').
    unfold exec in *. 
    split. { rewrite Hv'. cbn. by rewrite orb_assoc. }
    unfold renders. rewrite Hh', Hl', Hc', Hu', Hd', Hh, Hl, Hc, Hu, Hd.
    repeat split.
    + rewrite <- app_assoc. cbn. by rewrite app_nil_r.
    + cbn. destruct (inlineData p) as [inline|]; cbn; [|done].
      destruct (omap inlineData ps) as [|y l]; [done|].
      change (last (inline :: y :: l)) with (last (y :: l)).
      destruct (last (y :: l)) eqn:E; [done|]. by apply last_None in E.
    + cbn. destruct (inlineData p) as [inline|]; cbn; [|done].
      by destruct (omap inlineData ps).
Qed.

Lemma render_parts_returns prompt ps found s :
  render_parts prompt ps found s
  = (Normal (found || existsb renderable ps), exec (render_parts prompt ps found) s).
Proof.
  destruct (render_parts_spec prompt ps found s) as [H _]. unfold exec.
  destruct (render_parts prompt ps found s). cbn in *. by subst.
Qed.

Lemma render_response_returns prompt response s :
  parts_missing response = false →
  render_response prompt response s
  = (Normal tt, exec (render_response prompt response) s).
Proof.
  unfold parts_missing, exec, render_response. rewrite bind_run. cbn.
  destruct (candidates response) as [[|c cs]|]; try reflexivity.
  destruct (content_parts c) as [ps|]; [intros _|done].
  rewrite bind_run, render_parts_returns. cbn.
  by destruct (existsb renderable ps).
Qed.

(** A first candidate without parts: the loop header throws once the
    result area has been emptied. *)
Lemma render_response_throws prompt response s :
  parts_missing response = true →
  render_response prompt response s
  = (Throw TypeErrorObj, with_page (set_resultContainer []) s).
Proof.
  unfold parts_missing, render_response. rewrite bind_run. cbn.
  destruct (candidates response) as [[|c cs]|]; try done.
  by destruct (content_parts c).
Qed.

(** Something to render is something reached. *)
Lemma renderable_parts_reached response :
  existsb renderable (first_parts response) = true → parts_missing response = false.
Proof.
  unfold first_parts, parts_missing.
  destruct (candidates response) as [[|c cs]|]; try done.
  by destruct (content_parts c).
Qed.

(** A reply with something to render: the result area holds exactly the
    rendered parts. *)
Lemma render_response_content prompt response s :
  existsb renderable (first_parts response) = true →
  renders prompt (first_parts response)
    (with_page (set_resultContainer []) s)
    (exec (render_response prompt response) s).
Proof.
  unfold first_parts, exec, render_response. rewrite bind_run. cbn.
  destruct (candidates response) as [[|c cs]|]; try done.
  destruct (content_parts c) as [ps|]; [|done]. cbn. intros H.
  rewrite bind_run, render_parts_returns. cbn. rewrite H.
  apply render_parts_spec.
Qed.

(** Parts that are not renderable leave no trace at all. *)
Lemma render_parts_skips prompt ps found s :
  existsb renderable ps = false → render_parts prompt ps found s = (Normal found, s).
Proof.
  revert found. induction ps as [|p ps IH]; intros found H; [done|].
  cbn in H. apply orb_false_elim in H as [Hp Hps].
  cbn [render_parts]. rewrite bind_run. unfold render_part, renderable in *.
  destruct (inlineData p); [done|]. rewrite Hp. cbn. by apply IH.
Qed.

(** A reply with nothing to render: the Error Presenter takes over. *)
Lemma render_response_empty prompt response s :
  parts_missing response = false →
  existsb renderable (first_parts response) = false →
  exec (render_response prompt response) s
  = exec (displayError (empty_message response)) s.
Proof.
  unfold parts_missing, first_parts, empty_message, exec, render_response.
  rewrite bind_run. cbn.
  destruct (candidates response) as [[|c cs]|]; try done.
  destruct (content_parts c) as [ps|]; [|done]. cbn. intros _ H.
  by rewrite bind_run, render_parts_skips.
Qed.

(** The three ways through [try]/[catch]/[finally]. *)
Lemma try_catch_finally_suspends body handler finalizer s t s1 :
  body s = (Normal (Some t), s1) →
  try_catch_finally body handler finalizer s = (Normal (Some t), s1).
Proof. intros H. unfold try_catch_finally, try_catch. by rewrite H. Qed.

Lemma try_catch_finally_completes body handler finalizer s s1 s2 :
  body s = (Normal None, s1) → finalizer s1 = (Normal tt, s2) →
  try_catch_finally body handler finalizer s = (Normal None, s2).
Proof. intros H1 H2. unfold try_catch_finally, try_catch. by rewrite H1, H2. Qed.

Lemma try_catch_finally_catches body handler finalizer s e s1 s2 s3 :
  body s = (Throw e, s1) → handler e s1 = (Normal tt, s2) →
  finalizer s2 = (Normal tt, s3) →
  try_catch_finally body handler finalizer s = (Normal None, s3).
Proof.
  intros H1 H2 H3. unfold try_catch_finally, try_catch.
  rewrite H1, bind_run, H2. cbn. by rewrite H3.
Qed.

(** The [catch] and [finally] of [editImageWithGemini] after a rejection. *)
Lemma edit_resume_rejected prompt error s :
  editImageWithGemini_resume prompt (inl error) s
  = (Normal None,
     exec (setLoading false None)
       (exec (displayError (lit "Ocurrió un error en la edición. Por favor, revisa la consola."))
          (exec (console_error (lit "Error calling Gemini API for image editing:") error) s))).
Proof.
  eapply try_catch_finally_catches; [reflexivity..|apply setLoading_returns].
Qed.

Lemma edit_resume_resolved prompt response s :
  parts_missing response = false →
  editImageWithGemini_resume prompt (inr response) s
  = (Normal None,
     exec (setLoading false None) (exec (render_response prompt response) s)).
Proof.
  intros H. eapply try_catch_finally_completes; [|apply setLoading_returns].
  rewrite bind_run. unfold settled, mret, JS_ret. cbn beta iota. by rewrite bind_run, render_response_returns.
Qed.

(** The reply arrives, but its first candidate has no parts: the TypeError
    of l.151 is thrown inside the [try] and handled like a failed call. *)
Lemma edit_resume_unreadable prompt response s :
  parts_missing response = true →
  editImageWithGemini_resume prompt (inr response) s
  = (Normal None,
     exec (setLoading false None)
       (exec (displayError (lit "Ocurrió un error en la edición. Por favor, revisa la consola."))
          (exec (console_error (lit "Error calling Gemini API for image editing:") TypeErrorObj)
             (with_page (set_resultContainer []) s)))).
Proof.
  intros H. eapply try_catch_finally_catches; [|reflexivity..|apply setLoading_returns].
  rewrite bind_run. unfold settled, mret, JS_ret. cbn beta iota.
  by rewrite bind_run, render_response_throws.
Qed.

Lemma run_job_done job s s' : job s = (Normal None, s') → run_job job s = s'.
Proof. unfold run_job. by intros ->. Qed.

(** X22: when the reply of an edit has no candidates, or the parts of its
    first candidate are there and none of them is renderable, the result
    area holds exactly one error paragraph with the message for an empty
    reply, the download affordance is hidden and nothing is logged. *)
Theorem empty_response_shows_error (s : App) (i : nat) (prompt : jsstring)
    (response : GenerateContentResponse) :
  pending (host s) !! i = Some (EditAwaitGenerateContent prompt) →
  candidates response = None ∨ candidates response = Some []
  ∨ (∃ c cs ps, candidates response = Some (c :: cs)
                ∧ content_parts c = Some ps
                ∧ Forall (λ p, renderable p = false) ps) →
  ∃ s', step (Settle i (ContentResolved response)) s = Some s'
        ∧ resultContainer (page s')
          = [PEl [] (lit "error") (empty_message response)]
        ∧ downloadButton_hidden (page s') = true
        ∧ trace (host s') = trace (host s).
Proof.
  intros Hi H. eexists. split.
  { eapply step_settle; [exact Hi|reflexivity]. }
  assert (Hm : parts_missing response = false).
  { unfold parts_missing. by destruct H as [->| [->|(c & cs & ps & -> & -> & H)]]. }
  assert (He : existsb renderable (first_parts response) = false).
  { unfold first_parts. destruct H as [->| [->|(c & cs & ps & -> & -> & H)]]; [done..|].
    cbn. induction H as [|p ps Hp _ IH]; [done|]. cbn. by rewrite Hp, IH. }
  rewrite (run_job_done _ _ _ (edit_resume_resolved prompt response (dequeue i s) Hm)).
  rewrite stop_loading_page, stop_loading_host, render_response_empty by done.
  by rewrite displayError_page, displayError_host.
Qed.

(** C5 (at the failing input): a reply whose only candidate comes without
    content has candidates and no renderable part, yet it is not answered
    with the message for an empty reply: the loop header of l.151 throws a
    TypeError inside the [try], which is logged to the console, and the
    result area holds the generic failure message of the [catch] block;
    the download affordance is hidden all the same. *)
Theorem candidate_without_content_shows_failure :
  ∃ s', step (Settle 0 (ContentResolved blocked)) editing = Some s'
        ∧ resultContainer (page s')
          = [PEl [] (lit "error")
               (lit "Ocurrió un error en la edición. Por favor, revisa la consola.")]
        ∧ trace (host s')
          = trace (host editing)
            ++ [ConsoleError (lit "Error calling Gemini API for image editing:")
                  TypeErrorObj]
        ∧ downloadButton_hidden (page s') = true.
Proof. eexists. split; [by vm_compute|]. by vm_compute. Qed.

(** ** Frames *)

Section Keeps.
Context (R : relation App) `{!PreOrder R}.

Lemma keeps_ret {A} (a : A) : keeps R (mret a).
Proof. intros s. reflexivity. Qed.

Lemma keeps_throw {A} e : keeps R (throw (A:=A) e).
Proof. intros s. reflexivity. Qed.

Lemma keeps_get {A} (f : App → A) : keeps R (get f).
Proof. intros s. reflexivity. Qed.

Lemma keeps_settled {A} (r : JsError + A) : keeps R (settled r).
Proof. destruct r; [apply keeps_throw|apply keeps_ret]. Qed.

Lemma keeps_update f : (∀ s, R s (f s)) → keeps R (update f).
Proof. intros H s. apply H. Qed.

Lemma keeps_bind {A B} (m : JS A) (k : A → JS B) :
  keeps R m → (∀ a, keeps R (k a)) → keeps R (m ≫= k).
Proof.
  intros Hm Hk s. unfold exec. rewrite bind_run.
  specialize (Hm s). unfold exec in Hm.
  destruct (m s) as [[a|e] s1]; [|done].
  etrans; [exact Hm|apply Hk].
Qed.

Lemma keeps_try_catch {A} (body : JS A) handler :
  keeps R body → (∀ e, keeps R (handler e)) → keeps R (try_catch body handler).
Proof.
  intros Hb Hh s. unfold exec, try_catch.
  specialize (Hb s). unfold exec in Hb.
  destruct (body s) as [[a|e] s1]; [done|].
  etrans; [exact Hb|apply Hh].
Qed.

Lemma keeps_try_catch_finally body handler finalizer :
  keeps R body → (∀ e, keeps R (handler e)) → keeps R finalizer →
  keeps R (try_catch_finally body handler finalizer).
Proof.
  intros Hb Hh Hf s. unfold exec, try_catch_finally.
  assert (Ht : keeps R (try_catch body (λ error, handler error;; mret None))).
  { apply keeps_try_catch; [done|]. intros e.
    apply keeps_bind; [done|]. intros _. apply keeps_ret. }
  specialize (Ht s). unfold exec in Ht.
  destruct (try_catch _ _ s) as [[[t|]|e] s1]; [done|..];
    specialize (Hf s1); unfold exec in Hf;
    destruct (finalizer s1) as [[[]|e'] s2]; by etrans.
Qed.
End Keeps.

#[global] Instance same_pending_preorder : PreOrder same_pending.
Proof. split; [done|]. intros s1 s2 s3 H12 H23. unfold same_pending in *. congruence. Qed.

#[global] Instance same_timers_preorder : PreOrder same_timers.
Proof.
  split; [done|]. intros s1 s2 s3 [] []. unfold same_timers in *.
  split; congruence.
Qed.

Ltac keeps_step :=
  lazymatch goal with
  | |- keeps _ (mret _) => apply keeps_ret; tc_solve
  | |- keeps _ (throw _) => apply keeps_throw; tc_solve
  | |- keeps _ (get _) => apply keeps_get; tc_solve
  | |- keeps _ (settled _) => apply keeps_settled; tc_solve
  | |- keeps _ (update _) =>
      apply keeps_update; try tc_solve; intros ?; hnf; by repeat split
  | |- keeps _ (_ ≫= _) => apply keeps_bind; try tc_solve; [|intros ?]
  | |- keeps _ (try_catch_finally _ _ _) =>
      apply keeps_try_catch_finally; try tc_solve; [|intros ?|]
  | |- keeps _ (try_catch _ _) => apply keeps_try_catch; try tc_solve; [|intros ?]
  | |- keeps _ (match ?x with _ => _ end) => destruct x
  end.

Ltac keeps_tac :=
  repeat first
    [ keeps_step
    | progress unfold emit, alert, console_error, appendChild, displayError,
        clearInterval, video_try ].

Lemma render_parts_keeps_pending prompt ps found :
  keeps same_pending (render_parts prompt ps found).
Proof.
  revert found. induction ps as [|p ps IH]; intros found; cbn [render_parts].
  - keeps_tac.
  - unfold render_part. keeps_tac. all: apply IH.
Qed.

Lemma setLoading_keeps_pending b m : keeps same_pending (setLoading b m).
Proof. unfold setLoading. keeps_tac. Qed.

Lemma resume_keeps_pending t r job :
  resume t r = Some job → keeps same_pending job.
Proof.
  destruct t, r; intros H; simplify_eq/=;
    unfold reader_onload, editImageWithGemini_resume, render_response, video_poll, video_show;
    keeps_tac; try apply render_parts_keeps_pending; try apply setLoading_keeps_pending.
Qed.

(** Every segment of an orchestration cycle runs inside the cycle's
    [try]/[catch]/[finally], whose [finally] is [setLoading(false)]. *)
Lemma resume_guarded t r job :
  t ≠ ReaderOnload → resume t r = Some job →
  ∃ body handler, job = try_catch_finally body handler (setLoading false None).
Proof.
  intros Ht H. destruct t, r; simplify_eq/=; by eexists _, _.
Qed.

(** C6: whenever a resumed orchestration cycle (edit or video) ends, on
    whatever path, the busy indicator is hidden, the action trigger is
    enabled and no rotation timer handle is left; and a rejected
    [generateContent] call ends the edit cycle with the generic error
    message in the result area, the detail going to the console only. *)
Theorem busy_indicator_cleared_on_exit (s : App) (i : nat) (t : Task)
    (r : Settled) (s' : App) :
  pending (host s) !! i = Some t → t ≠ ReaderOnload →
  step (Settle i r) s = Some s' →
  (pending (host s') = delete i (pending (host s)) →
     loader_hidden (page s') = true
     ∧ actionButton_disabled (page s') = false
     ∧ loadingInterval (vars s') = None)
  ∧ (∀ prompt error,
       t = EditAwaitGenerateContent prompt → r = Rejected error →
       pending (host s') = delete i (pending (host s))
       ∧ resultContainer (page s')
         = [PEl [] (lit "error")
              (lit "Ocurrió un error en la edición. Por favor, revisa la consola.")]
       ∧ trace (host s')
         = trace (host s)
           ++ [ConsoleError (lit "Error calling Gemini API for image editing:") error]).
Proof.
  intros Hi Ht Hstep. unfold step in Hstep. rewrite Hi in Hstep. cbn in Hstep.
  destruct (resume t r) as [job|] eqn:Hjob; simplify_eq/=. split.
  - intros Hexit.
    destruct (resume_guarded t r job Ht Hjob) as (body & handler & ->).
    pose proof (resume_keeps_pending _ _ _ Hjob (dequeue i s)) as Hp.
    pose proof (finally_runs body handler (dequeue i s)) as Hf.
    unfold run_job, exec, same_pending in *.
    destruct (try_catch_finally body handler _ (dequeue i s)) as [[[t'|]|e] s1];
      cbn in *; [|done..].
    rewrite Hp in Hexit. apply (f_equal length) in Hexit.
    rewrite length_app in Hexit. cbn in Hexit. lia.
  - intros prompt error -> ->. cbn in Hjob. simplify_eq.
    rewrite (run_job_done _ _ _ (edit_resume_rejected prompt error (dequeue i s))).
    rewrite stop_loading_page, stop_loading_host. by repeat split.
Qed.

(** ** Request Orchestrator: validation *)

(** C7: a click on the action trigger without uploaded media, or with a
    prompt that is empty or made of white space only, changes nothing but
    the log of effects, which gains exactly one alert: no remote call is
    issued and the stored result stays as it was. *)
Theorem validation_failure_only_alerts (s : App) :
  truthy (imageBase64 (vars s)) = false
  ∨ truthy (imageMimeType (vars s)) = false
  ∨ blank_text (promptInput_value (page s)) →
  ∃ message,
    vars (run_job actionButton_click s) = vars s
    ∧ page (run_job actionButton_click s) = page s
    ∧ timers (host (run_job actionButton_click s)) = timers (host s)
    ∧ pending (host (run_job actionButton_click s)) = pending (host s)
    ∧ trace (host (run_job actionButton_click s))
      = trace (host s) ++ [Alert message].
Proof.
  intros H. unfold run_job, actionButton_click. js_run.
  destruct (truthy (imageBase64 (vars s))) eqn:Hb; cbn.
  2:{ eexists. by repeat split. }
  destruct (truthy (imageMimeType (vars s))) eqn:Hm; cbn.
  2:{ eexists. by repeat split. }
  destruct H as [H|[H|H]]; [done..|].
  apply trim_nil_iff in H. rewrite H. cbn. eexists. by repeat split.
Qed.

(** ** Result Renderer: several parts *)

(** C9: when the first candidate of an edit reply has a renderable part,
    the result area holds the elements of its parts in reply order (an
    image per inline-data part, a paragraph per text part), and if there is
    an inline-data part the download target is the data URL of the last
    one, with the download affordance shown. *)
Theorem parts_rendered_in_order (s : App) (i : nat) (prompt : jsstring)
    (response : GenerateContentResponse) (c : Candidate) (cs : list Candidate)
    (ps : list Part) :
  pending (host s) !! i = Some (EditAwaitGenerateContent prompt) →
  candidates response = Some (c :: cs) →
  content_parts c = Some ps →
  Exists (λ p, renderable p = true) ps →
  ∃ s', step (Settle i (ContentResolved response)) s = Some s'
        ∧ resultContainer (page s') = ps ≫= part_element prompt
        ∧ ∀ inline,
            last (omap inlineData ps) = Some inline →
            resultUrl (vars s') = Some (data_url inline)
            ∧ downloadButton_hidden (page s') = false.
Proof.
  intros Hi Hc Hps Hex. eexists. split.
  { eapply step_settle; [exact Hi|reflexivity]. }
  assert (He : existsb renderable (first_parts response) = true).
  { unfold first_parts. rewrite Hc, Hps. cbn. clear Hps.
    induction Hex as [p ps Hp|p ps _ IH]; cbn; [by rewrite Hp|].
    rewrite IH. apply orb_true_r. }
  rewrite (run_job_done _ _ _
             (edit_resume_resolved prompt response (dequeue i s)
                (renderable_parts_reached response He))).
  rewrite stop_loading_page, stop_loading_vars.
  destruct (render_response_content prompt response (dequeue i s) He)
    as (_ & _ & Hcont & Hurl & Hhid).
  unfold first_parts in Hcont, Hurl, Hhid. rewrite Hc, Hps in Hcont, Hurl, Hhid.
  split; [exact Hcont|].
  intros inline Hlast. cbn. cbn in Hurl, Hhid. rewrite Hurl, Hhid, Hlast. split; [done|].
  by destruct (omap inlineData ps).
Qed.

(** ** The statements on sample runs *)

Lemma validation_failure_only_alerts_witness :
  (truthy (imageBase64 (vars wordless)) = false
   ∨ truthy (imageMimeType (vars wordless)) = false
   ∨ blank_text (promptInput_value (page wordless)))
  ∧ ∃ message,
      vars (run_job actionButton_click wordless) = vars wordless
      ∧ page (run_job actionButton_click wordless) = page wordless
      ∧ timers (host (run_job actionButton_click wordless)) = timers (host wordless)
      ∧ pending (host (run_job actionButton_click wordless)) = pending (host wordless)
      ∧ trace (host (run_job actionButton_click wordless))
        = trace (host wordless) ++ [Alert message].
Proof.
  assert (H : blank_text (promptInput_value (page wordless))).
  { vm_compute. by repeat constructor. }
  split; [by right; right|].
  apply (validation_failure_only_alerts wordless). by right; right.
Defined.

Lemma empty_response_shows_error_witness :
  pending (host editing) !! 0 = Some (EditAwaitGenerateContent initial_prompt)
  ∧ (candidates hollow = None ∨ candidates hollow = Some []
     ∨ (∃ c cs ps, candidates hollow = Some (c :: cs)
                   ∧ content_parts c = Some ps
                   ∧ Forall (λ p, renderable p = false) ps))
  ∧ ∃ s', step (Settle 0 (ContentResolved hollow)) editing = Some s'
          ∧ resultContainer (page s')
            = [PEl [] (lit "error") (empty_message hollow)]
          ∧ downloadButton_hidden (page s') = true
          ∧ trace (host s') = trace (host editing).
Proof.
  assert (H : ∃ c cs ps, candidates hollow = Some (c :: cs)
                         ∧ content_parts c = Some ps
                         ∧ Forall (λ p, renderable p = false) ps).
  { eexists _, _, _. split; [reflexivity|]. split; [reflexivity|].
    by repeat constructor. }
  split; [vm_compute; reflexivity|]. split; [by right; right|].
  apply (empty_response_shows_error editing 0 initial_prompt hollow);
    [vm_compute; reflexivity|by right; right].
Defined.

Lemma parts_rendered_in_order_witness :
  pending (host editing) !! 0 = Some (EditAwaitGenerateContent initial_prompt)
  ∧ candidates illustrated = Some [three_parts]
  ∧ content_parts three_parts
    = Some [caption; image_part first_image; image_part second_image]
  ∧ Exists (λ p, renderable p = true)
      [caption; image_part first_image; image_part second_image]
  ∧ ∃ s', step (Settle 0 (ContentResolved illustrated)) editing = Some s'
          ∧ resultContainer (page s')
            = [caption; image_part first_image; image_part second_image]
              ≫= part_element initial_prompt
          ∧ ∀ inline,
              last (omap inlineData
                      [caption; image_part first_image; image_part second_image])
              = Some inline →
              resultUrl (vars s') = Some (data_url inline)
              ∧ downloadButton_hidden (page s') = false.
Proof.
  split; [vm_compute; reflexivity|]. split; [reflexivity|]. split; [reflexivity|].
  split; [by apply Exists_cons_hd|].
  apply (parts_rendered_in_order editing 0 initial_prompt illustrated three_parts []
           [caption; image_part first_image; image_part second_image]);
    [vm_compute; reflexivity|reflexivity|reflexivity|by apply Exists_cons_hd].
Defined.

Lemma busy_indicator_cleared_on_exit_witness :
  pending (host editing) !! 0 = Some (EditAwaitGenerateContent initial_prompt)
  ∧ EditAwaitGenerateContent initial_prompt ≠ ReaderOnload
  ∧ step (Settle 0 unavailable) editing = Some (after [Settle 0 unavailable] editing)
  ∧ (pending (host (after [Settle 0 unavailable] editing))
     = delete 0 (pending (host editing)) →
       loader_hidden (page (after [Settle 0 unavailable] editing)) = true
       ∧ actionButton_disabled (page (after [Settle 0 unavailable] editing)) = false
       ∧ loadingInterval (vars (after [Settle 0 unavailable] editing)) = None)
  ∧ (∀ prompt error,
       EditAwaitGenerateContent initial_prompt = EditAwaitGenerateContent prompt →
       unavailable = Rejected error →
       pending (host (after [Settle 0 unavailable] editing))
       = delete 0 (pending (host editing))
       ∧ resultContainer (page (after [Settle 0 unavailable] editing))
         = [PEl [] (lit "error")
              (lit "Ocurrió un error en la edición. Por favor, revisa la consola.")]
       ∧ trace (host (after [Settle 0 unavailable] editing))
         = trace (host editing)
           ++ [ConsoleError (lit "Error calling Gemini API for image editing:") error]).
Proof.
  split; [vm_compute; reflexivity|]. split; [done|]. split; [vm_compute; reflexivity|].
  apply (busy_indicator_cleared_on_exit editing 0
           (EditAwaitGenerateContent initial_prompt) unavailable
           (after [Settle 0 unavailable] editing));
    [vm_compute; reflexivity|done|vm_compute; reflexivity].
Defined.

(** ** Request Orchestrator: video polling *)

Lemma run_app evs1 evs2 s : run (evs1 ++ evs2) s = run evs1 s ≫= run evs2.
Proof.
  revert s. induction evs1 as [|ev evs1 IH]; intros s; [done|].
  cbn. destruct (step ev s) as [s1|]; [apply IH|done].
Qed.

Lemma settle_in_flight s0 task effects s r body :
  in_flight s0 task effects s →
  resume task r = Some (video_try body) →
  step (Settle (length (pending (host s0))) r) s
  = Some (run_job (video_try body)
            (with_host (set_pending (pending (host s0))) s)).
Proof.
  intros (Hp & _) Hr. unfold step. rewrite Hp, list_lookup_middle by done.
  cbn. rewrite Hr. cbn. do 2 f_equal. unfold dequeue.
  destruct s as [v p []]. cbn in *. subst. unfold with_host, set_pending. cbn.
  by rewrite delete_middle, app_nil_r.
Qed.

Lemma video_try_suspends body s t s1 :
  body s = (Normal (Some t), s1) →
  run_job (video_try body) s = with_host (λ h, set_pending (pending h ++ [t]) h) s1.
Proof.
  intros H. unfold run_job, video_try.
  by rewrite (try_catch_finally_suspends _ _ _ _ _ _ H).
Qed.

Lemma video_try_completes body s s1 :
  body s = (Normal None, s1) →
  run_job (video_try body) s = exec (setLoading false None) s1.
Proof.
  intros H. unfold run_job, video_try.
  by rewrite (try_catch_finally_completes _ _ _ _ _ _ H (setLoading_returns _ _ _)).
Qed.

Lemma exec_emit e s :
  exec (emit e) s = with_host (λ h, set_trace (trace h ++ [e]) h) s.
Proof. reflexivity. Qed.

(** One more segment of a cycle in flight: the segment emits [e] and
    suspends at [t']. *)
Lemma in_flight_advances s0 task effects s r body e t' :
  in_flight s0 task effects s →
  resume task r = Some (video_try body) →
  (∀ s1, body s1 = (Normal (Some t'), exec (emit e) s1)) →
  ∃ s', step (Settle (length (pending (host s0))) r) s = Some s'
        ∧ in_flight s0 t' (effects ++ [e]) s'
        ∧ vars s' = vars s ∧ page s' = page s.
Proof.
  intros Hf Hr Hb. eexists. split; [by eapply settle_in_flight|].
  rewrite (video_try_suspends _ _ _ _ (Hb _)).
  destruct Hf as (Hp & Ht & Hk & Hi). unfold in_flight. rewrite exec_emit. cbn.
  rewrite Ht, Hk, <- app_assoc. by repeat split.
Qed.

Lemma poll_again s0 task effects s operation :
  task = VideoAwaitGenerateVideos ∨ task = VideoAwaitGetVideosOperation →
  in_flight s0 task effects s →
  done operation = false →
  ∃ s', step (Settle (length (pending (host s0))) (OperationResolved operation)) s
        = Some s'
        ∧ in_flight s0 (VideoAwaitTimeout operation) (effects ++ [SetTimeout 10000]) s'
        ∧ vars s' = vars s ∧ page s' = page s.
Proof.
  intros Ht Hf Hd. eapply in_flight_advances; [exact Hf|by destruct Ht as [->| ->]|].
  intros s1. unfold video_poll. by rewrite Hd.
Qed.

Lemma requery s0 effects s operation :
  in_flight s0 (VideoAwaitTimeout operation) effects s →
  ∃ s', step (Settle (length (pending (host s0))) TimerFired) s = Some s'
        ∧ in_flight s0 VideoAwaitGetVideosOperation
            (effects ++ [GetVideosOperation operation]) s'
        ∧ vars s' = vars s ∧ page s' = page s.
Proof. intros Hf. by eapply in_flight_advances. Qed.

Lemma fetch_video s0 task effects s operation link :
  task = VideoAwaitGenerateVideos ∨ task = VideoAwaitGetVideosOperation →
  in_flight s0 task effects s →
  done operation = true → downloadLink operation = Some link → link ≠ [] →
  ∃ s', step (Settle (length (pending (host s0))) (OperationResolved operation)) s
        = Some s'
        ∧ in_flight s0 VideoAwaitFetch
            (effects ++ [Fetch (link ++ lit "&key=" ++ API_KEY (host s0))]) s'
        ∧ vars s' = vars s ∧ page s' = page s.
Proof.
  intros Ht Hf Hd Hl Hne. eexists. split.
  { eapply settle_in_flight; [exact Hf|by destruct Ht as [->| ->]]. }
  destruct Hf as (Hp & Htr & Hk & Hi).
  rewrite (video_try_suspends _ _ VideoAwaitFetch
             (exec (emit (Fetch (link ++ lit "&key=" ++ API_KEY (host s0))))
                (with_host (set_pending (pending (host s0))) s))).
  2:{ unfold video_poll. rewrite Hd, Hl. cbn [negb].
      destruct link; [done|]. cbn [truthy]. unfold exec. rewrite bind_run. cbn.
      by rewrite Hk. }
  unfold in_flight. rewrite exec_emit. cbn.
  rewrite Htr, Hk, <- app_assoc. by repeat split.
Qed.

Lemma read_body s0 effects s :
  in_flight s0 VideoAwaitFetch effects s →
  ∃ s', step (Settle (length (pending (host s0))) FetchResolved) s = Some s'
        ∧ in_flight s0 VideoAwaitBlob (effects ++ [ResponseBlob]) s'
        ∧ vars s' = vars s ∧ page s' = page s.
Proof. intros Hf. by eapply in_flight_advances. Qed.

Lemma video_show_returns videoBlob s :
  video_show videoBlob s = (Normal None, exec (video_show videoBlob) s).
Proof. reflexivity. Qed.

Lemma video_show_page videoBlob s :
  page (exec (video_show videoBlob) s)
  = set_downloadButton_hidden false
      (set_resultContainer [VideoEl (blob_url videoBlob) true true true true] (page s)).
Proof. reflexivity. Qed.

Lemma video_show_vars videoBlob s :
  vars (exec (video_show videoBlob) s)
  = set_resultUrl (Some (blob_url videoBlob)) (vars s).
Proof. reflexivity. Qed.

Lemma video_show_host videoBlob s :
  host (exec (video_show videoBlob) s)
  = set_trace (trace (host s) ++ [CreateObjectURL videoBlob]) (host s).
Proof. reflexivity. Qed.

Lemma show_video s0 effects s videoBlob :
  in_flight s0 VideoAwaitBlob effects s →
  ∃ s', step (Settle (length (pending (host s0))) (BlobResolved videoBlob)) s
        = Some s'
        ∧ pending (host s') = pending (host s0)
        ∧ trace (host s') = trace (host s0) ++ effects ++ [CreateObjectURL videoBlob]
        ∧ resultUrl (vars s') = Some (blob_url videoBlob)
        ∧ resultContainer (page s')
          = [VideoEl (blob_url videoBlob) true true true true]
        ∧ downloadButton_hidden (page s') = false.
Proof.
  intros Hf. eexists. split; [by eapply settle_in_flight|].
  destruct Hf as (Hp & Htr & Hk & Hi).
  rewrite (video_try_completes _ _ _ (video_show_returns videoBlob _)).
  rewrite stop_loading_page, stop_loading_vars, stop_loading_host. cbn.
  rewrite video_show_page, video_show_vars, video_show_host. cbn.
  rewrite Htr, <- app_assoc. by repeat split.
Qed.

Lemma first_message_truthy : truthy (loadingMessages !! 0) = true.
Proof. vm_compute. reflexivity. Qed.

Lemma generateVideo_returns prompt base64Data mime s :
  generateVideoWithGemini prompt base64Data mime s
  = (Normal (Some VideoAwaitGenerateVideos),
     exec (generateVideoWithGemini prompt base64Data mime) s).
Proof.
  unfold exec, generateVideoWithGemini. by rewrite bind_run, setLoading_returns.
Qed.

(** What starting a video cycle does to the browser: the timer of the
    stored handle is cleared, a new one is started with [messageIndex] 0,
    and the job-creation call is issued. *)
Lemma generateVideo_host prompt base64Data mime s :
  host (exec (generateVideoWithGemini prompt base64Data mime) s)
  = set_trace
      (trace (host s)
       ++ [GenerateVideos (lit "veo-2.0-generate-001") prompt base64Data mime 1])
      (set_next_timer (Pos.succ (next_timer (host s)))
         (set_timers (<[next_timer (host s) := 0]> (cleared s)) (host s))).
Proof.
  unfold exec, generateVideoWithGemini. rewrite bind_run, setLoading_returns.
  unfold setInterval. js_run. by rewrite start_loading_host.
Qed.

Lemma generateVideo_vars prompt base64Data mime s :
  vars (exec (generateVideoWithGemini prompt base64Data mime) s)
  = set_loadingInterval (Some (next_timer (host s)))
      (set_resultUrl None (set_loadingInterval None (vars s))).
Proof.
  unfold exec, generateVideoWithGemini. rewrite bind_run, setLoading_returns.
  unfold setInterval. js_run. by rewrite start_loading_vars, start_loading_host.
Qed.

(** The click that starts a video cycle. *)
Lemma click_starts_video s base64 mime :
  actionButton_disabled (page s) = false →
  imageBase64 (vars s) = Some base64 → base64 ≠ [] →
  imageMimeType (vars s) = Some mime → mime ≠ [] →
  trim (promptInput_value (page s)) ≠ [] →
  currentMode (vars s) = ModeVideo →
  ∃ s', step ActionClick s = Some s'
        ∧ in_flight s VideoAwaitGenerateVideos
            [GenerateVideos (lit "veo-2.0-generate-001")
               (promptInput_value (page s)) base64 mime 1] s'.
Proof.
  intros Hen Hb Hbne Hm Hmne Hp Hmode. eexists. split.
  { unfold step. by rewrite Hen. }
  assert (Hrun : actionButton_click s
                 = generateVideoWithGemini (promptInput_value (page s)) base64 mime
                     (with_page (set_resultPlaceholder_hidden true) s)).
  { unfold actionButton_click. js_run. rewrite Hb, Hm.
    destruct base64; [done|]. destruct mime; [done|]. cbn.
    destruct (trim (promptInput_value (page s))); [done|]. cbn.
    by rewrite Hmode. }
  unfold run_job. rewrite Hrun, generateVideo_returns. unfold in_flight. cbn.
  rewrite generateVideo_host. cbn.
  repeat split. eexists. apply lookup_insert_eq.
Qed.

(** The rotation callback does not disturb the cycle. *)
Lemma tick_in_flight s0 task effects s :
  in_flight s0 task effects s →
  ∃ s', step (IntervalTick (next_timer (host s0))) s = Some s'
        ∧ in_flight s0 task effects s'.
Proof.
  intros (Hp & Ht & Hk & [k Hi]). eexists. split.
  { unfold step. rewrite Hi. reflexivity. }
  unfold in_flight, run_job. cbn.
  repeat split; [done..|]. eexists. apply lookup_insert_eq.
Qed.

Lemma ticks_in_flight s0 task effects n s :
  in_flight s0 task effects s →
  ∃ s', run (ticks s0 n) s = Some s' ∧ in_flight s0 task effects s'.
Proof.
  revert s. induction n as [|n IH]; intros s Hf; [by exists s|].
  destruct (tick_in_flight _ _ _ _ Hf) as (s1 & Hs1 & Hf1).
  destruct (IH s1 Hf1) as (s2 & Hs2 & Hf2).
  exists s2. split; [|done].
  unfold ticks in *. cbn [replicate run]. rewrite Hs1. exact Hs2.
Qed.

Lemma run_step_ticks ev s0 n rest s s1 s2 :
  step ev s = Some s1 → run (ticks s0 n) s1 = Some s2 →
  run (ev :: ticks s0 n ++ rest) s = run rest s2.
Proof. intros H1 H2. cbn [run]. rewrite H1. cbn [mbind option_bind]. by rewrite run_app, H2. Qed.

(** C4: a video cycle whose job handle is seen not done twice (when the
    job is created and after the first re-query) and done after the second
    re-query, with one generated video carrying a link, performs exactly
    two 10-second waits, each followed by a status re-query, then fetches
    the video bytes and shows the video: the object URL of the fetched body
    becomes the download target.  The rotation timer may fire any number
    of times between the steps of the cycle. *)
Theorem video_polls_twice (s : App) (base64 mime link : jsstring)
    (op0 op1 op2 : Operation) (videoBlob : Blob) (n1 n2 n3 n4 n5 n6 n7 : nat) :
  actionButton_disabled (page s) = false →
  imageBase64 (vars s) = Some base64 → base64 ≠ [] →
  imageMimeType (vars s) = Some mime → mime ≠ [] →
  trim (promptInput_value (page s)) ≠ [] →
  currentMode (vars s) = ModeVideo →
  done op0 = false → done op1 = false → done op2 = true →
  response op2
  = Some {| generatedVideos := Some [ {| video := Some {| uri := Some link |} |} ] |} →
  link ≠ [] →
  let i := length (pending (host s)) in
  ∃ s', run (ActionClick :: ticks s n1
             ++ Settle i (OperationResolved op0) :: ticks s n2
             ++ Settle i TimerFired :: ticks s n3
             ++ Settle i (OperationResolved op1) :: ticks s n4
             ++ Settle i TimerFired :: ticks s n5
             ++ Settle i (OperationResolved op2) :: ticks s n6
             ++ Settle i FetchResolved :: ticks s n7
             ++ [Settle i (BlobResolved videoBlob)]) s = Some s'
        ∧ trace (host s')
          = trace (host s)
            ++ [GenerateVideos (lit "veo-2.0-generate-001")
                  (promptInput_value (page s)) base64 mime 1;
                SetTimeout 10000; GetVideosOperation op0;
                SetTimeout 10000; GetVideosOperation op1;
                Fetch (link ++ lit "&key=" ++ API_KEY (host s));
                ResponseBlob; CreateObjectURL videoBlob]
        ∧ resultUrl (vars s') = Some (blob_url videoBlob)
        ∧ resultContainer (page s')
          = [VideoEl (blob_url videoBlob) true true true true]
        ∧ downloadButton_hidden (page s') = false.
Proof.
  intros Hen Hb Hbne Hm Hmne Hp Hmode Hd0 Hd1 Hd2 Hr Hl i.
  destruct (click_starts_video s base64 mime) as (a & Ha & Fa); [done..|].
  destruct (ticks_in_flight _ _ _ n1 _ Fa) as (a' & Ha' & Fa').
  destruct (poll_again _ _ _ _ op0 (or_introl eq_refl) Fa' Hd0) as (b & Hb' & Fb & _).
  destruct (ticks_in_flight _ _ _ n2 _ Fb) as (b' & Hb'' & Fb').
  destruct (requery _ _ _ _ Fb') as (c & Hc & Fc & _).
  destruct (ticks_in_flight _ _ _ n3 _ Fc) as (c' & Hc' & Fc').
  destruct (poll_again _ _ _ _ op1 (or_intror eq_refl) Fc' Hd1) as (d & Hd & Fd & _).
  destruct (ticks_in_flight _ _ _ n4 _ Fd) as (d' & Hd' & Fd').
  destruct (requery _ _ _ _ Fd') as (e & He & Fe & _).
  destruct (ticks_in_flight _ _ _ n5 _ Fe) as (e' & He' & Fe').
  destruct (fetch_video _ _ _ _ op2 link (or_intror eq_refl) Fe' Hd2) as (f & Hf & Ff & _);
    [by unfold downloadLink; rewrite Hr|done|].
  destruct (ticks_in_flight _ _ _ n6 _ Ff) as (f' & Hf' & Ff').
  destruct (read_body _ _ _ Ff') as (g & Hg & Fg & _).
  destruct (ticks_in_flight _ _ _ n7 _ Fg) as (g' & Hg' & Fg').
  destruct (show_video _ _ _ videoBlob Fg') as (h & Hh & _ & Htr & Hu & Hc0 & Hhid).
  exists h. split.
  - rewrite (run_step_ticks _ _ _ _ _ _ _ Ha Ha'), (run_step_ticks _ _ _ _ _ _ _ Hb' Hb''),
      (run_step_ticks _ _ _ _ _ _ _ Hc Hc'), (run_step_ticks _ _ _ _ _ _ _ Hd Hd'),
      (run_step_ticks _ _ _ _ _ _ _ He He'), (run_step_ticks _ _ _ _ _ _ _ Hf Hf'),
      (run_step_ticks _ _ _ _ _ _ _ Hg Hg').
    cbn [run]. subst i. by rewrite Hh.
  - rewrite Htr. by repeat split.
Qed.

Lemma video_polls_twice_witness :
  actionButton_disabled (page video_ready) = false
  ∧ imageBase64 (vars video_ready) = Some (lit "AAAA") ∧ lit "AAAA" ≠ []
  ∧ imageMimeType (vars video_ready) = Some (lit "image/png") ∧ lit "image/png" ≠ []
  ∧ trim (promptInput_value (page video_ready)) ≠ []
  ∧ currentMode (vars video_ready) = ModeVideo
  ∧ done job_running = false ∧ done job_running = false ∧ done job_done = true
  ∧ response job_done
    = Some {| generatedVideos :=
                Some [ {| video := Some {| uri := Some sample_link |} |} ] |}
  ∧ sample_link ≠ []
  ∧ let i := length (pending (host video_ready)) in
    ∃ s', run (ActionClick :: ticks video_ready 1
               ++ Settle i (OperationResolved job_running) :: ticks video_ready 2
               ++ Settle i TimerFired :: ticks video_ready 0
               ++ Settle i (OperationResolved job_running) :: ticks video_ready 2
               ++ Settle i TimerFired :: ticks video_ready 0
               ++ Settle i (OperationResolved job_done) :: ticks video_ready 1
               ++ Settle i FetchResolved :: ticks video_ready 0
               ++ [Settle i (BlobResolved fetched)]) video_ready = Some s'
          ∧ trace (host s')
            = trace (host video_ready)
              ++ [GenerateVideos (lit "veo-2.0-generate-001")
                    (promptInput_value (page video_ready))
                    (lit "AAAA") (lit "image/png") 1;
                  SetTimeout 10000; GetVideosOperation job_running;
                  SetTimeout 10000; GetVideosOperation job_running;
                  Fetch (sample_link ++ lit "&key=" ++ API_KEY (host video_ready));
                  ResponseBlob; CreateObjectURL fetched]
          ∧ resultUrl (vars s') = Some (blob_url fetched)
          ∧ resultContainer (page s')
            = [VideoEl (blob_url fetched) true true true true]
          ∧ downloadButton_hidden (page s') = false.
Proof.
  repeat (split; [by vm_compute|]).
  apply (video_polls_twice video_ready (lit "AAAA") (lit "image/png") sample_link
           job_running job_running job_done fetched 1 2 0 2 0 1 0);
    by vm_compute.
Defined.

(** ** Loading/Status Presenter: the rotation timer *)

Lemma one_timer_size s : one_timer s → size (timers (host s)) ≤ 1.
Proof.
  intros H. destruct (loadingInterval (vars s)) as [id|] eqn:E.
  - assert (Hsub : timers (host s) ⊆ {[id := default 0 (timers (host s) !! id)]}).
    { apply map_subseteq_spec. intros id' k Hk.
      specialize (H id' k Hk). rewrite E in H. injection H as <-.
      rewrite Hk. apply lookup_singleton_eq. }
    apply map_subseteq_size in Hsub. rewrite map_size_singleton in Hsub. lia.
  - assert (timers (host s) = ∅) as ->; [|rewrite map_size_empty; lia].
    apply map_empty. intros id. destruct (timers (host s) !! id) eqn:Hk; [|done].
    specialize (H _ _ Hk). congruence.
Qed.

Lemma same_timers_one_timer s s' : same_timers s s' → one_timer s → one_timer s'.
Proof. intros [Ht Hl] H id k. rewrite Ht, Hl. apply H. Qed.

(** Clearing the stored handle stops every timer. *)
Lemma one_timer_cleared s : one_timer s → cleared s = ∅.
Proof.
  intros H. apply map_empty. intros id. unfold cleared.
  destruct (loadingInterval (vars s)) as [id'|] eqn:E.
  - destruct (decide (id' = id)) as [->|Hne]; [apply lookup_delete_eq|].
    rewrite lookup_delete_ne by done.
    destruct (timers (host s) !! id) eqn:Hk; [|done].
    specialize (H _ _ Hk). congruence.
  - destruct (timers (host s) !! id) eqn:Hk; [|done].
    specialize (H _ _ Hk). congruence.
Qed.

Lemma render_parts_keeps_timers prompt ps found :
  keeps same_timers (render_parts prompt ps found).
Proof.
  revert found. induction ps as [|p ps IH]; intros found; cbn [render_parts].
  - keeps_tac.
  - unfold render_part. keeps_tac. all: apply IH.
Qed.

(** After [setLoading], in either direction, no timer runs and no handle
    is stored. *)
Lemma setLoading_stops b m s :
  one_timer s →
  timers (host (exec (setLoading b m) s)) = ∅
  ∧ loadingInterval (vars (exec (setLoading b m) s)) = None.
Proof.
  intros H. destruct b.
  - rewrite start_loading_host, start_loading_vars. cbn. by rewrite one_timer_cleared.
  - rewrite stop_loading_host, stop_loading_vars. cbn. by rewrite one_timer_cleared.
Qed.

Lemma no_timer_one_timer s :
  timers (host s) = ∅ → one_timer s.
Proof. intros H id k. by rewrite H, lookup_empty. Qed.

(** A guarded segment whose body and handler leave the timer alone. *)
Lemma guarded_one_timer body handler s :
  keeps same_timers body → (∀ e, keeps same_timers (handler e)) →
  one_timer s →
  one_timer (exec (try_catch_finally body handler (setLoading false None)) s).
Proof.
  intros Hb Hh Hs. unfold exec, try_catch_finally.
  assert (Ht : keeps same_timers (try_catch body (λ error, handler error;; mret None))).
  { keeps_tac; [done|apply Hh]. }
  specialize (Ht s). unfold exec in Ht.
  destruct (try_catch _ _ s) as [[[t|]|e] s1]; cbn in *.
  - by eapply same_timers_one_timer.
  - rewrite setLoading_returns. cbn.
    apply no_timer_one_timer, setLoading_stops. by eapply same_timers_one_timer.
  - rewrite setLoading_returns. cbn.
    apply no_timer_one_timer, setLoading_stops. by eapply same_timers_one_timer.
Qed.

Lemma keeps_one_timer {A} (m : JS A) s :
  keeps same_timers m → one_timer s → one_timer (exec m s).
Proof. intros Hm Hs. eapply same_timers_one_timer; [apply Hm|done]. Qed.

Lemma resume_one_timer t r job s :
  resume t r = Some job → one_timer s → one_timer (exec job s).
Proof.
  intros H Hs.
  destruct t, r; simplify_eq/=; unfold editImageWithGemini_resume, video_try;
    lazymatch goal with
    | |- one_timer (exec (try_catch_finally _ _ _) _) =>
        apply guarded_one_timer; [|intros ?|done];
        unfold render_response, video_poll, video_show;
        keeps_tac; apply render_parts_keeps_timers
    | |- _ => apply keeps_one_timer; [|done]; unfold reader_onload; keeps_tac
    end.
Qed.

(** The event loop itself only queues tasks and logs uncaught errors. *)
Lemma run_job_one_timer job s :
  one_timer (exec job s) → one_timer (run_job job s).
Proof.
  unfold exec, run_job. by destruct (job s) as [[[t|]|e] s1].
Qed.

(** Starting a cycle: the stored timer is cleared first; the video cycle
    then starts its own and stores its handle. *)
Lemma editImage_one_timer prompt base64Data mime s :
  one_timer s → one_timer (exec (editImageWithGemini prompt base64Data mime) s).
Proof.
  intros Hs. apply no_timer_one_timer.
  unfold exec, editImageWithGemini. rewrite bind_run, setLoading_returns. cbn.
  by apply setLoading_stops.
Qed.

Lemma generateVideo_timers prompt base64Data mime s :
  one_timer s →
  timers (host (exec (generateVideoWithGemini prompt base64Data mime) s))
  = {[ next_timer (host s) := 0 ]}.
Proof.
  intros Hs. rewrite generateVideo_host. cbn. by rewrite one_timer_cleared.
Qed.

Lemma generateVideo_one_timer prompt base64Data mime s :
  one_timer s → one_timer (exec (generateVideoWithGemini prompt base64Data mime) s).
Proof.
  intros Hs id k. rewrite generateVideo_timers, generateVideo_vars by done. cbn.
  intros [-> _]%lookup_singleton_Some. done.
Qed.

Lemma actionButton_click_one_timer s :
  one_timer s → one_timer (exec actionButton_click s).
Proof.
  intros Hs. unfold exec, actionButton_click. js_run.
  destruct (truthy (imageBase64 (vars s))); cbn; [|done].
  destruct (truthy (imageMimeType (vars s))); cbn; [|done].
  destruct (trim (promptInput_value (page s))); cbn; [done|].
  destruct (currentMode (vars s)).
  - by apply editImage_one_timer.
  - by apply generateVideo_one_timer.
Qed.

Lemma interval_callback_host id k s :
  host (exec (interval_callback id k) s)
  = set_timers (<[id := (k + 1) `mod` length loadingMessages]> (timers (host s)))
      (host s).
Proof. reflexivity. Qed.

Lemma interval_callback_vars id k s :
  vars (exec (interval_callback id k) s) = vars s.
Proof. reflexivity. Qed.

Lemma interval_callback_one_timer id k s :
  timers (host s) !! id = Some k → one_timer s →
  one_timer (exec (interval_callback id k) s).
Proof.
  intros Hk Hs id' k'. rewrite interval_callback_host, interval_callback_vars.
  cbn [timers set_timers].
  intros [[<- _]|[_ H]]%lookup_insert_Some; by eapply Hs.
Qed.

Lemma step_one_timer ev s s' : step ev s = Some s' → one_timer s → one_timer s'.
Proof.
  intros H Hs. destruct ev; cbn in H.
  - simplify_eq. apply run_job_one_timer, keeps_one_timer; [|done].
    unfold modeEditRadio_change. keeps_tac.
  - simplify_eq. apply run_job_one_timer, keeps_one_timer; [|done].
    unfold modeVideoRadio_change. keeps_tac.
  - simplify_eq. apply run_job_one_timer, keeps_one_timer; [|done].
    unfold promptExamples_change. keeps_tac.
  - by simplify_eq.
  - simplify_eq. apply run_job_one_timer, keeps_one_timer; [|done].
    unfold imageUpload_change. keeps_tac.
  - destruct (actionButton_disabled (page s)); simplify_eq.
    by apply run_job_one_timer, actionButton_click_one_timer.
  - simplify_eq. apply run_job_one_timer, keeps_one_timer; [|done].
    unfold downloadButton_click. keeps_tac.
  - destruct (timers (host s) !! id) as [k|] eqn:Hk; simplify_eq/=.
    apply run_job_one_timer.
    change (one_timer (exec (interval_callback id k) s)).
    by apply interval_callback_one_timer.
  - destruct (pending (host s) !! i) as [t|] eqn:Ht; simplify_eq/=.
    destruct (resume t r) as [job|] eqn:Hr; simplify_eq/=.
    by eapply run_job_one_timer, resume_one_timer.
Qed.

Lemma run_one_timer evs s s' : run evs s = Some s' → one_timer s → one_timer s'.
Proof.
  revert s. induction evs as [|ev evs IH]; intros s H Hs; simplify_eq/=; [done|].
  destruct (step ev s) as [s1|] eqn:Hstep; simplify_eq/=.
  eapply IH; [done|]. by eapply step_one_timer.
Qed.

(** C8: in every state reachable from one in which the only running
    timer is the stored one (as when the page has just loaded), at most
    one rotation timer runs; and starting two video cycles in a row leaves
    exactly the timer of the second one running, the first having been
    cleared. *)
Theorem at_most_one_rotation_timer (s0 : App) (evs : list Event) (s : App) :
  one_timer s0 → run evs s0 = Some s →
  size (timers (host s)) ≤ 1
  ∧ ∀ prompt base64 mime prompt' base64' mime',
      let s1 := exec (generateVideoWithGemini prompt base64 mime) s in
      let s2 := exec (generateVideoWithGemini prompt' base64' mime') s1 in
      timers (host s1) = {[ next_timer (host s) := 0 ]}
      ∧ timers (host s2) = {[ next_timer (host s1) := 0 ]}
      ∧ next_timer (host s1) ≠ next_timer (host s)
      ∧ loadingInterval (vars s2) = Some (next_timer (host s1)).
Proof.
  intros H0 Hrun. pose proof (run_one_timer _ _ _ Hrun H0) as Hs.
  split; [by apply one_timer_size|].
  intros prompt base64 mime prompt' base64' mime' s1 s2. subst s1 s2.
  rewrite !generateVideo_timers by (done || by apply generateVideo_one_timer).
  rewrite generateVideo_vars, generateVideo_host. cbn.
  repeat split. lia.
Qed.

Lemma at_most_one_rotation_timer_witness :
  one_timer fresh
  ∧ run [ImageUploadChange (Some sample_file);
         Settle 0 (Loaded (lit "data:image/png;base64,AAAA"));
         ModeVideoChange true; ActionClick] fresh = Some filming
  ∧ size (timers (host filming)) ≤ 1
  ∧ ∀ prompt base64 mime prompt' base64' mime',
      let s1 := exec (generateVideoWithGemini prompt base64 mime) filming in
      let s2 := exec (generateVideoWithGemini prompt' base64' mime') s1 in
      timers (host s1) = {[ next_timer (host filming) := 0 ]}
      ∧ timers (host s2) = {[ next_timer (host s1) := 0 ]}
      ∧ next_timer (host s1) ≠ next_timer (host filming)
      ∧ loadingInterval (vars s2) = Some (next_timer (host s1)).
Proof.
  split; [by apply no_timer_one_timer|]. split; [by vm_compute|].
  apply (at_most_one_rotation_timer fresh
           [ImageUploadChange (Some sample_file);
            Settle 0 (Loaded (lit "data:image/png;base64,AAAA"));
            ModeVideoChange true; ActionClick] filming);
    [by apply no_timer_one_timer|by vm_compute].
Defined.

(** ** The download affordance *)

#[global] Instance same_result_preorder : PreOrder same_result.
Proof.
  split; [done|]. intros s1 s2 s3 [] []. unfold same_result in *.
  split; congruence.
Qed.

#[global] Instance still_target_when_visible_preorder :
  PreOrder still_target_when_visible.
Proof. split; [by intros s H|]. intros s1 s2 s3 H12 H23 H. by apply H23, H12. Qed.

Lemma keeps_weaken (R R' : relation App) {A} (m : JS A) :
  (∀ s s', R s s' → R' s s') → keeps R m → keeps R' m.
Proof. intros H Hm s. apply H, Hm. Qed.

Lemma same_result_still s s' : same_result s s' → still_target_when_visible s s'.
Proof. intros [Hh Hu] H. unfold target_when_visible in *. by rewrite Hh, Hu. Qed.

Lemma hidden_still s s' :
  downloadButton_hidden (page s') = true → still_target_when_visible s s'.
Proof. intros Hh _ H. congruence. Qed.

Lemma render_parts_keeps_target prompt ps found :
  keeps still_target_when_visible (render_parts prompt ps found).
Proof.
  intros s H. destruct (render_parts_spec prompt ps found s) as (_ & _ & _ & _ & Hu & Hd).
  unfold target_when_visible in *. rewrite Hu, Hd.
  destruct (omap inlineData ps) as [|y l] eqn:E; [done|]. intros _.
  destruct (last (y :: l)) eqn:El; [done|]. by apply last_None in El.
Qed.

Lemma setLoading_keeps_target b m : keeps still_target_when_visible (setLoading b m).
Proof.
  destruct b.
  - intros s. apply hidden_still. by rewrite start_loading_page.
  - apply (keeps_weaken same_result); [apply same_result_still|].
    intros s. split; [by rewrite stop_loading_page|by rewrite stop_loading_vars].
Qed.

Lemma displayError_keeps_target message :
  keeps still_target_when_visible (displayError message).
Proof. intros s. by apply hidden_still. Qed.

Lemma video_show_keeps_target videoBlob :
  keeps still_target_when_visible (video_show videoBlob).
Proof. intros s _ _. by rewrite video_show_vars. Qed.

Ltac keeps_target :=
  keeps_tac;
  first [ apply render_parts_keeps_target
        | apply setLoading_keeps_target
        | apply displayError_keeps_target
        | apply video_show_keeps_target
        | apply keeps_update; [tc_solve|];
          intros ?; apply same_result_still; by split ].

Lemma resume_keeps_target t r job :
  resume t r = Some job → keeps still_target_when_visible job.
Proof.
  destruct t, r; intros H; simplify_eq/=;
    unfold reader_onload, editImageWithGemini_resume, render_response, video_poll.
  all: keeps_target.
Qed.

Lemma run_job_same_result job s : same_result (exec job s) (run_job job s).
Proof. unfold exec, run_job. by destruct (job s) as [[[t|]|e] s1]. Qed.

Lemma run_job_keeps_target job s :
  keeps still_target_when_visible job →
  target_when_visible s → target_when_visible (run_job job s).
Proof.
  intros Hjob Hs. eapply same_result_still; [apply run_job_same_result|].
  by apply Hjob.
Qed.

Lemma step_keeps_target ev s s' :
  step ev s = Some s' → target_when_visible s → target_when_visible s'.
Proof.
  intros H Hs. destruct ev; cbn in H.
  - simplify_eq. apply run_job_keeps_target; [|done].
    unfold modeEditRadio_change. keeps_target.
  - simplify_eq. apply run_job_keeps_target; [|done].
    unfold modeVideoRadio_change. keeps_target.
  - simplify_eq. apply run_job_keeps_target; [|done].
    unfold promptExamples_change. keeps_target.
  - by simplify_eq.
  - simplify_eq. apply run_job_keeps_target; [|done].
    unfold imageUpload_change. keeps_target.
  - destruct (actionButton_disabled (page s)); simplify_eq.
    apply run_job_keeps_target; [|done].
    unfold actionButton_click, editImageWithGemini, generateVideoWithGemini,
      setInterval. keeps_target.
  - simplify_eq. apply run_job_keeps_target; [|done].
    unfold downloadButton_click. keeps_target.
  - destruct (timers (host s) !! id) as [k|] eqn:Hk; simplify_eq/=.
    apply run_job_keeps_target; [|done].
    unfold interval_callback. keeps_target.
  - destruct (pending (host s) !! i) as [t|] eqn:Ht; simplify_eq/=.
    destruct (resume t r) as [job|] eqn:Hr; simplify_eq/=.
    apply run_job_keeps_target; [by eapply resume_keeps_target|done].
Qed.

(** In every reachable state, a visible download affordance has a download
    target, whatever the interleaving of the cycles. *)
Lemma visible_download_has_target evs s s' :
  target_when_visible s → run evs s = Some s' → target_when_visible s'.
Proof.
  revert s. induction evs as [|ev evs IH]; intros s Hs H; simplify_eq/=; [done|].
  destruct (step ev s) as [s1|] eqn:Hstep; simplify_eq/=.
  eapply IH; [|done]. by eapply step_keeps_target.
Qed.

(** *** Cycles that do not overlap *)

Lemma blank_consistent s : blank s → consistent s.
Proof. intros [Hh Hu]. unfold consistent. rewrite Hh, Hu. split; [done|]. by intros []. Qed.

Lemma same_result_consistent s s' : same_result s s' → consistent s → consistent s'.
Proof. intros [Hh Hu]. unfold consistent. by rewrite Hh, Hu. Qed.

Lemma same_result_blank s s' : same_result s s' → blank s → blank s'.
Proof. intros [Hh Hu]. unfold blank. by rewrite Hh, Hu. Qed.

Lemma render_response_consistent prompt response s :
  blank s → consistent (exec (render_response prompt response) s).
Proof.
  intros [Hh Hu].
  destruct (parts_missing response) eqn:Hm.
  { unfold exec. rewrite render_response_throws by done. by apply blank_consistent. }
  destruct (existsb renderable (first_parts response)) eqn:E.
  - destruct (render_response_content prompt response s E) as (_ & _ & _ & Hu' & Hd').
    unfold consistent. rewrite Hu', Hd'. cbn. rewrite Hh, Hu.
    destruct (omap inlineData (first_parts response)) as [|y l]; cbn.
    + split; [done|]. by intros [].
    + split; [|done]. intros _.
      destruct (last (y :: l)) eqn:El; [done|]. by apply last_None in El.
  - rewrite render_response_empty by done. apply blank_consistent.
    split; [by rewrite displayError_page|by rewrite displayError_vars].
Qed.

Lemma guarded_ok body handler :
  segment_ok body →
  (∀ e s, blank s → ∃ s', handler e s = (Normal tt, s') ∧ blank s') →
  segment_ok (try_catch_finally body handler (setLoading false None)).
Proof.
  intros Hb Hh s Hs. specialize (Hb s Hs).
  assert (Hstop : ∀ s1, same_result s1 (exec (setLoading false None) s1)).
  { intros s1. split; [by rewrite stop_loading_page|by rewrite stop_loading_vars]. }
  destruct (body s) as [[[t|]|e] s1] eqn:E.
  - by rewrite (try_catch_finally_suspends _ _ _ _ _ _ E).
  - rewrite (try_catch_finally_completes _ _ _ _ _ _ E (setLoading_returns _ _ _)).
    eapply same_result_consistent; [apply Hstop|done].
  - destruct (Hh e s1 Hb) as (s2 & H2 & Hs2).
    rewrite (try_catch_finally_catches _ _ _ _ _ _ _ _ E H2 (setLoading_returns _ _ _)).
    eapply same_result_consistent; [apply Hstop|]. by apply blank_consistent.
Qed.

Lemma resume_segment_ok t r job :
  is_cycle t = true → resume t r = Some job → segment_ok job.
Proof.
  intros Ht Hr.
  assert (Hhandler : ∀ label message e s, blank s →
            ∃ s', (console_error label e;; displayError message) s = (Normal tt, s')
                  ∧ blank s').
  { intros label message e s [_ Hu]. eexists. split; [reflexivity|]. by split. }
  destruct t, r; simplify_eq/=; unfold editImageWithGemini_resume, video_try;
    (apply guarded_ok; [|by intros; apply Hhandler]); intros s Hs.
  - rewrite bind_run. cbn [settled mret JS_ret]. rewrite bind_run.
    lazymatch goal with
    | |- context [render_response _ ?reply] => destruct (parts_missing reply) eqn:Hm
    end.
    + rewrite render_response_throws by done. by destruct Hs.
    + rewrite render_response_returns by done. by apply render_response_consistent.
  - done.
  - unfold video_poll. destruct (done operation); cbn [negb].
    + destruct (truthy (downloadLink operation)).
      * rewrite bind_run. cbn. split; [done|]. by destruct Hs.
      * cbn. apply blank_consistent. by destruct Hs.
    + cbn. split; [done|]. by destruct Hs.
  - done.
  - cbn. split; [done|]. by destruct Hs.
  - unfold video_poll. destruct (done operation); cbn [negb].
    + destruct (truthy (downloadLink operation)).
      * rewrite bind_run. cbn. split; [done|]. by destruct Hs.
      * cbn. apply blank_consistent. by destruct Hs.
    + cbn. split; [done|]. by destruct Hs.
  - done.
  - cbn. split; [done|]. by destruct Hs.
  - done.
  - cbn. split; [done|]. by eexists.
  - done.
Qed.

Lemma filter_delete_other (l : list Task) i t :
  l !! i = Some t → is_cycle t = false →
  filter is_cycle (delete i l) = filter is_cycle l.
Proof.
  revert i. induction l as [|x l IH]; intros [|i] H Ht; simplify_eq/=.
  - rewrite filter_cons_False; [done|]. by apply Is_true_false.
  - rewrite !filter_cons. by rewrite (IH i).
Qed.

Lemma filter_delete_only (l : list Task) i t c :
  l !! i = Some t → is_cycle t = true → filter is_cycle l = [c] →
  filter is_cycle (delete i l) = [].
Proof.
  revert i. induction l as [|x l IH]; intros [|i] H Ht Hc; simplify_eq/=.
  - rewrite filter_cons_True in Hc by by apply Is_true_true. by simplify_eq.
  - rewrite filter_cons in Hc |- *. destruct (decide (is_cycle x)).
    + injection Hc as -> Hnil.
      assert (t ∈ filter is_cycle l) as Hin.
      { apply list_elem_of_filter. split; [by apply Is_true_true|by eapply list_elem_of_lookup_2]. }
      rewrite Hnil in Hin. by apply not_elem_of_nil in Hin.
    + by eapply IH.
Qed.

Lemma filter_one_or_none (l : list Task) i t :
  l !! i = Some t → is_cycle t = true →
  match filter is_cycle l with [] => True | [_] => True | _ => False end →
  ∃ c, filter is_cycle l = [c].
Proof.
  intros H Ht Hl.
  assert (t ∈ filter is_cycle l) as Hin.
  { apply list_elem_of_filter. split; [by apply Is_true_true|by eapply list_elem_of_lookup_2]. }
  destruct (filter is_cycle l) as [|c [|]]; [by apply not_elem_of_nil in Hin|by eexists|done].
Qed.

(** The tasks pending after a job: those before, and the one it suspended
    at, if any. *)
Lemma run_job_pending job s :
  keeps same_pending job →
  pending (host (run_job job s))
  = pending (host s) ++ match (job s).1 with
                        | Normal (Some t) => [t]
                        | _ => []
                        end.
Proof.
  intros H. specialize (H s). unfold exec, same_pending, run_job in *.
  destruct (job s) as [[[t|]|e] s1]; cbn in *; rewrite H; [done|..];
    by rewrite app_nil_r.
Qed.

(** A job that neither touches the result nor starts a cycle. *)
Lemma quiet_job_serialized job s :
  keeps same_pending job → keeps same_result job →
  (∀ t, (job s).1 = Normal (Some t) → is_cycle t = false) →
  cycles (run_job job s) = cycles s ∧ same_result s (run_job job s).
Proof.
  intros Hp Hr Ht. split.
  - unfold cycles. rewrite run_job_pending by done. rewrite filter_app.
    destruct (job s).1 as [[t|]|e] eqn:E; rewrite ?filter_nil, ?app_nil_r; try done.
    rewrite filter_cons_False, filter_nil, app_nil_r; [done|].
    by apply Is_true_false, Ht.
  - etrans; [apply Hr|apply run_job_same_result].
Qed.

Lemma serialized_quiet s s' :
  cycles s' = cycles s → same_result s s' → serialized s → serialized s'.
Proof.
  intros Hc Hr [Hcons Hcyc]. split; [by eapply same_result_consistent|].
  rewrite Hc. destruct (cycles s) as [|c [|]]; [done| |done].
  by eapply same_result_blank.
Qed.

Lemma sequel_never_suspends (m : JS unit) s (t : Task) :
  ((m;; mret None) s).1 = Normal (Some t) → is_cycle t = false.
Proof. rewrite bind_run. by destruct (m s) as [[[]|e] s1]. Qed.

Lemma reader_onload_keeps_result result : keeps same_result (reader_onload result).
Proof. unfold reader_onload. keeps_tac. Qed.

Lemma reader_onload_keeps_pending result : keeps same_pending (reader_onload result).
Proof. unfold reader_onload. keeps_tac. Qed.

Lemma imageUpload_change_outcome file s :
  (imageUpload_change file s).1
  = Normal (if file is Some _ then Some ReaderOnload else None).
Proof. by destruct file. Qed.

Lemma editImage_returns prompt base64Data mime s :
  editImageWithGemini prompt base64Data mime s
  = (Normal (Some (EditAwaitGenerateContent prompt)),
     exec (editImageWithGemini prompt base64Data mime) s).
Proof.
  unfold exec, editImageWithGemini. by rewrite bind_run, setLoading_returns.
Qed.

(** Starting a cycle leaves nothing to download. *)
Lemma editImage_blank prompt base64Data mime s :
  blank (exec (editImageWithGemini prompt base64Data mime) s).
Proof.
  assert (H : exec (editImageWithGemini prompt base64Data mime) s
              = exec (emit (GenerateContent (lit "gemini-2.5-flash-image")
                              base64Data mime prompt))
                  (exec (setLoading true None) s)).
  { unfold exec at 1, editImageWithGemini. by rewrite bind_run, setLoading_returns. }
  rewrite H, exec_emit.
  split; cbn; [by rewrite start_loading_page|by rewrite start_loading_vars].
Qed.

Lemma generateVideo_blank prompt base64Data mime s :
  blank (exec (generateVideoWithGemini prompt base64Data mime) s).
Proof.
  split; [|by rewrite generateVideo_vars].
  unfold exec, generateVideoWithGemini. rewrite bind_run, setLoading_returns.
  unfold setInterval. js_run. by rewrite start_loading_page.
Qed.

Lemma actionButton_click_keeps_pending : keeps same_pending actionButton_click.
Proof.
  unfold actionButton_click, editImageWithGemini, generateVideoWithGemini, setInterval.
  keeps_tac; apply setLoading_keeps_pending.
Qed.

(** A click either fails validation, touching nothing but the log, or
    starts a cycle. *)
Lemma actionButton_click_outcome s :
  ((actionButton_click s).1 = Normal None
   ∧ same_result s (exec actionButton_click s))
  ∨ (∃ t, (actionButton_click s).1 = Normal (Some t) ∧ is_cycle t = true
          ∧ blank (exec actionButton_click s)).
Proof.
  unfold exec, actionButton_click. js_run.
  destruct (truthy (imageBase64 (vars s))); cbn; [|by left].
  destruct (truthy (imageMimeType (vars s))); cbn; [|by left].
  destruct (trim (promptInput_value (page s))); cbn; [by left|]. right.
  destruct (currentMode (vars s)).
  - rewrite editImage_returns. eexists. split; [done|]. split; [done|].
    apply editImage_blank.
  - rewrite generateVideo_returns. eexists. split; [done|]. split; [done|].
    apply generateVideo_blank.
Qed.

Lemma dequeue_same_result i s : same_result s (dequeue i s).
Proof. done. Qed.

Lemma step_serialized ev s s' :
  permitted ev s = true → step ev s = Some s' → serialized s → serialized s'.
Proof.
  intros Hperm H Hs. destruct ev; cbn in H.
  - simplify_eq. edestruct quiet_job_serialized as [Hc Hr];
      [| |intros t; apply sequel_never_suspends|by eapply serialized_quiet];
      unfold modeEditRadio_change; keeps_tac.
  - simplify_eq. edestruct quiet_job_serialized as [Hc Hr];
      [| |intros t; apply sequel_never_suspends|by eapply serialized_quiet];
      unfold modeVideoRadio_change; keeps_tac.
  - simplify_eq. edestruct quiet_job_serialized as [Hc Hr];
      [| |intros t; apply sequel_never_suspends|by eapply serialized_quiet];
      unfold promptExamples_change; keeps_tac.
  - simplify_eq. by eapply serialized_quiet.
  - simplify_eq. edestruct (quiet_job_serialized (imageUpload_change file) s) as [Hc Hr];
      [| |intros t; rewrite imageUpload_change_outcome; destruct file; intros ?; by simplify_eq
       |by eapply serialized_quiet]; unfold imageUpload_change; keeps_tac.
  - destruct (actionButton_disabled (page s)); simplify_eq.
    cbn in Hperm. destruct (cycles s) as [|c cs] eqn:Hc; [|done].
    pose proof (run_job_pending _ s actionButton_click_keeps_pending) as Hp.
    pose proof (run_job_same_result actionButton_click s) as Hr.
    destruct (actionButton_click_outcome s) as [[Hout Hsame]|(t & Hout & Ht & Hb)];
      rewrite Hout in Hp; unfold serialized, cycles; rewrite Hp.
    + rewrite app_nil_r. fold (cycles s). rewrite Hc.
      split; [|done]. destruct Hs as [Hs _].
      eapply same_result_consistent; [|done]. by etrans.
    + rewrite filter_app. fold (cycles s). rewrite Hc.
      rewrite filter_cons_True, filter_nil by by apply Is_true_true. cbn.
      assert (blank (run_job actionButton_click s)) by by eapply same_result_blank.
      split; [by apply blank_consistent|done].
  - simplify_eq. edestruct quiet_job_serialized as [Hc Hr];
      [| |intros t; apply sequel_never_suspends|by eapply serialized_quiet];
      unfold downloadButton_click; keeps_tac.
  - destruct (timers (host s) !! id) as [k|] eqn:Hk; simplify_eq/=.
    edestruct quiet_job_serialized as [Hc Hr];
      [| |intros t; apply sequel_never_suspends|by eapply serialized_quiet];
      unfold interval_callback; keeps_tac.
  - destruct (pending (host s) !! i) as [t|] eqn:Ht; simplify_eq/=.
    destruct (resume t r) as [job|] eqn:Hr; simplify_eq/=.
    pose proof (run_job_pending _ (dequeue i s) (resume_keeps_pending _ _ _ Hr)) as Hp.
    pose proof (run_job_same_result job (dequeue i s)) as Hsame.
    destruct (is_cycle t) eqn:Hcyc.
    + destruct Hs as [Hcons Hcs].
      destruct (filter_one_or_none _ _ _ Ht Hcyc) as [c Hc].
      { fold (cycles s). by destruct (cycles s) as [|? [|]]. }
      unfold cycles in Hcs. rewrite Hc in Hcs.
      pose proof (resume_segment_ok _ _ _ Hcyc Hr (dequeue i s) Hcs) as Hseg.
      unfold serialized, cycles. rewrite Hp.
      cbn [dequeue with_host host pending set_pending].
      rewrite filter_app, (filter_delete_only _ _ _ _ Ht Hcyc Hc). cbn [app].
      unfold exec in Hsame.
      destruct (job (dequeue i s)) as [[[t'|]|e] s1] eqn:Hjob; cbn [fst] in *.
      * destruct Hseg as [Ht' Hb].
        rewrite filter_cons_True, filter_nil by by apply Is_true_true.
        assert (blank (run_job job (dequeue i s))) by by eapply same_result_blank.
        split; [by apply blank_consistent|done].
      * rewrite filter_nil. split; [|done]. by eapply same_result_consistent.
      * rewrite filter_nil. split; [|done].
        eapply same_result_consistent; [done|]. by apply blank_consistent.
    + destruct t; try done.
      assert (Hq : cycles (run_job job (dequeue i s)) = cycles (dequeue i s)
                   ∧ same_result (dequeue i s) (run_job job (dequeue i s))).
      { destruct r; simplify_eq/=.
        - apply quiet_job_serialized;
            [keeps_tac; apply reader_onload_keeps_pending
            |keeps_tac; apply reader_onload_keeps_result
            |intros t; apply sequel_never_suspends].
        - apply quiet_job_serialized; [keeps_tac..|by intros t]. }
      destruct Hq as [Hc Hres].
      eapply serialized_quiet; [| |done].
      * rewrite Hc. unfold cycles. cbn. by eapply filter_delete_other.
      * done.
Qed.

(** As long as no cycle is started while another is in flight, the
    download affordance is visible exactly when a download target is
    set. *)
Lemma serialized_runs_consistent evs s s' :
  serialized s → run_serialized evs s = Some s' → consistent s'.
Proof.
  intros Hs H. cut (serialized s'); [by intros []|].
  revert s Hs H. induction evs as [|ev evs IH]; intros s Hs H; simplify_eq/=; [done|].
  destruct (permitted ev s) eqn:Hperm; [|done].
  destruct (step ev s) as [s1|] eqn:Hstep; simplify_eq/=.
  eapply IH; [|done]. by eapply step_serialized.
Qed.

Lemma fresh_serialized : serialized fresh.
Proof. split; [by apply blank_consistent|done]. Qed.

(** *** Overlapping cycles *)

(** C3 (at the failing input): two overlapping edit cycles, the first
    answered with an image and the second then rejected, leave the
    download affordance hidden although the download target is set. *)
Theorem download_hidden_with_target_set :
  ∃ s', run (second_cycle
             ++ [Settle 0 (ContentResolved one_image); Settle 0 unavailable])
          editing = Some s'
        ∧ downloadButton_hidden (page s') = true
        ∧ resultUrl (vars s') = Some (data_url first_image).
Proof. eexists. split; [by vm_compute|]. by vm_compute. Qed.

(** In the other direction: the first cycle answered with an image, the
    second with a caption only; the affordance stays visible while the
    result area shows no image. *)
Example download_visible_without_image :
  ∃ s', run (second_cycle
             ++ [Settle 0 (ContentResolved one_image);
                 Settle 0 (ContentResolved caption_only)])
          editing = Some s'
        ∧ downloadButton_hidden (page s') = false
        ∧ resultContainer (page s')
          = [PEl [] (lit "model-text") (lit "Listo")].
Proof. eexists. split; [by vm_compute|]. by vm_compute. Qed.

(** ** Request Orchestrator: starting a cycle *)

(** A click that passes validation hands the stored media and the prompt,
    as typed, to the function of the current mode. *)
Lemma valid_click s base64 mime :
  imageBase64 (vars s) = Some base64 → base64 ≠ [] →
  imageMimeType (vars s) = Some mime → mime ≠ [] →
  trim (promptInput_value (page s)) ≠ [] →
  actionButton_click s
  = match currentMode (vars s) with
    | ModeEdit => editImageWithGemini (promptInput_value (page s)) base64 mime
    | ModeVideo => generateVideoWithGemini (promptInput_value (page s)) base64 mime
    end (with_page (set_resultPlaceholder_hidden true) s).
Proof.
  intros Hb Hbne Hm Hmne Hp. unfold actionButton_click. js_run. rewrite Hb, Hm.
  destruct base64; [done|]. destruct mime; [done|]. cbn.
  destruct (trim (promptInput_value (page s))); [done|]. cbn.
  by destruct (currentMode (vars s)).
Qed.

Lemma editImage_exec prompt base64Data mime s :
  exec (editImageWithGemini prompt base64Data mime) s
  = exec (emit (GenerateContent (lit "gemini-2.5-flash-image") base64Data mime prompt))
      (exec (setLoading true None) s).
Proof. unfold exec at 1, editImageWithGemini. by rewrite bind_run, setLoading_returns. Qed.

Lemma generateVideo_page prompt base64Data mime s :
  page (exec (generateVideoWithGemini prompt base64Data mime) s)
  = page (exec (setLoading true (loadingMessages !! 0)) s).
Proof.
  unfold exec at 1, generateVideoWithGemini. rewrite bind_run, setLoading_returns.
  unfold setInterval. by js_run.
Qed.

(** X1: in edit mode, a click on the enabled action trigger with media
    stored and a prompt that is not blank starts an edit cycle: exactly one
    content-generation request is issued, carrying the stored media and the
    prompt as typed (not trimmed); the cycle waits for the reply; the
    result area holds the busy indicator alone, the placeholder and the
    download affordance are hidden, the previous download target is
    dropped; and the action trigger cannot be clicked again. *)
Theorem click_starts_edit_cycle (s : App) (base64 mime : jsstring) :
  actionButton_disabled (page s) = false →
  imageBase64 (vars s) = Some base64 → base64 ≠ [] →
  imageMimeType (vars s) = Some mime → mime ≠ [] →
  trim (promptInput_value (page s)) ≠ [] →
  currentMode (vars s) = ModeEdit →
  ∃ s', step ActionClick s = Some s'
        ∧ trace (host s')
          = trace (host s)
            ++ [GenerateContent (lit "gemini-2.5-flash-image") base64 mime
                  (promptInput_value (page s))]
        ∧ pending (host s')
          = pending (host s) ++ [EditAwaitGenerateContent (promptInput_value (page s))]
        ∧ resultContainer (page s') = [LoaderEl]
        ∧ loader_hidden (page s') = false
        ∧ resultPlaceholder_hidden (page s') = true
        ∧ downloadButton_hidden (page s') = true
        ∧ resultUrl (vars s') = None
        ∧ step ActionClick s' = None.
Proof.
  intros Hen Hb Hbne Hm Hmne Hp Hmode. eexists. split.
  { unfold step. by rewrite Hen. }
  unfold run_job. rewrite (valid_click s base64 mime), Hmode, editImage_returns by done.
  unfold step. cbn. rewrite !editImage_exec, !exec_emit. cbn.
  rewrite !start_loading_page, !start_loading_host, !start_loading_vars. cbn.
  by repeat split.
Qed.

(** X2: in video mode, the same click starts a video cycle: exactly one
    job-creation request is issued for one video, carrying the prompt as
    typed and the stored media; the result area holds the busy indicator
    followed by the first loading message; a rotation timer is started with
    its handle stored; the download affordance is hidden and the previous
    download target dropped; and the action trigger cannot be clicked
    again. *)
Theorem click_starts_video_cycle (s : App) (base64 mime : jsstring) :
  actionButton_disabled (page s) = false →
  imageBase64 (vars s) = Some base64 → base64 ≠ [] →
  imageMimeType (vars s) = Some mime → mime ≠ [] →
  trim (promptInput_value (page s)) ≠ [] →
  currentMode (vars s) = ModeVideo →
  ∃ s', step ActionClick s = Some s'
        ∧ trace (host s')
          = trace (host s)
            ++ [GenerateVideos (lit "veo-2.0-generate-001")
                  (promptInput_value (page s)) base64 mime 1]
        ∧ pending (host s') = pending (host s) ++ [VideoAwaitGenerateVideos]
        ∧ resultContainer (page s')
          = [LoaderEl;
             PEl (lit "loader-text") [] (lit "Iniciando la generación de video...")]
        ∧ loader_hidden (page s') = false
        ∧ resultPlaceholder_hidden (page s') = true
        ∧ downloadButton_hidden (page s') = true
        ∧ resultUrl (vars s') = None
        ∧ loadingInterval (vars s') = Some (next_timer (host s))
        ∧ timers (host s') !! next_timer (host s) = Some 0
        ∧ step ActionClick s' = None.
Proof.
  intros Hen Hb Hbne Hm Hmne Hp Hmode. eexists. split.
  { unfold step. by rewrite Hen. }
  unfold run_job. rewrite (valid_click s base64 mime), Hmode, generateVideo_returns by done.
  unfold step. cbn.
  rewrite !generateVideo_page, !generateVideo_host, !generateVideo_vars,
    !start_loading_page, first_message_truthy. cbn.
  repeat split. apply lookup_insert_eq.
Qed.

(** ** Request Orchestrator: how a video cycle ends *)

Lemma video_try_catches body s e s1 :
  body s = (Throw e, s1) →
  run_job (video_try body) s
  = exec (setLoading false None)
      (exec (displayError (lit "Ocurrió un error en la generación del video. Por favor, revisa la consola."))
         (exec (console_error (lit "Error calling Gemini API for video generation:") e) s1)).
Proof.
  intros H. unfold run_job, video_try.
  by rewrite (try_catch_finally_catches _ _ _ _ _ _ _ _ H eq_refl (setLoading_returns _ _ _)).
Qed.

(** X3: when the video job is reported done but carries no usable link
    (no response, no or no first generated video, no video, or a missing or
    empty link), the cycle ends without fetching anything: no further
    effect is issued, the result area holds exactly one error paragraph
    asking to try again, the download affordance is hidden, the busy
    indicator is hidden and the action trigger enabled. *)
Theorem video_without_link_shows_error (s : App) (i : nat) (t : Task)
    (operation : Operation) :
  pending (host s) !! i = Some t →
  t = VideoAwaitGenerateVideos ∨ t = VideoAwaitGetVideosOperation →
  done operation = true →
  truthy (downloadLink operation) = false →
  ∃ s', step (Settle i (OperationResolved operation)) s = Some s'
        ∧ pending (host s') = delete i (pending (host s))
        ∧ trace (host s') = trace (host s)
        ∧ resultContainer (page s')
          = [PEl [] (lit "error") (lit "No se pudo generar el video. Inténtalo de nuevo.")]
        ∧ downloadButton_hidden (page s') = true
        ∧ loader_hidden (page s') = true
        ∧ actionButton_disabled (page s') = false
        ∧ loadingInterval (vars s') = None.
Proof.
  intros Hi Ht Hd Hl. eexists. split.
  { eapply step_settle; [exact Hi|by destruct Ht as [->| ->]]. }
  rewrite (video_try_completes _ _
             (exec (displayError (lit "No se pudo generar el video. Inténtalo de nuevo."))
                (dequeue i s))).
  2:{ unfold video_poll. by rewrite Hd, Hl. }
  rewrite stop_loading_page, stop_loading_host, stop_loading_vars.
  by rewrite displayError_page, displayError_host.
Qed.

(** X4: when any of the remote calls of a video cycle is rejected (job
    creation, status re-query, the fetch of the video, the read of its
    body), the cycle ends: the detail goes to the console only, the result
    area holds exactly one paragraph with the generic video error message,
    the download affordance is hidden, the busy indicator is hidden and the
    action trigger enabled. *)
Theorem video_rejection_shows_error (s : App) (i : nat) (t : Task) (error : JsError) :
  pending (host s) !! i = Some t →
  t = VideoAwaitGenerateVideos ∨ t = VideoAwaitGetVideosOperation
  ∨ t = VideoAwaitFetch ∨ t = VideoAwaitBlob →
  ∃ s', step (Settle i (Rejected error)) s = Some s'
        ∧ pending (host s') = delete i (pending (host s))
        ∧ trace (host s')
          = trace (host s)
            ++ [ConsoleError (lit "Error calling Gemini API for video generation:") error]
        ∧ resultContainer (page s')
          = [PEl [] (lit "error")
               (lit "Ocurrió un error en la generación del video. Por favor, revisa la consola.")]
        ∧ downloadButton_hidden (page s') = true
        ∧ loader_hidden (page s') = true
        ∧ actionButton_disabled (page s') = false
        ∧ loadingInterval (vars s') = None.
Proof.
  intros Hi Ht. eexists. split.
  { eapply step_settle; [exact Hi|by destruct Ht as [->|[->|[->| ->]]]]. }
  rewrite (video_try_catches _ _ error (dequeue i s)) by done.
  rewrite stop_loading_page, stop_loading_host, stop_loading_vars.
  by rewrite displayError_page, displayError_host.
Qed.

(** ** Request Orchestrator: polling for as long as it takes *)

Lemma polls_in_flight s0 task effects s ops :
  task = VideoAwaitGenerateVideos ∨ task = VideoAwaitGetVideosOperation →
  in_flight s0 task effects s →
  forallb (negb ∘ done) ops = true →
  ∃ s' task',
    (task' = VideoAwaitGenerateVideos ∨ task' = VideoAwaitGetVideosOperation)
    ∧ run (poll_events (length (pending (host s0))) ops) s = Some s'
    ∧ in_flight s0 task' (effects ++ poll_effects ops) s'
    ∧ vars s' = vars s ∧ page s' = page s.
Proof.
  revert task effects s. induction ops as [|op ops IH]; intros task effects s Ht Hf Hops.
  - exists s, task. unfold poll_effects. cbn. by rewrite app_nil_r.
  - cbn in Hops. apply andb_prop in Hops as [Hop Hops].
    apply negb_true_iff in Hop.
    destruct (poll_again _ _ _ _ op Ht Hf Hop) as (a & Ha & Fa & Hva & Hpa).
    destruct (requery _ _ _ _ Fa) as (b & Hb & Fb & Hvb & Hpb).
    destruct (IH _ _ _ (or_intror eq_refl) Fb Hops) as (s' & task' & Ht' & Hs' & Fs' & Hv' & Hp').
    exists s', task'. split; [done|]. split.
    { change (poll_events (length (pending (host s0))) (op :: ops))
        with (Settle (length (pending (host s0))) (OperationResolved op)
              :: Settle (length (pending (host s0))) TimerFired
              :: poll_events (length (pending (host s0))) ops).
      cbn [run]. rewrite Ha. cbn [mbind option_bind]. rewrite Hb. exact Hs'. }
    split; [|split; congruence].
    change (poll_effects (op :: ops))
      with ([SetTimeout 10000; GetVideosOperation op] ++ poll_effects ops).
    by rewrite <- !app_assoc in Fs'.
Qed.

(** X5: a video cycle polls for as long as the job is not done, whatever
    the number of handles that arrive not done (none included): each of
    them is followed by one 10-second wait and one re-query of that very
    handle, and nothing else is issued until a handle arrives done; with a
    link in it, the video is then fetched from the link with the API key
    appended and shown, the object URL of its body becoming the download
    target. *)
Theorem video_polls_until_done (s : App) (base64 mime link : jsstring)
    (ops : list Operation) (last_op : Operation) (videoBlob : Blob) :
  actionButton_disabled (page s) = false →
  imageBase64 (vars s) = Some base64 → base64 ≠ [] →
  imageMimeType (vars s) = Some mime → mime ≠ [] →
  trim (promptInput_value (page s)) ≠ [] →
  currentMode (vars s) = ModeVideo →
  forallb (negb ∘ done) ops = true →
  done last_op = true → downloadLink last_op = Some link → link ≠ [] →
  let i := length (pending (host s)) in
  ∃ s', run (ActionClick :: poll_events i ops
             ++ [Settle i (OperationResolved last_op);
                 Settle i FetchResolved;
                 Settle i (BlobResolved videoBlob)]) s = Some s'
        ∧ trace (host s')
          = trace (host s)
            ++ GenerateVideos (lit "veo-2.0-generate-001")
                 (promptInput_value (page s)) base64 mime 1
               :: poll_effects ops
            ++ [Fetch (link ++ lit "&key=" ++ API_KEY (host s));
                ResponseBlob; CreateObjectURL videoBlob]
        ∧ pending (host s') = pending (host s)
        ∧ resultUrl (vars s') = Some (blob_url videoBlob)
        ∧ resultContainer (page s')
          = [VideoEl (blob_url videoBlob) true true true true]
        ∧ downloadButton_hidden (page s') = false.
Proof.
  intros Hen Hb Hbne Hm Hmne Hp Hmode Hops Hd Hl Hne i.
  destruct (click_starts_video s base64 mime) as (a & Ha & Fa); [done..|].
  destruct (polls_in_flight _ _ _ _ ops (or_introl eq_refl) Fa Hops)
    as (b & task & Ht & Hb' & Fb & _).
  destruct (fetch_video _ _ _ _ last_op link Ht Fb Hd Hl Hne) as (c & Hc & Fc & _).
  destruct (read_body _ _ _ Fc) as (d & Hd' & Fd & _).
  destruct (show_video _ _ _ videoBlob Fd) as (e & He & Hpe & Htr & Hu & Hc0 & Hhid).
  exists e. split.
  - cbn [run]. rewrite Ha. cbn [mbind option_bind]. rewrite run_app. subst i.
    rewrite Hb'. cbn [mbind option_bind run]. rewrite Hc. cbn [mbind option_bind].
    rewrite Hd'. cbn [mbind option_bind]. by rewrite He.
  - rewrite Htr. cbn. rewrite <- !app_assoc. by repeat split.
Qed.

(** ** Request Orchestrator: what a cycle remembers *)

Lemma step_edits_form ev s :
  edits_form ev = true → ∃ s', step ev s = Some s' ∧ host s' = host s.
Proof.
  destruct ev; try done; intros _; eexists; (split; [reflexivity|]).
  - by destruct checked.
  - by destruct checked.
  - unfold promptExamples_change. by destruct (truthy _).
  - done.
Qed.

Lemma run_edits_form evs s :
  forallb edits_form evs = true → ∃ s', run evs s = Some s' ∧ host s' = host s.
Proof.
  revert s. induction evs as [|ev evs IH]; intros s H; [by exists s|].
  cbn in H. apply andb_prop in H as [Hev Hevs].
  destruct (step_edits_form ev s Hev) as (s1 & Hs1 & Hh1).
  destruct (IH s1 Hevs) as (s2 & Hs2 & Hh2).
  exists s2. cbn [run]. rewrite Hs1. split; [done|congruence].
Qed.

(** X6: an edit cycle works with the prompt of the moment of the click:
    whatever the user types into the prompt, picks from the examples or
    switches between the modes while the request is in flight, the reply is
    rendered as an edit reply, with the prompt that was sent as the
    alternative text of its images, and no further request is issued. *)
Theorem reply_rendered_with_prompt_of_click (s : App) (base64 mime : jsstring)
    (evs : list Event) (response : GenerateContentResponse)
    (c : Candidate) (cs : list Candidate) (ps : list Part) :
  actionButton_disabled (page s) = false →
  imageBase64 (vars s) = Some base64 → base64 ≠ [] →
  imageMimeType (vars s) = Some mime → mime ≠ [] →
  trim (promptInput_value (page s)) ≠ [] →
  currentMode (vars s) = ModeEdit →
  forallb edits_form evs = true →
  candidates response = Some (c :: cs) →
  content_parts c = Some ps →
  existsb renderable ps = true →
  ∃ s', run (ActionClick :: evs
             ++ [Settle (length (pending (host s))) (ContentResolved response)]) s
        = Some s'
        ∧ resultContainer (page s')
          = ps ≫= part_element (promptInput_value (page s))
        ∧ trace (host s')
          = trace (host s)
            ++ [GenerateContent (lit "gemini-2.5-flash-image") base64 mime
                  (promptInput_value (page s))]
        ∧ pending (host s') = pending (host s)
        ∧ loader_hidden (page s') = true
        ∧ actionButton_disabled (page s') = false.
Proof.
  intros Hen Hb Hbne Hm Hmne Hp Hmode Hevs Hc Hps Hex.
  set (prompt := promptInput_value (page s)).
  set (s1 := run_job actionButton_click s).
  assert (H1 : step ActionClick s = Some s1).
  { unfold step. by rewrite Hen. }
  assert (Hh1 : host s1
                = set_pending (pending (host s) ++ [EditAwaitGenerateContent prompt])
                    (set_trace (trace (host s)
                                ++ [GenerateContent (lit "gemini-2.5-flash-image")
                                      base64 mime prompt])
                       (set_timers (cleared s) (host s)))).
  { subst s1. unfold run_job.
    rewrite (valid_click s base64 mime), Hmode, editImage_returns by done.
    cbn. rewrite editImage_exec, exec_emit. cbn. by rewrite start_loading_host. }
  destruct (run_edits_form evs s1 Hevs) as (s2 & H2 & Hh2).
  assert (Hi : pending (host s2) !! length (pending (host s))
               = Some (EditAwaitGenerateContent prompt)).
  { rewrite Hh2, Hh1. cbn. by rewrite list_lookup_middle. }
  eexists. split.
  { cbn [run]. rewrite H1. cbn [mbind option_bind]. rewrite run_app, H2.
    cbn [mbind option_bind run].
    erewrite step_settle; [reflexivity|exact Hi|reflexivity]. }
  assert (He : existsb renderable (first_parts response) = true).
  { unfold first_parts. by rewrite Hc, Hps. }
  rewrite (run_job_done _ _ _
             (edit_resume_resolved prompt response (dequeue (length (pending (host s))) s2)
                (renderable_parts_reached response He))).
  rewrite stop_loading_page, stop_loading_host.
  destruct (render_response_content prompt response
              (dequeue (length (pending (host s))) s2) He)
    as (Hhost & _ & Hcont & _ & _).
  unfold first_parts in Hcont. rewrite Hc, Hps in Hcont.
  rewrite Hhost. cbn. rewrite Hh2, Hh1. cbn.
  split; [exact Hcont|]. split; [done|]. split; [|done].
  by rewrite delete_middle, app_nil_r.
Qed.

(** ** Request Orchestrator: what is sent *)

#[global] Instance still_well_formed_preorder : PreOrder still_well_formed.
Proof. split; [by intros s H|]. intros s1 s2 s3 H12 H23 H. by apply H23, H12. Qed.

#[global] Instance same_trace_preorder : PreOrder same_trace.
Proof. split; [done|]. intros s1 s2 s3 H12 H23. unfold same_trace in *. congruence. Qed.

Lemma same_trace_still s s' : same_trace s s' → still_well_formed s s'.
Proof. intros H. unfold still_well_formed, requests_well_formed. by rewrite H. Qed.

(** One more effect, itself well formed. *)
Lemma logged_still e s s' :
  well_formed_request e = true → trace (host s') = trace (host s) ++ [e] →
  still_well_formed s s'.
Proof.
  intros He Ht H. unfold requests_well_formed in *.
  rewrite Ht, forallb_app, H. cbn. by rewrite He.
Qed.

Lemma render_parts_keeps_trace prompt ps found :
  keeps same_trace (render_parts prompt ps found).
Proof.
  revert found. induction ps as [|p ps IH]; intros found; cbn [render_parts].
  - keeps_tac.
  - unfold render_part. keeps_tac. all: apply IH.
Qed.

Lemma setLoading_keeps_trace b m : keeps same_trace (setLoading b m).
Proof. unfold setLoading. keeps_tac. Qed.

(** Everything but a request leaves the requests well formed. *)
Ltac keeps_requests :=
  keeps_tac;
  first [ apply (keeps_weaken same_trace); [apply same_trace_still|];
          first [ apply render_parts_keeps_trace | apply setLoading_keeps_trace ]
        | apply keeps_update; try tc_solve; intros ?;
          first [ apply same_trace_still; reflexivity
                | eapply logged_still; [|reflexivity]; reflexivity ] ].

Lemma resume_keeps_requests t r job :
  resume t r = Some job → keeps still_well_formed job.
Proof.
  destruct t, r; intros H; simplify_eq/=;
    unfold reader_onload, editImageWithGemini_resume, render_response, video_poll,
      video_show.
  all: keeps_requests.
Qed.

Lemma run_job_still_well_formed job s :
  still_well_formed (exec job s) (run_job job s).
Proof.
  unfold exec, run_job. destruct (job s) as [[[t|]|e] s1]; cbn.
  - by apply same_trace_still.
  - done.
  - eapply logged_still; [|reflexivity]; reflexivity.
Qed.

Lemma run_job_keeps_requests job s :
  keeps still_well_formed job →
  requests_well_formed s → requests_well_formed (run_job job s).
Proof. intros Hjob Hs. by apply run_job_still_well_formed, Hjob. Qed.

(** The requests of a click that passes validation. *)
Lemma actionButton_click_keeps_requests : keeps still_well_formed actionButton_click.
Proof.
  intros s. unfold exec, actionButton_click. js_run.
  destruct (imageBase64 (vars s)) as [[|b base64]|] eqn:Hb; cbn;
    try (eapply logged_still; [|reflexivity]; reflexivity).
  destruct (imageMimeType (vars s)) as [[|m mime]|] eqn:Hm; cbn;
    try (eapply logged_still; [|reflexivity]; reflexivity).
  destruct (trim (promptInput_value (page s))) as [|c p] eqn:Hp; cbn;
    [eapply logged_still; [|reflexivity]; reflexivity|].
  destruct (currentMode (vars s)).
  - rewrite editImage_returns. cbn. rewrite editImage_exec.
    etrans; [|eapply logged_still; [|by rewrite exec_emit]].
    + etrans; [|apply (same_trace_still _ _ (setLoading_keeps_trace _ _ _))].
      by apply same_trace_still.
    + cbn. by rewrite Hp.
  - rewrite generateVideo_returns. cbn.
    eapply logged_still; [|by rewrite generateVideo_host].
    cbn. by rewrite Hp.
Qed.

Lemma step_keeps_requests ev s s' :
  step ev s = Some s' → requests_well_formed s → requests_well_formed s'.
Proof.
  intros H Hs. destruct ev; cbn in H.
  - simplify_eq. apply run_job_keeps_requests; [|done].
    unfold modeEditRadio_change. keeps_requests.
  - simplify_eq. apply run_job_keeps_requests; [|done].
    unfold modeVideoRadio_change. keeps_requests.
  - simplify_eq. apply run_job_keeps_requests; [|done].
    unfold promptExamples_change. keeps_requests.
  - by simplify_eq.
  - simplify_eq. apply run_job_keeps_requests; [|done].
    unfold imageUpload_change. keeps_requests.
  - destruct (actionButton_disabled (page s)); simplify_eq.
    apply run_job_keeps_requests; [apply actionButton_click_keeps_requests|done].
  - simplify_eq. apply run_job_keeps_requests; [|done].
    unfold downloadButton_click. keeps_requests.
  - destruct (timers (host s) !! id) as [k|] eqn:Hk; simplify_eq/=.
    apply run_job_keeps_requests; [|done].
    unfold interval_callback. keeps_requests.
  - destruct (pending (host s) !! i) as [t|] eqn:Ht; simplify_eq/=.
    destruct (resume t r) as [job|] eqn:Hr; simplify_eq/=.
    apply run_job_keeps_requests; [by eapply resume_keeps_requests|done].
Qed.

(** X7: started with no ill-formed request in the log (as the freshly
    loaded page is, with an empty log), whatever the events, every
    generation request the script has issued (content generation or video
    job creation) carries media bytes that are not empty, a MIME type that
    is not empty and a prompt that is not blank. *)
Theorem requests_carry_media_and_prompt (s0 : App) (evs : list Event) (s : App) :
  requests_well_formed s0 → run evs s0 = Some s →
  ∀ e, e ∈ trace (host s) →
    match e with
    | GenerateContent _ data mimeType prompt
    | GenerateVideos _ prompt data mimeType _ =>
        data ≠ [] ∧ mimeType ≠ [] ∧ ¬ blank_text prompt
    | _ => True
    end.
Proof.
  intros H0 Hrun.
  assert (Hs : requests_well_formed s).
  { revert s0 H0 Hrun. induction evs as [|ev evs IH]; intros s0 H0 Hrun; simplify_eq/=; [done|].
    destruct (step ev s0) as [s1|] eqn:Hstep; simplify_eq/=.
    eapply IH; [|done]. by eapply step_keeps_requests. }
  intros e He. unfold requests_well_formed in Hs.
  rewrite forallb_forall in Hs. specialize (Hs e).
  assert (Hin : In e (trace (host s))) by by apply list_elem_of_In.
  specialize (Hs Hin).
  assert (Hgen : ∀ data mimeType prompt,
            truthy (Some data) && truthy (Some mimeType) && truthy (Some (trim prompt)) = true →
            data ≠ [] ∧ mimeType ≠ [] ∧ ¬ blank_text prompt).
  { intros data mimeType prompt [[Hd Hm]%andb_prop Hp]%andb_prop.
    split; [by intros ->|]. split; [by intros ->|].
    intros Hb%trim_nil_iff. by rewrite Hb in Hp. }
  destruct e; try done; by apply Hgen.
Qed.

(** ** Media Encoder: the preview, and uploads that are not images *)

Lemma data_url_shape inline :
  data_url inline
  = lit "data" ++ COLON :: mimeType inline ++ SEMICOLON :: lit "base64" ++ COMMA :: data inline.
Proof.
  unfold data_url.
  change (lit "data:") with (lit "data" ++ [COLON]).
  change (lit ";base64,") with (SEMICOLON :: lit "base64" ++ [COMMA]).
  rewrite <- !app_assoc. cbn. by rewrite <- !app_assoc.
Qed.

(** X8: the data URL the Result Renderer builds for an inline image is one
    the upload path accepts and takes apart again: delivered by a pending
    read, it stores exactly the MIME type and the data of the image
    (provided the MIME type has no colon, semicolon or comma and the data
    no comma). *)
Theorem rendered_image_uploads_back (s : App) (i : nat) (inline : InlineData) :
  pending (host s) !! i = Some ReaderOnload →
  COLON ∉ mimeType inline → SEMICOLON ∉ mimeType inline → COMMA ∉ mimeType inline →
  COMMA ∉ data inline →
  ∃ s', step (Settle i (Loaded (data_url inline))) s = Some s'
        ∧ imageMimeType (vars s') = Some (mimeType inline)
        ∧ imageBase64 (vars s') = Some (data inline).
Proof.
  intros Hi Hm1 Hm2 Hm3 Hd. eexists. split.
  { eapply step_settle; [exact Hi|reflexivity]. }
  rewrite data_url_shape.
  by rewrite (run_job_returns _ _ _
                (reader_onload_accepts (lit "data") (mimeType inline) (lit "base64")
                   (data inline) (dequeue i s)
                   ltac:(compute_done) ltac:(compute_done) Hm1 Hm2 Hm3
                   ltac:(compute_done) Hd)).
Qed.

(** X9: a well-formed data URL delivered by a pending read shows the
    preview (the whole data URL as image source, displayed as a block),
    hides the upload placeholder and enables the action trigger, in
    whatever state the page is; the result area, the download affordance,
    the busy indicator, the download target and the log of effects are left
    alone. *)
Theorem upload_shows_preview (s : App) (i : nat) (pre mime rest payload : jsstring) :
  pending (host s) !! i = Some ReaderOnload →
  COLON ∉ pre → COMMA ∉ pre →
  COLON ∉ mime → SEMICOLON ∉ mime → COMMA ∉ mime →
  COMMA ∉ rest → COMMA ∉ payload →
  let result := pre ++ COLON :: mime ++ SEMICOLON :: rest ++ COMMA :: payload in
  ∃ s', step (Settle i (Loaded result)) s = Some s'
        ∧ originalImage_src (page s') = result
        ∧ originalImage_display (page s') = lit "block"
        ∧ uploadPlaceholder_hidden (page s') = true
        ∧ actionButton_disabled (page s') = false
        ∧ resultContainer (page s') = resultContainer (page s)
        ∧ downloadButton_hidden (page s') = downloadButton_hidden (page s)
        ∧ loader_hidden (page s') = loader_hidden (page s)
        ∧ resultUrl (vars s') = resultUrl (vars s)
        ∧ trace (host s') = trace (host s)
        ∧ pending (host s') = delete i (pending (host s)).
Proof.
  intros Hi Hp1 Hp2 Hm1 Hm2 Hm3 Hr Hd result. subst result. eexists. split.
  { eapply step_settle; [exact Hi|reflexivity]. }
  by rewrite (run_job_returns _ _ _
                (reader_onload_accepts pre mime rest payload (dequeue i s)
                   Hp1 Hp2 Hm1 Hm2 Hm3 Hr Hd)).
Qed.

Lemma reader_onload_without_colon header payload s :
  COLON ∉ header → COMMA ∉ header → COMMA ∉ payload →
  reader_onload (header ++ COMMA :: payload) s = (Throw TypeErrorObj, s).
Proof.
  intros Hc Hh Hp. unfold reader_onload.
  rewrite split_app, (split_absent COMMA payload) by done. cbn.
  by rewrite (split_absent COLON header).
Qed.

(** X10: a data URL with exactly one comma whose header has no colon is
    not reported as an invalid data URL: taking the MIME type out of the
    header raises a TypeError, which nobody catches; nothing is stored and
    the page is left alone. *)
Theorem upload_without_colon_throws (s : App) (i : nat) (header payload : jsstring) :
  pending (host s) !! i = Some ReaderOnload →
  COLON ∉ header → COMMA ∉ header → COMMA ∉ payload →
  ∃ s', step (Settle i (Loaded (header ++ COMMA :: payload))) s = Some s'
        ∧ vars s' = vars s ∧ page s' = page s
        ∧ trace (host s') = trace (host s) ++ [Uncaught TypeErrorObj].
Proof.
  intros Hi Hc Hh Hp. eexists. split.
  { eapply step_settle; [exact Hi|reflexivity]. }
  by rewrite (run_job_throws _ _ _ _
                (reader_onload_without_colon header payload (dequeue i s) Hc Hh Hp)).
Qed.

(** X11: a data URL with an empty MIME type or an empty payload is
    accepted like any other: the empty text is stored and the action
    trigger enabled. The click that follows is refused by the validation:
    it asks for an image to be uploaded first and issues no request. *)
Theorem empty_upload_enables_click_that_is_refused (s : App) (i : nat)
    (pre mime rest payload : jsstring) :
  pending (host s) !! i = Some ReaderOnload →
  COLON ∉ pre → COMMA ∉ pre →
  COLON ∉ mime → SEMICOLON ∉ mime → COMMA ∉ mime →
  COMMA ∉ rest → COMMA ∉ payload →
  mime = [] ∨ payload = [] →
  ∃ s', run [Settle i (Loaded (pre ++ COLON :: mime ++ SEMICOLON :: rest
                               ++ COMMA :: payload));
             ActionClick] s = Some s'
        ∧ imageMimeType (vars s') = Some mime
        ∧ imageBase64 (vars s') = Some payload
        ∧ actionButton_disabled (page s') = false
        ∧ resultContainer (page s') = resultContainer (page s)
        ∧ pending (host s') = delete i (pending (host s))
        ∧ trace (host s')
          = trace (host s) ++ [Alert (lit "Por favor, sube una imagen primero.")].
Proof.
  intros Hi Hp1 Hp2 Hm1 Hm2 Hm3 Hr Hd Hempty.
  set (result := pre ++ COLON :: mime ++ SEMICOLON :: rest ++ COMMA :: payload).
  set (s1 := uploaded result (Some mime) (Some payload) (dequeue i s)).
  assert (H1 : step (Settle i (Loaded result)) s = Some s1).
  { erewrite step_settle; [|exact Hi|reflexivity]. subst s1 result.
    by rewrite (run_job_returns _ _ _
                  (reader_onload_accepts pre mime rest payload (dequeue i s)
                     Hp1 Hp2 Hm1 Hm2 Hm3 Hr Hd)). }
  assert (Hclick : actionButton_click s1
                   = (Normal None,
                      exec (alert (lit "Por favor, sube una imagen primero.")) s1)).
  { unfold actionButton_click. js_run.
    destruct Hempty as [-> | ->]; [by destruct payload|done]. }
  eexists. split.
  { cbn [run]. rewrite H1. cbn [mbind option_bind]. unfold step.
    change (actionButton_disabled (page s1)) with false. cbn [run mbind option_bind].
    by rewrite (run_job_done _ _ _ Hclick). }
  by repeat split.
Qed.

(** ** Loading/Status Presenter: the rotating message *)

Lemma set_loader_text k txt :
  set_textContent_by_id (lit "loader-text") (default [] (loadingMessages !! k))
    [LoaderEl; PEl (lit "loader-text") [] txt]
  = loader_with_message k.
Proof. cbn. by destruct (decide _). Qed.

Lemma interval_callback_page id k s :
  page (exec (interval_callback id k) s)
  = set_resultContainer
      (set_textContent_by_id (lit "loader-text")
         (default [] (loadingMessages !! ((k + 1) `mod` length loadingMessages)))
         (resultContainer (page s))) (page s).
Proof. reflexivity. Qed.

Lemma tick_rotates s id k txt :
  timers (host s) !! id = Some k →
  resultContainer (page s) = [LoaderEl; PEl (lit "loader-text") [] txt] →
  ∃ s', step (IntervalTick id) s = Some s'
        ∧ resultContainer (page s') = loader_with_message ((k + 1) `mod` 5)
        ∧ timers (host s') = <[id := (k + 1) `mod` 5]> (timers (host s))
        ∧ vars s' = vars s
        ∧ trace (host s') = trace (host s)
        ∧ pending (host s') = pending (host s).
Proof.
  intros Hk Hc. exists (exec (interval_callback id k) s). split.
  { unfold step. rewrite Hk. reflexivity. }
  rewrite interval_callback_page, interval_callback_host, interval_callback_vars, Hc,
    set_loader_text.
  by repeat split.
Qed.

(** X12: while the busy indicator with its message paragraph is in the
    result area, [n] firings of the rotation timer that has reached message
    [k] leave message [(k + n) mod 5] showing: the five loading messages
    are shown in order, and the first follows the last. Nothing else
    changes: variables, pending tasks and log of effects are left alone. *)
Theorem rotation_wraps_around (s : App) (id : positive) (k n : nat) (txt : jsstring) :
  timers (host s) !! id = Some k →
  resultContainer (page s) = [LoaderEl; PEl (lit "loader-text") [] txt] →
  0 < n →
  ∃ s', run (replicate n (IntervalTick id)) s = Some s'
        ∧ resultContainer (page s') = loader_with_message ((k + n) `mod` 5)
        ∧ timers (host s') !! id = Some ((k + n) `mod` 5)
        ∧ vars s' = vars s
        ∧ trace (host s') = trace (host s)
        ∧ pending (host s') = pending (host s).
Proof.
  intros Hk Hc Hn. destruct n as [|n]; [lia|clear Hn].
  revert s k txt Hk Hc. induction n as [|n IH]; intros s k txt Hk Hc.
  - destruct (tick_rotates s id k txt Hk Hc) as (s1 & Hs1 & Hc1 & Ht1 & Hv1 & Htr1 & Hp1).
    exists s1. cbn [replicate run]. rewrite Hs1. cbn.
    rewrite Ht1. by rewrite lookup_insert_eq.
  - destruct (tick_rotates s id k txt Hk Hc) as (s1 & Hs1 & Hc1 & Ht1 & Hv1 & Htr1 & Hp1).
    destruct (IH s1 ((k + 1) `mod` 5) (default [] (loadingMessages !! ((k + 1) `mod` 5))))
      as (s2 & Hs2 & Hc2 & Ht2 & Hv2 & Htr2 & Hp2).
    { rewrite Ht1. apply lookup_insert_eq. }
    { exact Hc1. }
    exists s2. split.
    { change (replicate (S (S n)) (IntervalTick id))
        with (IntervalTick id :: replicate (S n) (IntervalTick id)).
      cbn [run]. rewrite Hs1. exact Hs2. }
    assert (Hmod : ((k + 1) `mod` 5 + S n) `mod` 5 = (k + S (S n)) `mod` 5).
    { rewrite Nat.Div0.add_mod_idemp_l. f_equal. lia. }
    rewrite Hmod in Hc2, Ht2.
    repeat split; [done|done|congruence..].
Qed.

#[global] Instance same_rotation_preorder : PreOrder same_rotation.
Proof.
  split; [done|]. intros s1 s2 s3 (?&?&?&?) (?&?&?&?). unfold same_rotation in *.
  repeat split; congruence.
Qed.

Lemma same_rotation_shown s s' : same_rotation s s' → rotation_shown s → rotation_shown s'.
Proof. intros (Ht & Hl & Hc & Hh) H id k. rewrite Ht, Hl, Hc, Hh. apply H. Qed.

Lemma rotation_shown_one_timer s : rotation_shown s → one_timer s.
Proof. intros H id k Hk. by destruct (H id k Hk). Qed.

Lemma no_timer_rotation_shown s : timers (host s) = ∅ → rotation_shown s.
Proof. intros H id k. by rewrite H, lookup_empty. Qed.

Lemma run_job_same_rotation job s : same_rotation (exec job s) (run_job job s).
Proof. unfold exec, run_job. by destruct (job s) as [[[t|]|e] s1]. Qed.

Lemma keeps_rotation_shown {A} (m : JS A) s :
  keeps same_rotation m → rotation_shown s → rotation_shown (exec m s).
Proof. intros Hm Hs. eapply same_rotation_shown; [apply Hm|done]. Qed.

Lemma run_job_rotation_shown job s :
  rotation_shown (exec job s) → rotation_shown (run_job job s).
Proof. apply same_rotation_shown, run_job_same_rotation. Qed.

(** A guarded segment that touches the result area only when it does not
    suspend: when it ends, its [finally] stops the timer. *)
Lemma guarded_rotation_shown body handler s :
  suspends_quietly body →
  keeps same_timers body → (∀ e, keeps same_timers (handler e)) →
  rotation_shown s →
  rotation_shown (exec (try_catch_finally body handler (setLoading false None)) s).
Proof.
  intros Hq Hb Hh Hs. pose proof (rotation_shown_one_timer s Hs) as H1.
  specialize (Hq s). pose proof (Hb s) as Hbs. unfold exec in Hbs |- *.
  destruct (body s) as [[[t|]|e] s1] eqn:E.
  - rewrite (try_catch_finally_suspends _ _ _ _ _ _ E). cbn.
    destruct Hq as (_ & Hq & _). by eapply same_rotation_shown.
  - rewrite (try_catch_finally_completes _ _ _ _ _ _ E (setLoading_returns _ _ _)). cbn.
    apply no_timer_rotation_shown, setLoading_stops. by eapply same_timers_one_timer.
  - unfold try_catch_finally, try_catch. rewrite E, bind_run.
    pose proof (Hh e s1) as Hhs. unfold exec in Hhs.
    destruct (handler e s1) as [[[]|e'] s2]; cbn in *; rewrite setLoading_returns; cbn;
      apply no_timer_rotation_shown, setLoading_stops;
      eapply same_timers_one_timer; [|exact H1| |exact H1]; by etrans.
Qed.

(** Every segment of a cycle is guarded by the cycle's [finally]; when it
    suspends again it has only logged an effect, and neither it nor the
    [catch] block touches the timers. *)
Lemma resume_cycle_guarded t r job :
  is_cycle t = true → resume t r = Some job →
  ∃ body handler,
    job = try_catch_finally body handler (setLoading false None)
    ∧ suspends_quietly body
    ∧ keeps same_timers body ∧ (∀ e, keeps same_timers (handler e)).
Proof.
  intros Ht H.
  destruct t, r; simplify_eq/=; eexists _, _; (split; [reflexivity|]);
    (split; [intros s|split; [|intros ?]]).
  all: try (unfold render_response, video_poll, video_show;
            keeps_tac; apply render_parts_keeps_timers).
  - rewrite bind_run. cbn [settled mret JS_ret]. rewrite bind_run.
    lazymatch goal with
    | |- context [render_response _ ?reply] => destruct (parts_missing reply) eqn:Hm
    end.
    + by rewrite render_response_throws.
    + by rewrite render_response_returns.
  - done.
  - unfold video_poll. destruct (done operation); cbn [negb]; [|done].
    destruct (truthy (downloadLink operation)); [by rewrite bind_run|done].
  - done.
  - done.
  - unfold video_poll. destruct (done operation); cbn [negb]; [|done].
    destruct (truthy (downloadLink operation)); [by rewrite bind_run|done].
  - done.
  - done.
  - done.
  - done.
  - done.
Qed.

Lemma resume_rotation_shown t r job s :
  resume t r = Some job → rotation_shown s → rotation_shown (exec job s).
Proof.
  intros H Hs. destruct (is_cycle t) eqn:Ht.
  - destruct (resume_cycle_guarded _ _ _ Ht H) as (body & handler & -> & Hq & Hb & Hh).
    by apply guarded_rotation_shown.
  - destruct t; try done. apply keeps_rotation_shown; [|done].
    destruct r; simplify_eq/=; unfold reader_onload; keeps_tac.
Qed.

Lemma actionButton_click_rotation_shown s :
  rotation_shown s → rotation_shown (exec actionButton_click s).
Proof.
  intros Hs. pose proof (rotation_shown_one_timer s Hs) as H1.
  unfold exec, actionButton_click. js_run.
  destruct (truthy (imageBase64 (vars s))); cbn; [|done].
  destruct (truthy (imageMimeType (vars s))); cbn; [|done].
  destruct (trim (promptInput_value (page s))); cbn; [done|].
  destruct (currentMode (vars s)).
  - apply no_timer_rotation_shown. rewrite editImage_returns. cbn.
    rewrite editImage_exec, exec_emit. cbn. by apply setLoading_stops.
  - rewrite generateVideo_returns. cbn. intros id k.
    rewrite generateVideo_timers, generateVideo_vars, generateVideo_page,
      start_loading_page, first_message_truthy by done. cbn.
    intros [-> <-]%lookup_singleton_Some. repeat split. lia.
Qed.

Lemma interval_callback_rotation_shown id k s :
  timers (host s) !! id = Some k → rotation_shown s →
  rotation_shown (exec (interval_callback id k) s).
Proof.
  intros Hk Hs id' k'. rewrite interval_callback_host, interval_callback_vars.
  destruct (Hs id k Hk) as (Hl & Hlt & Hc & Hh).
  cbn [timers set_timers]. intros H.
  assert (id' = id ∧ k' = (k + 1) `mod` length loadingMessages) as [-> ->].
  { apply lookup_insert_Some in H as [[<- <-]|[Hne H]]; [done|].
    destruct (Hs id' k' H) as (Hl' & _). congruence. }
  split; [done|]. split; [by apply Nat.mod_upper_bound|].
  rewrite interval_callback_page, Hc. split; [apply set_loader_text|done].
Qed.

Lemma step_rotation_shown ev s s' :
  step ev s = Some s' → rotation_shown s → rotation_shown s'.
Proof.
  intros H Hs. destruct ev; cbn in H.
  - simplify_eq. apply run_job_rotation_shown, keeps_rotation_shown; [|done].
    unfold modeEditRadio_change. keeps_tac.
  - simplify_eq. apply run_job_rotation_shown, keeps_rotation_shown; [|done].
    unfold modeVideoRadio_change. keeps_tac.
  - simplify_eq. apply run_job_rotation_shown, keeps_rotation_shown; [|done].
    unfold promptExamples_change. keeps_tac.
  - by simplify_eq.
  - simplify_eq. apply run_job_rotation_shown, keeps_rotation_shown; [|done].
    unfold imageUpload_change. keeps_tac.
  - destruct (actionButton_disabled (page s)); simplify_eq.
    by apply run_job_rotation_shown, actionButton_click_rotation_shown.
  - simplify_eq. apply run_job_rotation_shown, keeps_rotation_shown; [|done].
    unfold downloadButton_click. keeps_tac.
  - destruct (timers (host s) !! id) as [k|] eqn:Hk; simplify_eq/=.
    apply run_job_rotation_shown.
    change (rotation_shown (exec (interval_callback id k) s)).
    by apply interval_callback_rotation_shown.
  - destruct (pending (host s) !! i) as [t|] eqn:Ht; simplify_eq/=.
    destruct (resume t r) as [job|] eqn:Hr; simplify_eq/=.
    by eapply run_job_rotation_shown, resume_rotation_shown.
Qed.

Lemma run_rotation_shown evs s s' :
  run evs s = Some s' → rotation_shown s → rotation_shown s'.
Proof.
  revert s. induction evs as [|ev evs IH]; intros s H Hs; simplify_eq/=; [done|].
  destruct (step ev s) as [s1|] eqn:Hstep; simplify_eq/=.
  eapply IH; [done|]. by eapply step_rotation_shown.
Qed.

(** X13: in every state reachable from the freshly loaded page, a rotation
    timer that is running is the stored one, the busy indicator is showing,
    and the result area holds exactly the busy indicator followed by the
    loading message the timer has reached: the callback always finds its
    paragraph. *)
Theorem loader_text_tracks_timer (key : jsstring) (evs : list Event) (s : App)
    (id : positive) (k : nat) :
  run evs (page_loaded key) = Some s →
  timers (host s) !! id = Some k →
  resultContainer (page s) = loader_with_message k
  ∧ k < 5
  ∧ loader_hidden (page s) = false
  ∧ loadingInterval (vars s) = Some id.
Proof.
  intros Hrun Hk.
  assert (H0 : rotation_shown (page_loaded key)) by by apply no_timer_rotation_shown.
  destruct (run_rotation_shown _ _ _ Hrun H0 id k Hk) as (Hl & Hlt & Hc & Hh).
  done.
Qed.

Lemma loader_text_tracks_timer_witness :
  run (to_filming ++ [IntervalTick 1]) (page_loaded (lit "KEY"))
  = Some (after [IntervalTick 1] filming)
  ∧ timers (host (after [IntervalTick 1] filming)) !! 1%positive = Some 1
  ∧ resultContainer (page (after [IntervalTick 1] filming)) = loader_with_message 1
  ∧ 1 < 5
  ∧ loader_hidden (page (after [IntervalTick 1] filming)) = false
  ∧ loadingInterval (vars (after [IntervalTick 1] filming)) = Some 1%positive.
Proof.
  split; [by vm_compute|]. split; [by vm_compute|].
  apply (loader_text_tracks_timer (lit "KEY") (to_filming ++ [IntervalTick 1]));
    by vm_compute.
Defined.

(** X14: in every state reachable from the freshly loaded page, when a
    cycle ends, on whatever path, no rotation timer is left running: no
    timer callback can fire any more. *)
Theorem cycle_end_stops_rotation (key : jsstring) (evs : list Event) (s : App)
    (i : nat) (t : Task) (r : Settled) (s' : App) :
  run evs (page_loaded key) = Some s →
  pending (host s) !! i = Some t → is_cycle t = true →
  step (Settle i r) s = Some s' →
  pending (host s') = delete i (pending (host s)) →
  timers (host s') = ∅ ∧ ∀ id, step (IntervalTick id) s' = None.
Proof.
  intros Hrun Hi Ht Hstep Hexit.
  assert (Hs : one_timer s).
  { eapply run_one_timer; [exact Hrun|]. by apply no_timer_one_timer. }
  pose proof (step_one_timer _ _ _ Hstep Hs) as Hs'.
  assert (Hl : loadingInterval (vars s') = None).
  { unfold step in Hstep. rewrite Hi in Hstep. cbn in Hstep.
    destruct (resume t r) as [job|] eqn:Hjob; simplify_eq/=.
    destruct (resume_guarded t r job) as (body & handler & ->); [by destruct t|done|].
    pose proof (resume_keeps_pending _ _ _ Hjob (dequeue i s)) as Hp.
    pose proof (finally_runs body handler (dequeue i s)) as Hf.
    unfold run_job, exec, same_pending in *.
    destruct (try_catch_finally body handler _ (dequeue i s)) as [[[t'|]|e] s1];
      cbn in *; [|by destruct Hf as (_ & _ & Hf)..].
    rewrite Hp in Hexit. apply (f_equal length) in Hexit.
    rewrite length_app in Hexit. cbn in Hexit. lia. }
  assert (He : timers (host s') = ∅).
  { apply map_empty. intros id. destruct (timers (host s') !! id) eqn:Hk; [|done].
    specialize (Hs' _ _ Hk). congruence. }
  split; [done|]. intros id. unfold step. by rewrite He, lookup_empty.
Qed.

Lemma cycle_end_stops_rotation_witness :
  run to_filming (page_loaded (lit "KEY")) = Some filming
  ∧ pending (host filming) !! 0 = Some VideoAwaitGenerateVideos
  ∧ is_cycle VideoAwaitGenerateVideos = true
  ∧ step (Settle 0 unavailable) filming = Some (after [Settle 0 unavailable] filming)
  ∧ pending (host (after [Settle 0 unavailable] filming)) = delete 0 (pending (host filming))
  ∧ timers (host (after [Settle 0 unavailable] filming)) = ∅
  ∧ ∀ id, step (IntervalTick id) (after [Settle 0 unavailable] filming) = None.
Proof.
  do 5 (split; [by vm_compute|]).
  apply (cycle_end_stops_rotation (lit "KEY") to_filming filming 0 VideoAwaitGenerateVideos unavailable
           (after [Settle 0 unavailable] filming)); by vm_compute.
Defined.

Lemma rotation_wraps_around_witness :
  timers (host filming) !! 1%positive = Some 0
  ∧ resultContainer (page filming)
    = [LoaderEl; PEl (lit "loader-text") [] (lit "Iniciando la generación de video...")]
  ∧ 0 < 7
  ∧ ∃ s', run (replicate 7 (IntervalTick 1)) filming = Some s'
          ∧ resultContainer (page s') = loader_with_message ((0 + 7) `mod` 5)
          ∧ timers (host s') !! 1%positive = Some ((0 + 7) `mod` 5)
          ∧ vars s' = vars filming
          ∧ trace (host s') = trace (host filming)
          ∧ pending (host s') = pending (host filming).
Proof.
  split; [by vm_compute|]. split; [by vm_compute|]. split; [lia|].
  apply (rotation_wraps_around filming 1%positive 0 7
           (lit "Iniciando la generación de video...")); [by vm_compute..|lia].
Defined.

(** ** Loading/Status Presenter: when the busy indicator shows *)

#[global] Instance same_busy_preorder : PreOrder same_busy.
Proof.
  split; [done|]. intros s1 s2 s3 [] []. unfold same_busy in *.
  split; congruence.
Qed.

Lemma run_job_page job s : page (run_job job s) = page (exec job s).
Proof. unfold exec, run_job. by destruct (job s) as [[[t|]|e] s1]. Qed.

Lemma cycles_dequeue_other i t s :
  pending (host s) !! i = Some t → is_cycle t = false → cycles (dequeue i s) = cycles s.
Proof. intros Hi Ht. unfold cycles. cbn. by eapply filter_delete_other. Qed.

(** The tasks in flight after a job that queues nothing but a file read. *)
Lemma quiet_job_cycles job s :
  keeps same_pending job →
  (∀ t, (job s).1 = Normal (Some t) → is_cycle t = false) →
  cycles (run_job job s) = cycles s.
Proof.
  intros Hp Ht. unfold cycles. rewrite run_job_pending by done. rewrite filter_app.
  destruct (job s).1 as [[t|]|e] eqn:E; rewrite ?filter_nil, ?app_nil_r; try done.
  rewrite filter_cons_False, filter_nil, app_nil_r; [done|].
  by apply Is_true_false, Ht.
Qed.

(** A guarded segment either suspends quietly or ends with the busy
    indicator hidden. *)
Lemma guarded_outcome body handler s :
  suspends_quietly body →
  match try_catch_finally body handler (setLoading false None) s with
  | (Normal (Some t), s1) => is_cycle t = true ∧ page s1 = page s
  | (_, s1) => loader_hidden (page s1) = true
  end.
Proof.
  intros Hq. specialize (Hq s). pose proof (finally_runs body handler s) as Hf.
  destruct (body s) as [[[t|]|e] s1] eqn:E.
  - rewrite (try_catch_finally_suspends _ _ _ _ _ _ E). by destruct Hq as (? & _ & ?).
  - destruct (try_catch_finally _ _ _ s) as [[[t|]|e] s2] eqn:E2; [|by destruct Hf..].
    unfold try_catch_finally, try_catch in E2. rewrite E in E2.
    by destruct (setLoading false None s1) as [[[]|e'] s3].
  - destruct (try_catch_finally _ _ _ s) as [[[t|]|e'] s2] eqn:E2; [|by destruct Hf..].
    unfold try_catch_finally, try_catch in E2. rewrite E, bind_run in E2.
    destruct (handler e s1) as [[[]|e''] s3]; cbn in E2;
      by destruct (setLoading false None s3) as [[[]|e3] s4].
Qed.

(** A click either fails validation, leaving the page alone, or starts a
    cycle with the busy indicator showing and the action trigger
    disabled. *)
Lemma actionButton_click_busy s :
  ((actionButton_click s).1 = Normal None
   ∧ page (exec actionButton_click s) = page s)
  ∨ (∃ t, (actionButton_click s).1 = Normal (Some t) ∧ is_cycle t = true
          ∧ loader_hidden (page (exec actionButton_click s)) = false
          ∧ actionButton_disabled (page (exec actionButton_click s)) = true).
Proof.
  unfold exec, actionButton_click. js_run.
  destruct (truthy (imageBase64 (vars s))); cbn; [|by left].
  destruct (truthy (imageMimeType (vars s))); cbn; [|by left].
  destruct (trim (promptInput_value (page s))); cbn; [by left|]. right.
  destruct (currentMode (vars s)).
  - rewrite editImage_returns. eexists. split; [done|]. split; [done|]. cbn.
    rewrite editImage_exec, exec_emit. cbn. by rewrite start_loading_page.
  - rewrite generateVideo_returns. eexists. split; [done|]. split; [done|]. cbn.
    by rewrite generateVideo_page, start_loading_page.
Qed.

Lemma cycles_queued job s t :
  keeps same_pending job → (job s).1 = Normal (Some t) → is_cycle t = true →
  cycles (run_job job s) = cycles s ++ [t].
Proof.
  intros Hp Hout Ht. unfold cycles. rewrite run_job_pending, Hout, filter_app by done.
  by rewrite filter_cons_True, filter_nil by by apply Is_true_true.
Qed.

Lemma cycles_not_queued job s :
  keeps same_pending job → (∀ t, (job s).1 ≠ Normal (Some t)) →
  cycles (run_job job s) = cycles s.
Proof.
  intros Hp Hout. apply quiet_job_cycles; [done|]. intros t Ht. by destruct (Hout t).
Qed.

Lemma quiet_job_busy job s :
  keeps same_pending job → keeps same_busy job →
  (∀ t, (job s).1 = Normal (Some t) → is_cycle t = false) →
  cycles (run_job job s) = cycles s ∧ same_busy s (run_job job s).
Proof.
  intros Hp Hb Ht. split; [by apply quiet_job_cycles|].
  unfold same_busy. rewrite run_job_page. apply Hb.
Qed.

(** What one turn of the event loop does to the cycles in flight, to the
    busy indicator and to the action trigger: nothing (unless a file read
    completes, which enables the trigger); or a cycle is started; or a
    cycle goes on to its next [await]; or a cycle ends. *)
Lemma step_busy ev s s' :
  step ev s = Some s' →
  (cycles s' = cycles s ∧ loader_hidden (page s') = loader_hidden (page s)
   ∧ (actionButton_disabled (page s') = actionButton_disabled (page s)
      ∨ ∃ i result, ev = Settle i (Loaded result)))
  ∨ (∃ t, cycles s' = cycles s ++ [t] ∧ loader_hidden (page s') = false
          ∧ actionButton_disabled (page s') = true
          ∧ actionButton_disabled (page s) = false)
  ∨ (∃ i t t', pending (host s) !! i = Some t ∧ is_cycle t = true
               ∧ cycles s' = filter is_cycle (delete i (pending (host s))) ++ [t']
               ∧ page s' = page s)
  ∨ (∃ i t, pending (host s) !! i = Some t ∧ is_cycle t = true
            ∧ cycles s' = filter is_cycle (delete i (pending (host s)))
            ∧ loader_hidden (page s') = true).
Proof.
  assert (Hquiet : ∀ s', cycles s' = cycles s ∧ same_busy s s' →
            cycles s' = cycles s ∧ loader_hidden (page s') = loader_hidden (page s)
            ∧ (actionButton_disabled (page s') = actionButton_disabled (page s)
               ∨ ∃ i result, ev = Settle i (Loaded result))).
  { intros s1 (Hc & Hl & Hd). split; [done|]. split; [done|]. by left. }
  intros H. destruct ev; cbn in H.
  - simplify_eq. left. apply Hquiet, quiet_job_busy;
      [| |intros t; apply sequel_never_suspends]; unfold modeEditRadio_change; keeps_tac.
  - simplify_eq. left. apply Hquiet, quiet_job_busy;
      [| |intros t; apply sequel_never_suspends]; unfold modeVideoRadio_change; keeps_tac.
  - simplify_eq. left. apply Hquiet, quiet_job_busy;
      [| |intros t; apply sequel_never_suspends]; unfold promptExamples_change; keeps_tac.
  - simplify_eq. left. by apply Hquiet.
  - simplify_eq. left. apply Hquiet, (quiet_job_busy (imageUpload_change file) s);
      [| |intros t; rewrite imageUpload_change_outcome; destruct file; intros ?; by simplify_eq];
      unfold imageUpload_change; keeps_tac.
  - destruct (actionButton_disabled (page s)) eqn:Hen; simplify_eq.
    destruct (actionButton_click_busy s) as [[Hout Hsame]|(t & Hout & Ht & Hb & Hd)].
    + left. rewrite run_job_page, Hsame, Hen. split; [|by auto].
      apply cycles_not_queued; [apply actionButton_click_keeps_pending|].
      intros t. by rewrite Hout.
    + right. left. exists t. rewrite run_job_page. split; [|done].
      by apply cycles_queued; [apply actionButton_click_keeps_pending|..].
  - simplify_eq. left. apply Hquiet, quiet_job_busy;
      [| |intros t; apply sequel_never_suspends]; unfold downloadButton_click; keeps_tac.
  - destruct (timers (host s) !! id) as [k|] eqn:Hk; cbn in H; simplify_eq.
    left. apply Hquiet, quiet_job_busy;
      [| |intros t; apply sequel_never_suspends]; unfold interval_callback; keeps_tac.
  - destruct (pending (host s) !! i) as [t|] eqn:Ht; cbn in H; simplify_eq.
    destruct (resume t r) as [job|] eqn:Hr; cbn in H; simplify_eq.
    pose proof (resume_keeps_pending _ _ _ Hr) as Hp.
    destruct (is_cycle t) eqn:Hcyc.
    + destruct (resume_cycle_guarded _ _ _ Hcyc Hr) as (body & handler & -> & Hq & _).
      pose proof (guarded_outcome body handler (dequeue i s) Hq) as Hout.
      pose proof (run_job_pending _ (dequeue i s) Hp) as Hpend.
      rewrite run_job_page. unfold cycles, exec. rewrite Hpend.
      destruct (try_catch_finally body handler _ (dequeue i s)) as [[[t'|]|e] s1];
        cbn [fst snd] in *.
      * destruct Hout as (Ht' & Hpage). right. right. left.
        exists i, t, t'. repeat split; [done..| |by rewrite Hpage].
        rewrite filter_app. by rewrite filter_cons_True, filter_nil by by apply Is_true_true.
      * right. right. right. exists i, t. rewrite app_nil_r. by repeat split.
      * right. right. right. exists i, t. rewrite app_nil_r. by repeat split.
    + left. destruct t; try done.
      rewrite <- (cycles_dequeue_other i ReaderOnload s Ht Hcyc).
      change (page s) with (page (dequeue i s)).
      destruct r; cbn in Hr; simplify_eq.
      * split; [|split; [|by eauto]].
        -- apply quiet_job_cycles;
             [keeps_tac; apply reader_onload_keeps_pending
             |intros t; apply sequel_never_suspends].
        -- rewrite run_job_page.
           assert (Hk : keeps same_rotation
                          (reader_onload result;; mret (None : option Task))).
           { unfold reader_onload. keeps_tac. }
           by destruct (Hk (dequeue i s)) as (_ & _ & _ & ?).
      * destruct (quiet_job_busy (mret (None : option Task)) (dequeue i s))
          as (Hc & Hl & Hd);
          [keeps_tac..|by intros t|].
        split; [done|]. split; [done|]. by left.
Qed.

Lemma filter_delete_has (l : list Task) i t :
  l !! i = Some t → is_cycle t = true → filter is_cycle l ≠ [].
Proof.
  intros H Ht Hnil.
  assert (t ∈ filter is_cycle l) as Hin.
  { apply list_elem_of_filter. split; [by apply Is_true_true|by eapply list_elem_of_lookup_2]. }
  rewrite Hnil in Hin. by apply not_elem_of_nil in Hin.
Qed.

Lemma step_busy_only_in_flight ev s s' :
  step ev s = Some s' → busy_only_in_flight s → busy_only_in_flight s'.
Proof.
  intros Hstep Hs. unfold busy_only_in_flight in *.
  destruct (step_busy _ _ _ Hstep)
    as [(Hc & Hb & _)|[(t & Hc & Hb & _)
       |[(i & t & t' & Hi & Ht & Hc & Hb)|(i & t & Hi & Ht & Hc & Hb)]]];
    rewrite Hc, ?Hb.
  - done.
  - intros _. by destruct (cycles s).
  - intros _. by destruct (filter is_cycle (delete i (pending (host s)))).
  - done.
Qed.

(** X15: started with the busy indicator hidden, the page never shows the
    busy indicator without a cycle in flight. *)
Theorem busy_indicator_means_work_in_flight (s0 : App) (evs : list Event) (s : App) :
  loader_hidden (page s0) = true →
  run evs s0 = Some s →
  loader_hidden (page s) = false →
  ∃ i t, pending (host s) !! i = Some t ∧ is_cycle t = true.
Proof.
  intros H0 Hrun Hb.
  assert (Hs : busy_only_in_flight s).
  { assert (Hs0 : busy_only_in_flight s0) by (intros ?; congruence).
    clear H0 Hb. revert s0 Hs0 Hrun.
    induction evs as [|ev evs IH]; intros s0 Hs0 Hrun; simplify_eq/=; [done|].
    destruct (step ev s0) as [s1|] eqn:Hstep; simplify_eq/=.
    eapply IH; [|done]. by eapply step_busy_only_in_flight. }
  specialize (Hs Hb). unfold cycles in Hs.
  destruct (filter is_cycle (pending (host s))) as [|t l] eqn:E; [done|].
  assert (Hin : t ∈ filter is_cycle (pending (host s))).
  { rewrite E. apply list_elem_of_here. }
  apply list_elem_of_filter in Hin as [Ht Hin].
  apply list_elem_of_lookup in Hin as [i Hi].
  exists i, t. split; [done|]. by apply Is_true_true.
Qed.

Lemma step_busy_while_in_flight ev s s' :
  permitted ev s = true → step ev s = Some s' →
  serialized s → busy_while_in_flight s → busy_while_in_flight s'.
Proof.
  intros Hperm Hstep [_ Hser] Hs. unfold busy_while_in_flight in *.
  destruct (step_busy _ _ _ Hstep)
    as [(Hc & Hb & _)|[(t & Hc & Hb & _)
       |[(i & t & t' & Hi & Ht & Hc & Hb)|(i & t & Hi & Ht & Hc & Hb)]]];
    rewrite Hc, ?Hb.
  - done.
  - done.
  - intros _. apply Hs. unfold cycles. by eapply filter_delete_has.
  - destruct (filter_one_or_none _ _ _ Hi Ht) as [c Hone].
    { fold (cycles s). by destruct (cycles s) as [|? [|]]. }
    by rewrite (filter_delete_only _ _ _ _ Hi Ht Hone).
Qed.

(** X16: as long as no cycle is started while another is in flight, a
    cycle in flight is the only one and the busy indicator shows for as
    long as it is in flight. *)
Theorem busy_indicator_shows_while_in_flight (key : jsstring) (evs : list Event)
    (s : App) (i : nat) (t : Task) :
  run_serialized evs (page_loaded key) = Some s →
  pending (host s) !! i = Some t → is_cycle t = true →
  loader_hidden (page s) = false ∧ cycles s = [t].
Proof.
  intros Hrun Hin%list_elem_of_lookup_2 Ht.
  assert (Hs : serialized s ∧ busy_while_in_flight s).
  { assert (Hs0 : serialized (page_loaded key) ∧ busy_while_in_flight (page_loaded key)).
    { split; [|by intros []]. split; [by apply blank_consistent|done]. }
    revert Hs0 Hrun. generalize (page_loaded key). clear Hin.
    induction evs as [|ev evs IH]; intros s0 [Hser Hbusy] Hrun; simplify_eq/=; [done|].
    destruct (permitted ev s0) eqn:Hperm; [|done].
    destruct (step ev s0) as [s1|] eqn:Hstep; simplify_eq/=.
    eapply IH; [|done]. split; [by eapply step_serialized|].
    by eapply step_busy_while_in_flight. }
  destruct Hs as [[_ Hser] Hbusy].
  assert (Hc : t ∈ cycles s).
  { apply list_elem_of_filter. split; [by apply Is_true_true|done]. }
  split.
  - apply Hbusy. intros Hnil. rewrite Hnil in Hc. by apply not_elem_of_nil in Hc.
  - destruct (cycles s) as [|c [|]]; [by apply not_elem_of_nil in Hc| |done].
    by apply list_elem_of_singleton in Hc as ->.
Qed.

Lemma busy_indicator_means_work_in_flight_witness :
  loader_hidden (page fresh) = true
  ∧ run to_filming fresh = Some filming
  ∧ loader_hidden (page filming) = false
  ∧ ∃ i t, pending (host filming) !! i = Some t ∧ is_cycle t = true.
Proof.
  split; [reflexivity|]. split; [by vm_compute|]. split; [by vm_compute|].
  apply (busy_indicator_means_work_in_flight fresh to_filming filming);
    [reflexivity|by vm_compute..].
Defined.

Lemma busy_indicator_shows_while_in_flight_witness :
  run_serialized to_filming (page_loaded (lit "KEY")) = Some filming
  ∧ pending (host filming) !! 0 = Some VideoAwaitGenerateVideos
  ∧ is_cycle VideoAwaitGenerateVideos = true
  ∧ loader_hidden (page filming) = false
  ∧ cycles filming = [VideoAwaitGenerateVideos].
Proof.
  split; [by vm_compute|]. split; [by vm_compute|]. split; [reflexivity|].
  apply (busy_indicator_shows_while_in_flight (lit "KEY") to_filming filming 0
           VideoAwaitGenerateVideos); [by vm_compute..|reflexivity].
Defined.

(** ** Request Orchestrator: one cycle at a time *)

(** The action trigger stays disabled while a cycle is in flight, for as
    long as no file read completes in the meantime. *)
Lemma step_guarded_by_trigger ev s s' :
  calm ev s = true → step ev s = Some s' →
  guarded_by_trigger s → guarded_by_trigger s'.
Proof.
  intros Hcalm Hstep Hs. unfold guarded_by_trigger in *.
  destruct (step_busy _ _ _ Hstep)
    as [(Hc & _ & [Hd|(i & result & ->)])|[(t & Hc & _ & Hd & Hen)
       |[(i & t & t' & Hi & Ht & Hc & Hpage)|(i & t & Hi & Ht & Hc & _)]]];
    rewrite Hc.
  - by rewrite Hd.
  - cbn in Hcalm. by destruct (cycles s).
  - destruct (cycles s) as [|c [|]]; [done|congruence|done].
  - destruct (filter_one_or_none _ _ _ Hi Ht) as [c Hone].
    { fold (cycles s). by destruct (cycles s) as [|? [|]]. }
    rewrite (filter_delete_only _ _ _ _ Hi Ht Hone). cbn.
    fold (cycles s) in Hone. rewrite Hone in Hs. by rewrite Hpage.
  - destruct (filter_one_or_none _ _ _ Hi Ht) as [c Hone].
    { fold (cycles s). by destruct (cycles s) as [|? [|]]. }
    by rewrite (filter_delete_only _ _ _ _ Hi Ht Hone).
Qed.

Lemma guarded_permits ev s s' :
  step ev s = Some s' → guarded_by_trigger s → permitted ev s = true.
Proof.
  intros Hstep Hs. destruct ev; try done. cbn in Hstep |- *.
  unfold guarded_by_trigger in Hs.
  destruct (cycles s) as [|c [|]]; [done| |done].
  by rewrite Hs in Hstep.
Qed.

Lemma run_calm_guarded evs s s' :
  run_calm evs s = Some s' → guarded_by_trigger s →
  guarded_by_trigger s' ∧ run_serialized evs s = Some s'.
Proof.
  revert s. induction evs as [|ev evs IH]; intros s H Hs; simplify_eq/=; [done|].
  destruct (calm ev s) eqn:Hcalm; [|done].
  destruct (step ev s) as [s1|] eqn:Hstep; simplify_eq/=.
  rewrite (guarded_permits _ _ _ Hstep Hs). cbn.
  apply IH; [done|]. by eapply step_guarded_by_trigger.
Qed.

(** X21: as long as no file read completes while a cycle is in flight,
    the disabled action trigger does its job: from the freshly loaded page,
    no cycle is ever started while another is in flight (the run is a
    serialized one), and while a cycle is in flight it is the only one, the
    action trigger is disabled and cannot be clicked. *)
Theorem one_cycle_at_a_time (key : jsstring) (evs : list Event) (s : App) :
  run_calm evs (page_loaded key) = Some s →
  run_serialized evs (page_loaded key) = Some s
  ∧ ∀ i t, pending (host s) !! i = Some t → is_cycle t = true →
           actionButton_disabled (page s) = true
           ∧ step ActionClick s = None
           ∧ cycles s = [t].
Proof.
  intros Hrun.
  destruct (run_calm_guarded evs (page_loaded key) s Hrun) as [Hs Hser]; [done|].
  split; [done|]. intros i t Hi Ht.
  destruct (filter_one_or_none _ _ _ Hi Ht) as [c Hone].
  { fold (cycles s). unfold guarded_by_trigger in Hs. by destruct (cycles s) as [|? [|]]. }
  unfold guarded_by_trigger in Hs. fold (cycles s) in Hone. rewrite Hone in Hs.
  split; [done|]. split; [unfold step; by rewrite Hs|].
  rewrite Hone. f_equal.
  assert (Hin : t ∈ cycles s).
  { apply list_elem_of_filter. split; [by apply Is_true_true|by eapply list_elem_of_lookup_2]. }
  rewrite Hone in Hin. by apply list_elem_of_singleton in Hin.
Qed.

Lemma one_cycle_at_a_time_witness :
  run_calm to_filming (page_loaded (lit "KEY")) = Some filming
  ∧ run_serialized to_filming (page_loaded (lit "KEY")) = Some filming
  ∧ ∀ i t, pending (host filming) !! i = Some t → is_cycle t = true →
           actionButton_disabled (page filming) = true
           ∧ step ActionClick filming = None
           ∧ cycles filming = [t].
Proof.
  split; [by vm_compute|].
  apply (one_cycle_at_a_time (lit "KEY") to_filming filming). by vm_compute.
Defined.

(** ** Mode selection and download *)

#[global] Instance same_labels_preorder : PreOrder same_labels.
Proof.
  split; [done|]. intros s1 s2 s3 (?&?&?) (?&?&?). unfold same_labels in *.
  repeat split; congruence.
Qed.

Lemma same_labels_agree s s' : same_labels s s' → labels_agree s → labels_agree s'.
Proof. intros (Hm & Ha & Hd). unfold labels_agree. by rewrite Hm, Ha, Hd. Qed.

Lemma render_parts_keeps_labels prompt ps found :
  keeps same_labels (render_parts prompt ps found).
Proof.
  revert found. induction ps as [|p ps IH]; intros found; cbn [render_parts].
  - keeps_tac.
  - unfold render_part. keeps_tac. all: apply IH.
Qed.

Lemma setLoading_keeps_labels b m : keeps same_labels (setLoading b m).
Proof. unfold setLoading. keeps_tac. Qed.

Lemma resume_keeps_labels t r job :
  resume t r = Some job → keeps same_labels job.
Proof.
  destruct t, r; intros H; simplify_eq/=;
    unfold reader_onload, editImageWithGemini_resume, render_response, video_poll,
      video_show;
    keeps_tac; try apply render_parts_keeps_labels; try apply setLoading_keeps_labels.
Qed.

Lemma run_job_same_labels job s : same_labels (exec job s) (run_job job s).
Proof. unfold exec, run_job. by destruct (job s) as [[[t|]|e] s1]. Qed.

Lemma run_job_keeps_labels job s :
  keeps same_labels job → labels_agree s → labels_agree (run_job job s).
Proof.
  intros Hjob. apply same_labels_agree. etrans; [apply Hjob|apply run_job_same_labels].
Qed.

Lemma step_labels_agree ev s s' :
  step ev s = Some s' → labels_agree s → labels_agree s'.
Proof.
  intros H Hs. destruct ev; cbn in H.
  - simplify_eq. destruct checked; [by split|done].
  - simplify_eq. destruct checked; [by split|done].
  - simplify_eq. apply run_job_keeps_labels; [|done].
    unfold promptExamples_change. keeps_tac.
  - by simplify_eq.
  - simplify_eq. apply run_job_keeps_labels; [|done].
    unfold imageUpload_change. keeps_tac.
  - destruct (actionButton_disabled (page s)); simplify_eq.
    apply run_job_keeps_labels; [|done].
    unfold actionButton_click, editImageWithGemini, generateVideoWithGemini,
      setInterval.
    keeps_tac; apply setLoading_keeps_labels.
  - simplify_eq. apply run_job_keeps_labels; [|done].
    unfold downloadButton_click. keeps_tac.
  - destruct (timers (host s) !! id) as [k|] eqn:Hk; simplify_eq/=.
    apply run_job_keeps_labels; [|done].
    unfold interval_callback. keeps_tac.
  - destruct (pending (host s) !! i) as [t|] eqn:Ht; simplify_eq/=.
    destruct (resume t r) as [job|] eqn:Hr; simplify_eq/=.
    apply run_job_keeps_labels; [by eapply resume_keeps_labels|done].
Qed.

Lemma run_labels_agree evs s s' :
  run evs s = Some s' → labels_agree s → labels_agree s'.
Proof.
  revert s. induction evs as [|ev evs IH]; intros s H Hs; simplify_eq/=; [done|].
  destruct (step ev s) as [s1|] eqn:Hstep; simplify_eq/=.
  eapply IH; [done|]. by eapply step_labels_agree.
Qed.

(** X17: started with the labels of the current mode, the action trigger
    and the download affordance always carry the labels of the current
    mode, whatever the events. *)
Theorem labels_follow_mode (s0 : App) (evs : list Event) (s : App) :
  labels_agree s0 → run evs s0 = Some s →
  actionButton_textContent (page s) = action_label (currentMode (vars s))
  ∧ downloadButton_textContent (page s) = download_label (currentMode (vars s)).
Proof. intros H0 Hrun. by eapply run_labels_agree. Qed.

(** X18: a click on the download affordance with a download target set
    changes nothing on the page: it hands the target to the browser under
    the file name of the current mode, which is also the mode the label of
    the download affordance announces (the mode at the moment of the click,
    not the mode that produced the result). *)
Theorem download_named_after_label (s0 : App) (evs : list Event) (s : App)
    (url : jsstring) :
  labels_agree s0 → run evs s0 = Some s →
  resultUrl (vars s) = Some url → url ≠ [] →
  ∃ s', step DownloadClick s = Some s'
        ∧ vars s' = vars s ∧ page s' = page s
        ∧ timers (host s') = timers (host s)
        ∧ pending (host s') = pending (host s)
        ∧ trace (host s')
          = trace (host s) ++ [AnchorClick url (download_name (currentMode (vars s)))]
        ∧ downloadButton_textContent (page s) = download_label (currentMode (vars s)).
Proof.
  intros H0 Hrun Hu Hne. eexists. split; [reflexivity|].
  destruct (run_labels_agree _ _ _ Hrun H0) as [_ Hd].
  unfold run_job, downloadButton_click. js_run. rewrite Hu.
  destruct url; [done|]. cbn. by destruct (currentMode (vars s)).
Qed.

(** X19: in every state reachable from the freshly loaded page, whatever
    the interleaving of the cycles, a visible download affordance has a
    download target. *)
Theorem reachable_download_has_target (key : jsstring) (evs : list Event) (s : App) :
  run evs (page_loaded key) = Some s →
  downloadButton_hidden (page s) = false →
  is_Some (resultUrl (vars s)).
Proof.
  intros Hrun. apply (visible_download_has_target evs (page_loaded key)); [|done].
  by intros ?.
Qed.

(** X20: in every state reachable from the freshly loaded page without
    starting a cycle while another is in flight, the download affordance is
    visible exactly when a download target is set. *)
Theorem serialized_download_consistent (key : jsstring) (evs : list Event) (s : App) :
  run_serialized evs (page_loaded key) = Some s →
  downloadButton_hidden (page s) = false ↔ is_Some (resultUrl (vars s)).
Proof.
  intros Hrun. apply (serialized_runs_consistent evs (page_loaded key)); [|done].
  split; [by apply blank_consistent|done].
Qed.

(** ** The further statements on sample runs *)

Lemma click_starts_edit_cycle_witness :
  actionButton_disabled (page ready) = false
  ∧ imageBase64 (vars ready) = Some (lit "AAAA") ∧ lit "AAAA" ≠ []
  ∧ imageMimeType (vars ready) = Some (lit "image/png") ∧ lit "image/png" ≠ []
  ∧ trim (promptInput_value (page ready)) ≠ []
  ∧ currentMode (vars ready) = ModeEdit
  ∧ ∃ s', step ActionClick ready = Some s'
          ∧ trace (host s')
            = trace (host ready)
              ++ [GenerateContent (lit "gemini-2.5-flash-image") (lit "AAAA")
                    (lit "image/png") (promptInput_value (page ready))]
          ∧ pending (host s')
            = pending (host ready)
              ++ [EditAwaitGenerateContent (promptInput_value (page ready))]
          ∧ resultContainer (page s') = [LoaderEl]
          ∧ loader_hidden (page s') = false
          ∧ resultPlaceholder_hidden (page s') = true
          ∧ downloadButton_hidden (page s') = true
          ∧ resultUrl (vars s') = None
          ∧ step ActionClick s' = None.
Proof.
  repeat (split; [by vm_compute|]).
  apply (click_starts_edit_cycle ready (lit "AAAA") (lit "image/png")); by vm_compute.
Defined.

Lemma click_starts_video_cycle_witness :
  actionButton_disabled (page video_ready) = false
  ∧ imageBase64 (vars video_ready) = Some (lit "AAAA") ∧ lit "AAAA" ≠ []
  ∧ imageMimeType (vars video_ready) = Some (lit "image/png") ∧ lit "image/png" ≠ []
  ∧ trim (promptInput_value (page video_ready)) ≠ []
  ∧ currentMode (vars video_ready) = ModeVideo
  ∧ ∃ s', step ActionClick video_ready = Some s'
          ∧ trace (host s')
            = trace (host video_ready)
              ++ [GenerateVideos (lit "veo-2.0-generate-001")
                    (promptInput_value (page video_ready))
                    (lit "AAAA") (lit "image/png") 1]
          ∧ pending (host s') = pending (host video_ready) ++ [VideoAwaitGenerateVideos]
          ∧ resultContainer (page s')
            = [LoaderEl;
               PEl (lit "loader-text") [] (lit "Iniciando la generación de video...")]
          ∧ loader_hidden (page s') = false
          ∧ resultPlaceholder_hidden (page s') = true
          ∧ downloadButton_hidden (page s') = true
          ∧ resultUrl (vars s') = None
          ∧ loadingInterval (vars s') = Some (next_timer (host video_ready))
          ∧ timers (host s') !! next_timer (host video_ready) = Some 0
          ∧ step ActionClick s' = None.
Proof.
  repeat (split; [by vm_compute|]).
  apply (click_starts_video_cycle video_ready (lit "AAAA") (lit "image/png"));
    by vm_compute.
Defined.

Lemma video_without_link_shows_error_witness :
  pending (host filming) !! 0 = Some VideoAwaitGenerateVideos
  ∧ (VideoAwaitGenerateVideos = VideoAwaitGenerateVideos
     ∨ VideoAwaitGenerateVideos = VideoAwaitGetVideosOperation)
  ∧ done job_without_video = true
  ∧ truthy (downloadLink job_without_video) = false
  ∧ ∃ s', step (Settle 0 (OperationResolved job_without_video)) filming = Some s'
          ∧ pending (host s') = delete 0 (pending (host filming))
          ∧ trace (host s') = trace (host filming)
          ∧ resultContainer (page s')
            = [PEl [] (lit "error")
                 (lit "No se pudo generar el video. Inténtalo de nuevo.")]
          ∧ downloadButton_hidden (page s') = true
          ∧ loader_hidden (page s') = true
          ∧ actionButton_disabled (page s') = false
          ∧ loadingInterval (vars s') = None.
Proof.
  split; [by vm_compute|]. split; [by left|]. split; [reflexivity|].
  split; [reflexivity|].
  apply (video_without_link_shows_error filming 0 VideoAwaitGenerateVideos
           job_without_video); [by vm_compute|by left|reflexivity|reflexivity].
Defined.

Lemma video_rejection_shows_error_witness :
  pending (host filming) !! 0 = Some VideoAwaitGenerateVideos
  ∧ (VideoAwaitGenerateVideos = VideoAwaitGenerateVideos
     ∨ VideoAwaitGenerateVideos = VideoAwaitGetVideosOperation
     ∨ VideoAwaitGenerateVideos = VideoAwaitFetch
     ∨ VideoAwaitGenerateVideos = VideoAwaitBlob)
  ∧ ∃ s', step (Settle 0 (Rejected (Reason (lit "503 Service Unavailable")))) filming
          = Some s'
          ∧ pending (host s') = delete 0 (pending (host filming))
          ∧ trace (host s')
            = trace (host filming)
              ++ [ConsoleError (lit "Error calling Gemini API for video generation:")
                    (Reason (lit "503 Service Unavailable"))]
          ∧ resultContainer (page s')
            = [PEl [] (lit "error")
                 (lit "Ocurrió un error en la generación del video. Por favor, revisa la consola.")]
          ∧ downloadButton_hidden (page s') = true
          ∧ loader_hidden (page s') = true
          ∧ actionButton_disabled (page s') = false
          ∧ loadingInterval (vars s') = None.
Proof.
  split; [by vm_compute|]. split; [by left|].
  apply (video_rejection_shows_error filming 0 VideoAwaitGenerateVideos
           (Reason (lit "503 Service Unavailable"))); [by vm_compute|by left].
Defined.

Lemma requests_carry_media_and_prompt_witness :
  requests_well_formed fresh
  ∧ run to_filming fresh = Some filming
  ∧ ∀ e, e ∈ trace (host filming) →
      match e with
      | GenerateContent _ data mimeType prompt
      | GenerateVideos _ prompt data mimeType _ =>
          data ≠ [] ∧ mimeType ≠ [] ∧ ¬ blank_text prompt
      | _ => True
      end.
Proof.
  split; [reflexivity|]. split; [by vm_compute|].
  apply (requests_carry_media_and_prompt fresh to_filming filming);
    [reflexivity|by vm_compute].
Defined.

Lemma labels_follow_mode_witness :
  labels_agree fresh
  ∧ run to_filming fresh = Some filming
  ∧ actionButton_textContent (page filming) = action_label (currentMode (vars filming))
  ∧ downloadButton_textContent (page filming)
    = download_label (currentMode (vars filming)).
Proof.
  split; [by split|]. split; [by vm_compute|].
  apply (labels_follow_mode fresh to_filming filming); [by split|by vm_compute].
Defined.

Lemma download_named_after_label_witness :
  labels_agree fresh
  ∧ run (to_edited ++ [ModeVideoChange true]) fresh
    = Some (after [ModeVideoChange true] edited)
  ∧ resultUrl (vars (after [ModeVideoChange true] edited))
    = Some (lit "data:image/png;base64,AAAA")
  ∧ lit "data:image/png;base64,AAAA" ≠ []
  ∧ ∃ s', step DownloadClick (after [ModeVideoChange true] edited) = Some s'
          ∧ vars s' = vars (after [ModeVideoChange true] edited)
          ∧ page s' = page (after [ModeVideoChange true] edited)
          ∧ timers (host s') = timers (host (after [ModeVideoChange true] edited))
          ∧ pending (host s') = pending (host (after [ModeVideoChange true] edited))
          ∧ trace (host s')
            = trace (host (after [ModeVideoChange true] edited))
              ++ [AnchorClick (lit "data:image/png;base64,AAAA")
                    (download_name
                       (currentMode (vars (after [ModeVideoChange true] edited))))]
          ∧ downloadButton_textContent (page (after [ModeVideoChange true] edited))
            = download_label (currentMode (vars (after [ModeVideoChange true] edited))).
Proof.
  split; [by split|]. do 3 (split; [by vm_compute|]).
  apply (download_named_after_label fresh (to_edited ++ [ModeVideoChange true])
           (after [ModeVideoChange true] edited) (lit "data:image/png;base64,AAAA"));
    [by split|by vm_compute..].
Defined.

Lemma reply_rendered_with_prompt_of_click_witness :
  actionButton_disabled (page ready) = false
  ∧ imageBase64 (vars ready) = Some (lit "AAAA") ∧ lit "AAAA" ≠ []
  ∧ imageMimeType (vars ready) = Some (lit "image/png") ∧ lit "image/png" ≠ []
  ∧ trim (promptInput_value (page ready)) ≠ []
  ∧ currentMode (vars ready) = ModeEdit
  ∧ forallb edits_form second_thoughts = true
  ∧ candidates illustrated = Some [three_parts]
  ∧ content_parts three_parts
    = Some [caption; image_part first_image; image_part second_image]
  ∧ existsb renderable [caption; image_part first_image; image_part second_image] = true
  ∧ ∃ s', run (ActionClick :: second_thoughts
               ++ [Settle (length (pending (host ready))) (ContentResolved illustrated)])
            ready = Some s'
          ∧ resultContainer (page s')
            = [caption; image_part first_image; image_part second_image]
              ≫= part_element (promptInput_value (page ready))
          ∧ trace (host s')
            = trace (host ready)
              ++ [GenerateContent (lit "gemini-2.5-flash-image") (lit "AAAA")
                    (lit "image/png") (promptInput_value (page ready))]
          ∧ pending (host s') = pending (host ready)
          ∧ loader_hidden (page s') = true
          ∧ actionButton_disabled (page s') = false.
Proof.
  repeat (split; [by vm_compute|]).
  apply (reply_rendered_with_prompt_of_click ready (lit "AAAA") (lit "image/png")
           second_thoughts illustrated three_parts []
           [caption; image_part first_image; image_part second_image]); by vm_compute.
Defined.

Lemma video_polls_until_done_witness :
  actionButton_disabled (page video_ready) = false
  ∧ imageBase64 (vars video_ready) = Some (lit "AAAA") ∧ lit "AAAA" ≠ []
  ∧ imageMimeType (vars video_ready) = Some (lit "image/png") ∧ lit "image/png" ≠ []
  ∧ trim (promptInput_value (page video_ready)) ≠ []
  ∧ currentMode (vars video_ready) = ModeVideo
  ∧ forallb (negb ∘ done) [job_running; job_running; job_running] = true
  ∧ done job_done = true ∧ downloadLink job_done = Some sample_link
  ∧ sample_link ≠ []
  ∧ let i := length (pending (host video_ready)) in
    ∃ s', run (ActionClick :: poll_events i [job_running; job_running; job_running]
               ++ [Settle i (OperationResolved job_done);
                   Settle i FetchResolved;
                   Settle i (BlobResolved fetched)]) video_ready = Some s'
          ∧ trace (host s')
            = trace (host video_ready)
              ++ GenerateVideos (lit "veo-2.0-generate-001")
                   (promptInput_value (page video_ready))
                   (lit "AAAA") (lit "image/png") 1
                 :: poll_effects [job_running; job_running; job_running]
              ++ [Fetch (sample_link ++ lit "&key=" ++ API_KEY (host video_ready));
                  ResponseBlob; CreateObjectURL fetched]
          ∧ pending (host s') = pending (host video_ready)
          ∧ resultUrl (vars s') = Some (blob_url fetched)
          ∧ resultContainer (page s')
            = [VideoEl (blob_url fetched) true true true true]
          ∧ downloadButton_hidden (page s') = false.
Proof.
  repeat (split; [by vm_compute|]).
  apply (video_polls_until_done video_ready (lit "AAAA") (lit "image/png") sample_link
           [job_running; job_running; job_running] job_done fetched);
    by vm_compute.
Defined.

Lemma rendered_image_uploads_back_witness :
  pending (host reading) !! 0 = Some ReaderOnload
  ∧ (COLON ∉ mimeType second_image) ∧ (SEMICOLON ∉ mimeType second_image)
  ∧ (COMMA ∉ mimeType second_image) ∧ (COMMA ∉ data second_image)
  ∧ ∃ s', step (Settle 0 (Loaded (data_url second_image))) reading = Some s'
          ∧ imageMimeType (vars s') = Some (mimeType second_image)
          ∧ imageBase64 (vars s') = Some (data second_image).
Proof.
  split; [reflexivity|]. do 4 (split; [compute_done|]).
  apply (rendered_image_uploads_back reading 0 second_image);
    [reflexivity|compute_done..].
Defined.

Lemma upload_shows_preview_witness :
  pending (host reading) !! 0 = Some ReaderOnload
  ∧ (COLON ∉ lit "data") ∧ (COMMA ∉ lit "data")
  ∧ (COLON ∉ lit "image/png") ∧ (SEMICOLON ∉ lit "image/png") ∧ (COMMA ∉ lit "image/png")
  ∧ (COMMA ∉ lit "base64") ∧ (COMMA ∉ lit "AAAA")
  ∧ ∃ s', step (Settle 0 (Loaded (lit "data:image/png;base64,AAAA"))) reading = Some s'
          ∧ originalImage_src (page s') = lit "data:image/png;base64,AAAA"
          ∧ originalImage_display (page s') = lit "block"
          ∧ uploadPlaceholder_hidden (page s') = true
          ∧ actionButton_disabled (page s') = false
          ∧ resultContainer (page s') = resultContainer (page reading)
          ∧ downloadButton_hidden (page s') = downloadButton_hidden (page reading)
          ∧ loader_hidden (page s') = loader_hidden (page reading)
          ∧ resultUrl (vars s') = resultUrl (vars reading)
          ∧ trace (host s') = trace (host reading)
          ∧ pending (host s') = delete 0 (pending (host reading)).
Proof.
  split; [reflexivity|]. do 7 (split; [compute_done|]).
  apply (upload_shows_preview reading 0
           (lit "data") (lit "image/png") (lit "base64") (lit "AAAA"));
    [reflexivity|compute_done..].
Defined.

Lemma upload_without_colon_throws_witness :
  pending (host reading) !! 0 = Some ReaderOnload
  ∧ (COLON ∉ lit "image/png;base64") ∧ (COMMA ∉ lit "image/png;base64")
  ∧ (COMMA ∉ lit "AAAA")
  ∧ ∃ s', step (Settle 0 (Loaded (lit "image/png;base64" ++ COMMA :: lit "AAAA")))
            reading = Some s'
          ∧ vars s' = vars reading ∧ page s' = page reading
          ∧ trace (host s') = trace (host reading) ++ [Uncaught TypeErrorObj].
Proof.
  split; [reflexivity|]. do 3 (split; [compute_done|]).
  apply (upload_without_colon_throws reading 0 (lit "image/png;base64") (lit "AAAA"));
    [reflexivity|compute_done..].
Defined.

Lemma empty_upload_enables_click_that_is_refused_witness :
  pending (host reading) !! 0 = Some ReaderOnload
  ∧ (COLON ∉ lit "data") ∧ (COMMA ∉ lit "data")
  ∧ (COLON ∉ lit "image/png") ∧ (SEMICOLON ∉ lit "image/png") ∧ (COMMA ∉ lit "image/png")
  ∧ (COMMA ∉ lit "base64") ∧ (COMMA ∉ ([] : list N))
  ∧ (lit "image/png" = [] ∨ ([] : list N) = [])
  ∧ ∃ s', run [Settle 0 (Loaded (lit "data" ++ COLON :: lit "image/png"
                                 ++ SEMICOLON :: lit "base64" ++ COMMA :: []));
               ActionClick] reading = Some s'
          ∧ imageMimeType (vars s') = Some (lit "image/png")
          ∧ imageBase64 (vars s') = Some []
          ∧ actionButton_disabled (page s') = false
          ∧ resultContainer (page s') = resultContainer (page reading)
          ∧ pending (host s') = delete 0 (pending (host reading))
          ∧ trace (host s')
            = trace (host reading) ++ [Alert (lit "Por favor, sube una imagen primero.")].
Proof.
  split; [reflexivity|]. do 7 (split; [compute_done|]). split; [by right|].
  apply (empty_upload_enables_click_that_is_refused reading 0
           (lit "data") (lit "image/png") (lit "base64") []);
    [reflexivity|compute_done..|by right].
Defined.

Lemma reachable_download_has_target_witness :
  run to_edited (page_loaded (lit "KEY")) = Some edited
  ∧ downloadButton_hidden (page edited) = false
  ∧ is_Some (resultUrl (vars edited)).
Proof.
  split; [by vm_compute|]. split; [by vm_compute|].
  apply (reachable_download_has_target (lit "KEY") to_edited edited); by vm_compute.
Defined.

Lemma serialized_download_consistent_witness :
  run_serialized to_edited (page_loaded (lit "KEY")) = Some edited
  ∧ (downloadButton_hidden (page edited) = false ↔ is_Some (resultUrl (vars edited))).
Proof.
  split; [by vm_compute|].
  apply (serialized_download_consistent (lit "KEY") to_edited edited); by vm_compute.
Defined.
